(** * resumeeATS: the matching-and-scoring engine, embedded and verified

    A shallow embedding of the Go sources of the ATS resume analyzer
    (services/nlp.go, the scorer, the parser, the models and utils
    packages) together with the properties claimed of them.

    Conventions of the embedding.
    - A Go [string] is a byte sequence: Rocq's [string] (a list of 8-bit
      [ascii]).  [len] is [String.length].  Case mapping, white space and
      letter/digit classes are those of the ASCII range, on which Go's
      [strings]/[unicode] functions act byte by byte; a byte above 0x7F is
      left as it is by [ToLower] and is no letter, digit or space.  The
      properties of the first part on keywords, TF-IDF and skill lists
      use nothing of the tokenizer or of the containment test beyond
      their types; those of the second part on tokens, words, sentences,
      phone numbers and file names are statements about ASCII text.
    - Go [int] values that are lengths, indices or counters are [nat];
      [JobDescription.MinExperience] is a [Z].
    - [float64] arithmetic is idealised as exact rational arithmetic ([Q]);
      [math.Log] and [math.Sqrt] leave the rationals, so [CalculateTFIDF]
      and [CalculateCosineSimilarity] are over [R].  Bounds on scores
      are bounds in exact arithmetic.
    - A Go [map] ranged over has no specified iteration order.  Where the
      result does not depend on the order the loop is a fold over the
      canonical enumeration; where it does ([ExtractKeywords]) the
      operation is a relation over all enumerations.
    - Every reading of [time.Now()] is an explicit argument.
    - What the parser asks of [regexp], [strconv] and [time.Parse], and
      what the PDF and DOCX readers find on disk, are arguments too
      ([Library.t], [Files.t]); the parser around them is written out.
    - A run-time panic (a slice bound out of range) is the result [None]. *)

From Stdlib Require Import ZArith QArith Lia Lra Ascii.
From Stdlib Require Lqa.
From Stdlib Require Import Reals Rpower.
From stdpp Require Import base gmap strings list sorting.

(** ** Go's [strings] package, bytewise *)

Module GoStrings.

(** [unicode.ToLower] on an ASCII byte. *)
Definition lower_byte (c : ascii) : ascii :=
  let n := nat_of_ascii c in
  if (65 <=? n)%nat && (n <=? 90)%nat then ascii_of_nat (n + 32) else c.

(** [strings.ToLower]. *)
Fixpoint ToLower (s : string) : string :=
  match s with
  | EmptyString => EmptyString
  | String c s' => String (lower_byte c) (ToLower s')
  end.

(** [strings.HasPrefix s p]. *)
Fixpoint HasPrefix (s p : string) : bool :=
  match p, s with
  | EmptyString, _ => true
  | String _ _, EmptyString => false
  | String a p', String b s' => if Ascii.eqb a b then HasPrefix s' p' else false
  end.

(** [strings.Contains s substr]. *)
Fixpoint Contains (s substr : string) : bool :=
  HasPrefix s substr ||
  match s with
  | EmptyString => false
  | String _ s' => Contains s' substr
  end.

(** The ASCII white space of [unicode.IsSpace]. *)
Definition isSpace (c : ascii) : bool :=
  let n := nat_of_ascii c in
  ((9 <=? n)%nat && (n <=? 13)%nat) || (n =? 32)%nat.

Fixpoint TrimLeftSpace (s : string) : string :=
  match s with
  | EmptyString => EmptyString
  | String c s' => if isSpace c then TrimLeftSpace s' else s
  end.

Fixpoint TrimRightSpace (s : string) : string :=
  match s with
  | EmptyString => EmptyString
  | String c s' =>
      match TrimRightSpace s' with
      | EmptyString => if isSpace c then EmptyString else String c EmptyString
      | t => String c t
      end
  end.

(** [strings.TrimSpace]. *)
Definition TrimSpace (s : string) : string := TrimRightSpace (TrimLeftSpace s).

(** [strings.Split s sep] for a one-byte separator: always at least one
    piece, empty pieces kept. *)
Fixpoint Split (s : string) (sep : ascii) : list string :=
  match s with
  | EmptyString => [EmptyString]
  | String c s' =>
      if Ascii.eqb c sep then EmptyString :: Split s' sep
      else match Split s' sep with
           | piece :: rest => String c piece :: rest
           | [] => [String c EmptyString]
           end
  end.

(** [strings.Join]. *)
Fixpoint Join (elems : list string) (sep : string) : string :=
  match elems with
  | [] => EmptyString
  | [e] => e
  | e :: rest => e +:+ sep +:+ Join rest sep
  end.

(** [strings.FieldsFunc]: the maximal runs of bytes on which [f] is
    false; [cur] is the run being read. *)
Fixpoint FieldsFunc_from (f : ascii -> bool) (s : string) (cur : string) : list string :=
  match s with
  | EmptyString => match cur with EmptyString => [] | _ => [cur] end
  | String c s' =>
      if f c then
        match cur with
        | EmptyString => FieldsFunc_from f s' EmptyString
        | _ => cur :: FieldsFunc_from f s' EmptyString
        end
      else FieldsFunc_from f s' (cur +:+ String c EmptyString)
  end.

Definition FieldsFunc (s : string) (f : ascii -> bool) : list string :=
  FieldsFunc_from f s EmptyString.

(** [unicode.IsLetter] and [unicode.IsNumber] on an ASCII byte. *)
Definition IsLetter (c : ascii) : bool :=
  let n := nat_of_ascii c in
  ((65 <=? n)%nat && (n <=? 90)%nat) || ((97 <=? n)%nat && (n <=? 122)%nat).

Definition IsNumber (c : ascii) : bool :=
  let n := nat_of_ascii c in (48 <=? n)%nat && (n <=? 57)%nat.

(** A byte of the ASCII range: a character that UTF-8 encodes in one
    byte.  On a string of such bytes the bytes are the characters Go's
    [unicode] functions see. *)
Definition isASCII (c : ascii) : bool := (nat_of_ascii c <? 128)%nat.

(** [strings.Fields]. *)
Definition Fields (s : string) : list string := FieldsFunc s isSpace.

(** A loop over the bytes of [s] that fails at the first byte on which
    [f] is false. *)
Fixpoint allBytes (f : ascii -> bool) (s : string) : bool :=
  match s with
  | EmptyString => true
  | String c s' => f c && allBytes f s'
  end.

(** [strings.ReplaceAll s old new] for a non-empty [old]: the occurrences
    of [old] are replaced from the left, without overlap; [skip] counts
    the bytes of a replaced occurrence still to pass. *)
Fixpoint ReplaceAll_from (s old new : string) (skip : nat) : string :=
  match s with
  | EmptyString => EmptyString
  | String c s' =>
      match skip with
      | S k => ReplaceAll_from s' old new k
      | O =>
          if HasPrefix s old
          then new +:+ ReplaceAll_from s' old new (String.length old - 1)
          else String c (ReplaceAll_from s' old new 0)
      end
  end.

Definition ReplaceAll (s old new : string) : string := ReplaceAll_from s old new 0.

(** The first [n] bytes of [s] ([s] itself when it is shorter). *)
Fixpoint prefix (n : nat) (s : string) : string :=
  match n, s with
  | S k, String c s' => String c (prefix k s')
  | _, _ => EmptyString
  end.

(** The slice expression [s[:n]]; [None] is the run-time panic for a
    bound that is negative or past the end. *)
Definition SliceTo (s : string) (n : Z) : option string :=
  if (n <? 0)%Z || (Z.of_nat (String.length s) <? n)%Z then None
  else Some (prefix (Z.to_nat n) s).

(** The scan of [filepath.Ext], from the end of [path] back to the last
    dot or slash: [None] when [path] has neither. *)
Fixpoint Ext_scan (path : string) : option string :=
  match path with
  | EmptyString => None
  | String c rest =>
      match Ext_scan rest with
      | Some e => Some e
      | None =>
          if Ascii.eqb c "."%char then Some path
          else if Ascii.eqb c "/"%char then Some EmptyString
          else None
      end
  end.

(** [filepath.Ext]: the suffix from the last dot of the last element of
    [path], empty when that element has no dot. *)
Definition Ext (path : string) : string := default EmptyString (Ext_scan path).

(** What is left of [s] after its first [n] bytes. *)
Fixpoint dropBytes (n : nat) (s : string) : string :=
  match n, s with
  | S k, String _ s' => dropBytes k s'
  | _, _ => s
  end.

(** [strings.HasSuffix s suffix]. *)
Definition HasSuffix (s suffix : string) : bool :=
  (String.length suffix <=? String.length s)%nat
  && String.eqb (dropBytes (String.length s - String.length suffix) s) suffix.

(** [strings.TrimSuffix s suffix]. *)
Definition TrimSuffix (s suffix : string) : string :=
  if HasSuffix s suffix then prefix (String.length s - String.length suffix) s else s.

(** The bytes of [s] on which [f] holds, in order. *)
Fixpoint filterBytes (f : ascii -> bool) (s : string) : string :=
  match s with
  | EmptyString => EmptyString
  | String c s' => if f c then String c (filterBytes f s') else filterBytes f s'
  end.

(** [s] with [f] applied to every byte. *)
Fixpoint mapBytes (f : ascii -> ascii) (s : string) : string :=
  match s with
  | EmptyString => EmptyString
  | String c s' => String (f c) (mapBytes f s')
  end.

(** A string that does not start with white space ([TrimLeftSpace] leaves
    it alone). *)
Definition headNotSpace (s : string) : Prop :=
  match s with
  | EmptyString => True
  | String c _ => isSpace c = false
  end.

End GoStrings.

Import GoStrings.

(** ** [float64], idealised *)

Module Float.

Definition of_nat (n : nat) : Q := inject_Z (Z.of_nat n).
Definition of_int (z : Z) : Q := inject_Z z.

Definition leb (x y : Q) : bool := Qle_bool x y.
Definition ltb (x y : Q) : bool := negb (Qle_bool y x).
Definition eqb (x y : Q) : bool := Qeq_bool x y.

End Float.

(** ** package utils *)

Module Utils.

(** The loop of [RemoveDuplicates]; [keys] is the map of items seen. *)
Fixpoint RemoveDuplicates_loop (keys : gset string) (slice : list string) : list string :=
  match slice with
  | [] => []
  | item :: rest =>
      let item := TrimSpace item in
      if negb (String.eqb item "") && negb (bool_decide (item ∈ keys))
      then item :: RemoveDuplicates_loop ({[item]} ∪ keys) rest
      else RemoveDuplicates_loop keys rest
  end.

Definition RemoveDuplicates (slice : list string) : list string :=
  RemoveDuplicates_loop ∅ slice.

(** [CleanText]. *)
Definition CleanText (text : string) : string :=
  let text := Join (Fields text) " " in
  TrimSpace text.

(** [SplitIntoSentences]. *)
Definition SplitIntoSentences (text : string) : list string :=
  let text := ReplaceAll text "!" "." in
  let text := ReplaceAll text "?" "." in
  let sentences := Split text "."%char in
  List.filter (fun sentence => (5 <? String.length sentence)%nat)
              (map TrimSpace sentences).

(** [CalculateWordCount]. *)
Definition CalculateWordCount (text : string) : nat := length (Fields text).

(** [ExtractEmailDomain]. *)
Definition ExtractEmailDomain (email : string) : string :=
  match Split email "@"%char with
  | [_; domain] => domain
  | _ => EmptyString
  end.

(** [TruncateText]; [None] is the panic of a slice with a negative bound. *)
Definition TruncateText (text : string) (maxLength : Z) : option string :=
  if (Z.of_nat (String.length text) <=? maxLength)%Z then Some text
  else if (maxLength <=? 3)%Z then SliceTo text maxLength
  else option_map (fun head => head +:+ "...") (SliceTo text (maxLength - 3)).

(** [IsValidEmailFormat]. *)
Definition IsValidEmailFormat (email : string) : bool :=
  if negb (Contains email "@") then false
  else
    match Split email "@"%char with
    | [local; domain] =>
        if (String.length local =? 0)%nat || (String.length domain =? 0)%nat then false
        else if negb (Contains domain ".") then false
        else true
    | _ => false
    end.

End Utils.

(** ** package utils, validation.go *)

Module Validation.

(** [IsValidResumeFile]. *)
Definition IsValidResumeFile (filename : string) : bool :=
  let ext := ToLower (Ext filename) in
  existsb (fun validExt => String.eqb ext validExt) [".pdf"; ".docx"].

(** The substrings [SanitizeFilename] replaces, in the order of the
    source; the second is the backslash, the sixth the double quote. *)
Definition dangerous : list string :=
  ["/"; String "092" ""; ":"; "*"; "?"; String "034" ""; "<"; ">"; "|"; ".."].

(** [SanitizeFilename]; [None] is the panic of the slice
    [name[:255-len(ext)]] with a negative bound. *)
Definition SanitizeFilename (filename : string) : option string :=
  let filename := fold_left (fun f char => ReplaceAll f char "_") dangerous filename in
  if (255 <? String.length filename)%nat then
    let ext := Ext filename in
    let name := TrimSuffix filename ext in
    option_map (fun head => head +:+ ext)
               (SliceTo name (255 - Z.of_nat (String.length ext)))
  else Some filename.

(** The bytes [ValidatePhone] strips before it looks for digits. *)
Definition phoneFormatting : list string := [" "; "-"; "("; ")"; "."; "+"].

(** [ValidatePhone]; [None] is the [nil] error. *)
Definition ValidatePhone (phone : string) : option string :=
  let phone := TrimSpace phone in
  if String.eqb phone "" then Some "phone number cannot be empty"
  else
    let cleanPhone := fold_left (fun p old => ReplaceAll p old "") phoneFormatting phone in
    if negb (allBytes IsNumber cleanPhone)
    then Some "phone number contains invalid characters"
    else if (String.length cleanPhone <? 10)%nat || (15 <? String.length cleanPhone)%nat
    then Some "phone number length invalid (should be 10-15 digits)"
    else None.

(** [ValidateEmail]; [None] is the [nil] error. *)
Definition ValidateEmail (email : string) : option string :=
  let email := TrimSpace email in
  if String.eqb email "" then Some "email cannot be empty"
  else if negb (Utils.IsValidEmailFormat email) then Some "invalid email format"
  else None.

End Validation.

(** ** services/nlp.go *)

Module NLP.

Definition stopWords : gset string :=
  list_to_set
    [ "a"; "an"; "and"; "are"; "as"; "at";
      "be"; "by"; "for"; "from"; "has"; "he";
      "in"; "is"; "it"; "its"; "of"; "on";
      "that"; "the"; "to"; "was"; "were"; "will";
      "with"; "you"; "your"; "have"; "had"; "this";
      "they"; "we"; "our"; "us"; "can"; "could";
      "would"; "should"; "may"; "might"; "must" ].

(** [Tokenize].  The text is read byte by byte, which is how Go reads it
    character by character when the text is ASCII; a character outside
    ASCII, which Go may count as a letter, is here a separator. *)
Definition Tokenize (text : string) : list string :=
  let words := FieldsFunc (ToLower text) (fun c => negb (IsLetter c) && negb (IsNumber c)) in
  filter (fun word => (2 < String.length word)%nat ∧ word ∉ stopWords)
         (map TrimSpace words).

(** The [termFreq[token]++] loop. *)
Definition countTerms (tokens : list string) (m : gmap string nat) : gmap string nat :=
  fold_left (fun m token => <[token := S (default 0%nat (m !! token))]> m) tokens m.

Definition termFreq (tokens : list string) : gmap string nat := countTerms tokens ∅.

(** *** [calculateStringSimilarity] *)

(** The three-argument [min] of nlp.go. *)
Definition min (a b c : nat) : nat :=
  if (a <? b)%nat then (if (a <? c)%nat then a else c)
  else (if (b <? c)%nat then b else c).

Definition max (a b : nat) : nat := if (b <? a)%nat then a else b.

(** Row [i] of the matrix from column 1 on: [prev] is row [i-1] from
    column [j-1] on, [left] is [matrix[i][j-1]]. *)
Fixpoint fill_row (c1 : ascii) (s2 : string) (prev : list nat) (left : nat) : list nat :=
  match s2, prev with
  | String c2 s2', diag :: ((up :: _) as prev') =>
      let cost := if Ascii.eqb c1 c2 then 0%nat else 1%nat in
      let v := min (up + 1) (left + 1) (diag + cost) in
      v :: fill_row c1 s2' prev' v
  | _, _ => []
  end.

(** Rows [i], [i+1], ... of the matrix, one per remaining byte of [s1]. *)
Fixpoint fill_rows (s1 s2 : string) (i : nat) (prev : list nat) : list (list nat) :=
  match s1 with
  | EmptyString => []
  | String c1 s1' =>
      let row := i :: fill_row c1 s2 prev i in
      row :: fill_rows s1' s2 (S i) row
  end.

(** The full matrix: row 0 is [0..len s2], column 0 is [0..len s1]. *)
Definition matrix (s1 s2 : string) : list (list nat) :=
  let row0 := seq 0 (S (String.length s2)) in
  row0 :: fill_rows s1 s2 1 row0.

Definition distance (s1 s2 : string) : nat :=
  nth (String.length s2) (nth (String.length s1) (matrix s1 s2) []) 0%nat.

Definition calculateStringSimilarity (s1 s2 : string) : Q :=
  if (String.length s1 =? 0)%nat then Float.of_nat (String.length s2)
  else if (String.length s2 =? 0)%nat then Float.of_nat (String.length s1)
  else
    let maxLen := max (String.length s1) (String.length s2) in
    if (maxLen =? 0)%nat then 1%Q
    else (1 - Float.of_nat (distance s1 s2) / Float.of_nat maxLen)%Q.

(** The edit distance by recursion on the last bytes read; the strings
    are held reversed, as the matrix is filled forwards.  It is what
    the matrix entries are shown to be. *)
Fixpoint editDistance (s : string) : string -> nat :=
  match s with
  | EmptyString => String.length
  | String a s' =>
      fix editDistance_s (t : string) : nat :=
        match t with
        | EmptyString => S (String.length s')
        | String b t' =>
            min (editDistance s' t + 1) (editDistance_s t' + 1)
                (editDistance s' t' + (if Ascii.eqb a b then 0 else 1))%nat
        end
  end.

(** [revOnto s acc]: the bytes of [s] reversed, in front of [acc]. *)
Fixpoint revOnto (s acc : string) : string :=
  match s with
  | EmptyString => acc
  | String c s' => revOnto s' (String c acc)
  end.

(** The reversed prefixes of [t], each in front of [acc]. *)
Fixpoint prefixes (acc t : string) : list string :=
  match t with
  | EmptyString => [acc]
  | String b t' => acc :: prefixes (String b acc) t'
  end.

(** *** [CalculateSkillMatch] *)

(** The inner loop, ranging over the keys of [resumeSet] in the order
    [ranged]: it stops at the first resume skill similar enough. *)
Definition fuzzyFoundIn (ranged : list string) (jobSkillLower : string) : bool :=
  existsb (fun resumeSkill =>
             Float.ltb 0.8 (calculateStringSimilarity resumeSkill jobSkillLower))
          ranged.

(** [found] is an existence test, the same in whatever order the map is
    ranged ([fuzzyFoundIn_order] below); here with the canonical one. *)
Definition fuzzyFound (resumeSet : gset string) (jobSkillLower : string) : bool :=
  fuzzyFoundIn (elements resumeSet) jobSkillLower.

Fixpoint matchLoop (resumeSet : gset string) (jobSkills matched missing : list string)
  : list string * list string :=
  match jobSkills with
  | [] => (matched, missing)
  | jobSkill :: rest =>
      let jobSkillLower := ToLower jobSkill in
      if bool_decide (jobSkillLower ∈ resumeSet) then
        matchLoop resumeSet rest (matched ++ [jobSkill]) missing
      else if fuzzyFound resumeSet jobSkillLower then
        matchLoop resumeSet rest (matched ++ [jobSkill]) missing
      else
        matchLoop resumeSet rest matched (missing ++ [jobSkill])
  end.

(** The test the loop of [CalculateSkillMatch] applies to a job skill:
    exact membership of its lower-cased form, or else a fuzzy match. *)
Definition skillFound (resumeSet : gset string) (jobSkill : string) : bool :=
  bool_decide (ToLower jobSkill ∈ resumeSet) || fuzzyFound resumeSet (ToLower jobSkill).

Definition CalculateSkillMatch (resumeSkills jobSkills : list string)
  : Q * list string * list string :=
  let resumeSet : gset string := list_to_set (map ToLower resumeSkills) in
  let '(matched, missing) := matchLoop resumeSet jobSkills [] [] in
  let matchPercentage :=
    if (0 <? length jobSkills)%nat
    then (Float.of_nat (length matched) / Float.of_nat (length jobSkills) * 100)%Q
    else 0%Q in
  (matchPercentage, matched, missing).

(** *** [ExtractKeywords] *)

(** [for term, freq := range m]: every entry once, in an order the
    language leaves unspecified (the runtime randomises it). *)
Definition ranges {V} (m : gmap string V) (entries : list (string * V)) : Prop :=
  entries ≡ₚ map_to_list m.

(** The [less] closure given to [sort.Slice]:
    [scores[i].score > scores[j].score]. *)
Definition less (a b : string * nat) : bool := (b.2 <? a.2)%nat.

(** What [sort.Slice] promises: the same elements, no later element
    [less] than an earlier one.  It is not a stable sort. *)
Definition sort_Slice (scores sorted : list (string * nat)) : Prop :=
  sorted ≡ₚ scores ∧ StronglySorted (fun a b => less b a = false) sorted.

(** [for i := 0; i < topK && i < len(scores); i++]. *)
Definition topTerms (topK : Z) (scores : list (string * nat)) : list string :=
  take (Z.to_nat topK) (map fst scores).

(** [ExtractKeywords text topK] may return [keywords]. *)
Definition ExtractKeywords (text : string) (topK : Z) (keywords : list string) : Prop :=
  ∃ scores sorted,
    ranges (termFreq (Tokenize text)) scores ∧
    sort_Slice scores sorted ∧
    keywords = topTerms topK sorted.

(** The order [sort.Slice] establishes: [b] is not [less] than [a]. *)
Definition notAfter (a b : string * nat) : Prop := (b.2 ≤ a.2)%nat.

#[global] Instance notAfter_dec : RelDecision notAfter.
Proof. intros a b. unfold notAfter. apply _. Defined.

(** One run of [ExtractKeywords], for the enumeration [scores] of the
    map and a merge sort as [sort.Slice]. *)
Definition ExtractKeywords_run (scores : list (string * nat)) (topK : Z) : list string :=
  topTerms topK (merge_sort notAfter scores).

(** The distinct tokens in the order of their first occurrence. *)
Fixpoint firstSeen (seen : gset string) (tokens : list string) : list string :=
  match tokens with
  | [] => []
  | t :: rest =>
      if bool_decide (t ∈ seen) then firstSeen seen rest
      else t :: firstSeen ({[t]} ∪ seen) rest
  end.

(** Stable insertion by descending score of an entry [x] that came
    before all of [l]: it passes only the entries of greater score. *)
Fixpoint insertStable (x : string * nat) (l : list (string * nat)) : list (string * nat) :=
  match l with
  | [] => [x]
  | y :: l' => if (x.2 <? y.2)%nat then y :: insertStable x l' else x :: y :: l'
  end.

Definition sortStable (l : list (string * nat)) : list (string * nat) :=
  foldr insertStable [] l.

(** The keyword extraction as the specification words it: frequency
    descending, ties in first-encountered order. *)
Definition ExtractKeywords_spec (text : string) (topK : Z) : list string :=
  let tokens := Tokenize text in
  let scores := map (fun t => (t, count_occ String.string_dec tokens t)) (firstSeen ∅ tokens) in
  topTerms topK (sortStable scores).

(** *** [CalculateTFIDF] *)

Record Document := { Text : string; Terms : gmap string nat }.

(** [doc.Terms[term]], zero for an absent key. *)
Definition termCount (doc : Document) (term : string) : nat :=
  default 0%nat (Terms doc !! term).

(** [for _, freq := range doc.Terms { docLength += freq }]. *)
Definition docLength (doc : Document) : nat :=
  map_fold (fun _ freq acc => (acc + freq)%nat) 0%nat (Terms doc).

(** The document frequency of [term]. *)
Definition docFreq (docs : list Document) (term : string) : nat :=
  length (filter (fun doc => (0 < termCount doc term)%nat) docs).

(** The second inner loop: the sum of [normalizedTF * idf]. *)
Definition totalTFIDF (docs : list Document) (term : string) (idf : R) : R :=
  fold_left (fun total doc =>
               let tf := termCount doc term in
               if (0 <? tf)%nat
               then (total + INR tf / INR (docLength doc) * idf)%R
               else total)
            docs 0%R.

Definition CalculateTFIDF (documents : list string) : gmap string R :=
  let docs := map (fun docText =>
                     {| Text := docText; Terms := termFreq (Tokenize docText) |}) documents in
  let allTerms := fold_left (fun m docText => countTerms (Tokenize docText) m) documents ∅ in
  let numDocs := INR (length documents) in
  map_imap (fun term _ =>
              let df := docFreq docs term in
              let idf := ln (numDocs / INR df) in
              Some (totalTFIDF docs term idf))
           allTerms.

(** *** [CalculateCosineSimilarity] *)

(** The [allTerms[token] = true] assignments of the two loops. *)
Definition cosineTerms (tokens1 tokens2 : list string) : gmap string bool :=
  fold_left (fun m token => <[token := true]> m) tokens2
            (fold_left (fun m token => <[token := true]> m) tokens1 ∅).

(** [float64(freq[term])], zero for an absent key. *)
Definition freqOf (freq : gmap string nat) (term : string) : R :=
  INR (default 0%nat (freq !! term)).

(** The loop over [allTerms], ranged in the order [ranged]: the dot
    product and the two squared norms. *)
Definition cosineSums (freq1 freq2 : gmap string nat) (ranged : list string) : R * R * R :=
  fold_left (fun '(dotProduct, norm1, norm2) term =>
               let f1 := freqOf freq1 term in
               let f2 := freqOf freq2 term in
               (dotProduct + f1 * f2, norm1 + f1 * f1, norm2 + f2 * f2)%R)
            ranged (0, 0, 0)%R.

(** The sum of [g term] over the terms of [ranged]. *)
Definition sumOver (g : string -> R) (ranged : list string) : R :=
  foldr (fun term acc => (g term + acc)%R) 0%R ranged.

(** [CalculateCosineSimilarity], the map ranged in its canonical order;
    the sums are the same in any order ([cosineSums_order] below). *)
Definition CalculateCosineSimilarity (text1 text2 : string) : R :=
  let tokens1 := Tokenize text1 in
  let tokens2 := Tokenize text2 in
  let allTerms := cosineTerms tokens1 tokens2 in
  let freq1 := termFreq tokens1 in
  let freq2 := termFreq tokens2 in
  let '(dotProduct, norm1, norm2) :=
    cosineSums freq1 freq2 (map fst (map_to_list allTerms)) in
  if Req_dec_T norm1 0 then 0%R
  else if Req_dec_T norm2 0 then 0%R
  else (dotProduct / (sqrt norm1 * sqrt norm2))%R.

End NLP.

(** ** package models *)

(** [time.Time] as nanoseconds since the epoch; [time.Duration] is an
    [int64] count of nanoseconds and [Sub] saturates. *)
Module Time.

Definition Time := Z.
Definition Duration := Z.

Definition minDuration : Duration := (- 2 ^ 63)%Z.
Definition maxDuration : Duration := (2 ^ 63 - 1)%Z.
Definition Hour : Duration := (60 * 60 * 1000000000)%Z.

Definition Sub (t u : Time) : Duration :=
  let d := (t - u)%Z in
  if (d <? minDuration)%Z then minDuration
  else if (maxDuration <? d)%Z then maxDuration
  else d.

(** [Duration.Hours]: whole hours plus the remainder as a fraction. *)
Definition Hours (d : Duration) : Q :=
  (Float.of_int (Z.quot d Hour) + Float.of_int (Z.rem d Hour) / Float.of_int Hour)%Q.

(** The zero [time.Time{}]: 1 January of the year 1, 00:00 UTC. *)
Definition zero : Time := (- 62135596800 * 1000000000)%Z.

End Time.

Module PersonalInfo.
Record t := { Name : string; Email : string; Phone : string; Address : string }.
Definition zero : t := {| Name := ""; Email := ""; Phone := ""; Address := "" |}.
Definition set_Name (i : t) (v : string) : t :=
  {| Name := v; Email := Email i; Phone := Phone i; Address := Address i |}.
Definition set_Email (i : t) (v : string) : t :=
  {| Name := Name i; Email := v; Phone := Phone i; Address := Address i |}.
Definition set_Phone (i : t) (v : string) : t :=
  {| Name := Name i; Email := Email i; Phone := v; Address := Address i |}.
End PersonalInfo.

Module Education.
Record t := { Degree : string; Institution : string; Year : Z; GPA : string }.
End Education.

Module Experience.
Record t := {
  Company : string;
  Position : string;
  StartDate : Time.Time;
  EndDate : option Time.Time;
  Description : string;
  IsCurrent : bool }.
End Experience.

Module Project.
Record t := { Name : string; Description : string; Technologies : list string }.
End Project.

Module Resume.

Record t := {
  PersonalInfo : PersonalInfo.t;
  Education : list Education.t;
  Experience : list Experience.t;
  Skills : list string;
  Projects : list Project.t;
  Certifications : list string;
  RawText : string;
  FormatIssues : list string }.

(** [&models.Resume{RawText: text}]. *)
Definition fresh (text : string) : t :=
  {| PersonalInfo := PersonalInfo.zero; Education := []; Experience := [];
     Skills := []; Projects := []; Certifications := [];
     RawText := text; FormatIssues := [] |}.

Definition set_Skills (r : t) (v : list string) : t :=
  {| PersonalInfo := PersonalInfo r; Education := Education r;
     Experience := Experience r; Skills := v; Projects := Projects r;
     Certifications := Certifications r; RawText := RawText r;
     FormatIssues := FormatIssues r |}.

Definition set_Projects (r : t) (v : list Project.t) : t :=
  {| PersonalInfo := PersonalInfo r; Education := Education r;
     Experience := Experience r; Skills := Skills r; Projects := v;
     Certifications := Certifications r; RawText := RawText r;
     FormatIssues := FormatIssues r |}.

(** One turn of the loop of [CalculateExperienceYears]. *)
Definition years (now : Time.Time) (exp : Experience.t) : Q :=
  let endDate := match Experience.EndDate exp with
                 | Some e => e
                 | None => now
                 end in
  let duration := Time.Sub endDate (Experience.StartDate exp) in
  (Time.Hours duration / (24 * 365.25))%Q.

(** [CalculateExperienceYears]; [now] is the reading of [time.Now()]. *)
Definition CalculateExperienceYears (now : Time.Time) (r : t) : Q :=
  fold_left (fun totalYears exp => (totalYears + years now exp)%Q) (Experience r) 0%Q.

Definition set_PersonalInfo (r : t) (v : PersonalInfo.t) : t :=
  {| PersonalInfo := v; Education := Education r;
     Experience := Experience r; Skills := Skills r; Projects := Projects r;
     Certifications := Certifications r; RawText := RawText r;
     FormatIssues := FormatIssues r |}.

Definition set_Education (r : t) (v : list Education.t) : t :=
  {| PersonalInfo := PersonalInfo r; Education := v;
     Experience := Experience r; Skills := Skills r; Projects := Projects r;
     Certifications := Certifications r; RawText := RawText r;
     FormatIssues := FormatIssues r |}.

Definition set_Experience (r : t) (v : list Experience.t) : t :=
  {| PersonalInfo := PersonalInfo r; Education := Education r;
     Experience := v; Skills := Skills r; Projects := Projects r;
     Certifications := Certifications r; RawText := RawText r;
     FormatIssues := FormatIssues r |}.

Definition set_Certifications (r : t) (v : list string) : t :=
  {| PersonalInfo := PersonalInfo r; Education := Education r;
     Experience := Experience r; Skills := Skills r; Projects := Projects r;
     Certifications := v; RawText := RawText r;
     FormatIssues := FormatIssues r |}.

Definition set_FormatIssues (r : t) (v : list string) : t :=
  {| PersonalInfo := PersonalInfo r; Education := Education r;
     Experience := Experience r; Skills := Skills r; Projects := Projects r;
     Certifications := Certifications r; RawText := RawText r;
     FormatIssues := v |}.

End Resume.

Module JobDescription.
Record t := {
  Title : string;
  Company : string;
  RequiredSkills : list string;
  PreferredSkills : list string;
  MinExperience : Z;
  Education : list string;
  Location : string;
  Description : string;
  Keywords : list string;
  RawText : string }.
Definition set_RequiredSkills (jd : t) (v : list string) : t :=
  {| Title := Title jd; Company := Company jd; RequiredSkills := v;
     PreferredSkills := PreferredSkills jd; MinExperience := MinExperience jd;
     Education := Education jd; Location := Location jd;
     Description := Description jd; Keywords := Keywords jd;
     RawText := RawText jd |}.

Definition set_Title (jd : t) (v : string) : t :=
  {| Title := v; Company := Company jd; RequiredSkills := RequiredSkills jd;
     PreferredSkills := PreferredSkills jd; MinExperience := MinExperience jd;
     Education := Education jd; Location := Location jd;
     Description := Description jd; Keywords := Keywords jd;
     RawText := RawText jd |}.

Definition set_Company (jd : t) (v : string) : t :=
  {| Title := Title jd; Company := v; RequiredSkills := RequiredSkills jd;
     PreferredSkills := PreferredSkills jd; MinExperience := MinExperience jd;
     Education := Education jd; Location := Location jd;
     Description := Description jd; Keywords := Keywords jd;
     RawText := RawText jd |}.

Definition set_MinExperience (jd : t) (v : Z) : t :=
  {| Title := Title jd; Company := Company jd; RequiredSkills := RequiredSkills jd;
     PreferredSkills := PreferredSkills jd; MinExperience := v;
     Education := Education jd; Location := Location jd;
     Description := Description jd; Keywords := Keywords jd;
     RawText := RawText jd |}.

Definition set_Education (jd : t) (v : list string) : t :=
  {| Title := Title jd; Company := Company jd; RequiredSkills := RequiredSkills jd;
     PreferredSkills := PreferredSkills jd; MinExperience := MinExperience jd;
     Education := v; Location := Location jd;
     Description := Description jd; Keywords := Keywords jd;
     RawText := RawText jd |}.

Definition set_Location (jd : t) (v : string) : t :=
  {| Title := Title jd; Company := Company jd; RequiredSkills := RequiredSkills jd;
     PreferredSkills := PreferredSkills jd; MinExperience := MinExperience jd;
     Education := Education jd; Location := v;
     Description := Description jd; Keywords := Keywords jd;
     RawText := RawText jd |}.

Definition set_Keywords (jd : t) (v : list string) : t :=
  {| Title := Title jd; Company := Company jd; RequiredSkills := RequiredSkills jd;
     PreferredSkills := PreferredSkills jd; MinExperience := MinExperience jd;
     Education := Education jd; Location := Location jd;
     Description := Description jd; Keywords := v;
     RawText := RawText jd |}.

(** [&models.JobDescription{RawText: text}]. *)
Definition fresh (text : string) : t :=
  {| Title := ""; Company := ""; RequiredSkills := []; PreferredSkills := [];
     MinExperience := 0; Education := []; Location := ""; Description := "";
     Keywords := []; RawText := text |}.

End JobDescription.

Module SkillMatchResult.
Record t := {
  Percentage : Q;
  MatchedSkills : list string;
  MissingSkills : list string;
  TotalRequired : nat;
  TotalMatched : nat }.
End SkillMatchResult.

Module ExperienceResult.
Record t := {
  Score : Q;
  YearsRequired : Z;
  YearsCandidate : Q;
  MeetsRequirement : bool }.
End ExperienceResult.

Module EducationResult.
Record t := {
  Score : Q;
  MatchedDegrees : list string;
  HasRequiredEducation : bool }.
End EducationResult.

Module FormatResult.
Record t := { Score : Q; Issues : list string; IsATSFriendly : bool }.
End FormatResult.

Module ScoreBreakdown.
Record t := {
  SkillWeight : Q;
  ExperienceWeight : Q;
  EducationWeight : Q;
  FormatWeight : Q;
  SkillScore : Q;
  ExperienceScore : Q;
  EducationScore : Q;
  FormatScore : Q }.
End ScoreBreakdown.

Module AnalysisResult.
Record t := {
  Score : Q;
  SkillMatch : SkillMatchResult.t;
  ExperienceMatch : ExperienceResult.t;
  EducationMatch : EducationResult.t;
  FormatScore : FormatResult.t;
  MissingKeywords : list string;
  Suggestions : list string;
  MatchedKeywords : list string;
  ScoreBreakdown : ScoreBreakdown.t }.
End AnalysisResult.

(** ** What the parser takes from libraries *)

(** The functions of Go's [regexp], [strconv] and [time] packages the
    parser calls.  They are functions of their arguments (a compiled
    pattern holds no state that a match changes); the embedding takes
    them as they are, with the pattern or layout as first argument. *)
Module Library.

Record t := {
  (* [regexp.MustCompile(pattern).MatchString(s)] *)
  MatchString : string -> string -> bool;
  (* [regexp.MustCompile(pattern).FindString(s)] *)
  FindString : string -> string -> string;
  (* [regexp.MustCompile(pattern).FindAllString(s, -1)] *)
  FindAllString : string -> string -> list string;
  (* [regexp.MustCompile(pattern).FindStringSubmatch(s)] *)
  FindStringSubmatch : string -> string -> list string;
  (* [strconv.Atoi(s)]; [None] is an error *)
  Atoi : string -> option Z;
  (* [time.Parse(layout, value)]; [None] is an error *)
  Parse : string -> string -> option Time.Time }.

End Library.

(** The documents on disk, as the PDF and DOCX libraries read them: the
    text source of [ParseResume]. *)
Module Files.

(** A page of a PDF: [page.V.IsNull()] and [page.GetPlainText(nil)]
    ([None] is an error). *)
Record Page := { IsNull : bool; GetPlainText : option string }.

Record t := {
  (* [pdf.Open(filename)]: an error message, or the pages 1 to
      [NumPage()] *)
  pdf_Open : string -> string + list Page;
  (* [document.Open(filename)]: an error message, or the paragraphs,
      each the texts of its runs *)
  document_Open : string -> string + list (list string) }.

End Files.

(** ** The parser *)

Module Parser.

Definition skillKeywords : list string :=
  [ "python"; "java"; "javascript"; "typescript"; "go"; "golang"; "rust"; "c++"; "c#";
    "react"; "angular"; "vue"; "nodejs"; "express"; "django"; "flask"; "spring";
    "sql"; "mysql"; "postgresql"; "mongodb"; "redis"; "elasticsearch";
    "aws"; "azure"; "gcp"; "docker"; "kubernetes"; "terraform"; "ansible";
    "git"; "github"; "gitlab"; "jenkins"; "ci/cd"; "devops";
    "machine learning"; "deep learning"; "tensorflow"; "pytorch"; "scikit-learn";
    "html"; "css"; "bootstrap"; "tailwind"; "sass"; "less" ].

(** [extractSkills]. *)
Definition extractSkills (resume : Resume.t) (text : string) : Resume.t :=
  let textLower := ToLower text in
  let foundSkills :=
    List.filter (fun skill => Contains textLower (ToLower skill)) skillKeywords in
  Resume.set_Skills resume (Utils.RemoveDuplicates foundSkills).

(** [projectRegex.MatchString line] for the pattern
    [(?i)(project|projects?)[\s:]*]: the tail of the pattern matches the
    empty string and both alternatives begin with "project", so a line
    matches exactly when it contains "project" in some letter case. *)
Definition projectRegex_MatchString (line : string) : bool :=
  Contains (ToLower line) "project".

Definition newline : ascii := "010"%char.

(** The body of the inner loop at index [j]. *)
Definition projectAt (lines : list string) (j : nat) : list Project.t :=
  match lines !! j with
  | Some l =>
      let projectLine := TrimSpace l in
      if (10 <? String.length projectLine)%nat
      then [ {| Project.Name := projectLine;
                Project.Description := projectLine;
                Project.Technologies := [] |} ]
      else []
  | None => []
  end.

(** [for j := i + 1; j < len(lines) && j < i + 10; j++]. *)
Definition projectsAfter (lines : list string) (i : nat) : list Project.t :=
  flat_map (projectAt lines)
           (seq (i + 1) (Nat.min (length lines) (i + 10) - (i + 1))).

(** The outer loop, at index [i] with [rest] the lines from [i] on; it
    breaks at the first matching line. *)
Fixpoint extractProjects_loop (lines rest : list string) (i : nat)
  (projects : list Project.t) : list Project.t :=
  match rest with
  | [] => projects
  | line :: rest' =>
      if projectRegex_MatchString line
      then projects ++ projectsAfter lines i
      else extractProjects_loop lines rest' (S i) projects
  end.

(** The entry a line of trimmed text [projectLine] becomes. *)
Definition projectOf (projectLine : string) : Project.t :=
  {| Project.Name := projectLine;
     Project.Description := projectLine;
     Project.Technologies := [] |}.

(** The entries read off a window of [n] lines under the heading at
    index [i]: the trimmed lines longer than 10 bytes, in order. *)
Definition projectsInWindow (n : nat) (lines : list string) (i : nat) : list Project.t :=
  map projectOf
      (List.filter (fun projectLine => (10 <? String.length projectLine)%nat)
                   (map TrimSpace (take n (drop (i + 1) lines)))).

(** [extractProjects]. *)
Definition extractProjects (resume : Resume.t) (text : string) : Resume.t :=
  let lines := Split text newline in
  Resume.set_Projects resume
    (extractProjects_loop lines lines 0 (Resume.Projects resume)).

(** [extractJDKeywords] stores [p.nlp.ExtractKeywords(text, 20)] in the
    job description; [keywords] is a list the call may store. *)
Definition extractJDKeywords (text : string) (keywords : list string) : Prop :=
  NLP.ExtractKeywords text 20 keywords.

(** [extractJDSkills]: the dictionary and the test of [extractSkills]. *)
Definition extractJDSkills (jd : JobDescription.t) (text : string) : JobDescription.t :=
  let textLower := ToLower text in
  let requiredSkills :=
    List.filter (fun skill => Contains textLower (ToLower skill)) skillKeywords in
  JobDescription.set_RequiredSkills jd (Utils.RemoveDuplicates requiredSkills).

(** The formats [ParseResume] reads. *)
Inductive Format := PDF | DOCX.

(** The [switch ext] of [ParseResume]; [None] is its default branch, the
    error "unsupported file format". *)
Definition formatOf (filename : string) : option Format :=
  let ext := ToLower (Ext filename) in
  if String.eqb ext ".pdf" then Some PDF
  else if String.eqb ext ".docx" then Some DOCX
  else None.

(** *** The other extractors of a resume *)

Definition tab : ascii := "009"%char.

Definition emailPattern : string := "[a-zA-Z0-9._%+-]+@[a-zA-Z0-9.-]+\.[a-zA-Z]{2,}".
Definition phonePattern : string :=
  "(\+?1?[-.\s]?)?\(?([0-9]{3})\)?[-.\s]?([0-9]{3})[-.\s]?([0-9]{4})".
Definition namePattern : string := "^[A-Za-z\s.]{2,}$".
Definition degreePattern : string :=
  "(?i)(bachelor|master|phd|b\.?s\.?|m\.?s\.?|b\.?a\.?|m\.?a\.?|b\.?tech|m\.?tech|mba|diploma)".
Definition yearPattern : string := "(19|20)\d{2}".
Definition datePattern : string :=
  "(?i)(jan|feb|mar|apr|may|jun|jul|aug|sep|oct|nov|dec)[a-z]*\s+(19|20)\d{2}".
Definition certPattern : string := "(?i)(certification|certified|certificate)".
Definition spacesPattern : string := "\s{5,}".
Definition bordersPattern : string := "[│┌┐└┘├┤┬┴┼]".

(** The loop of [extractPersonalInfo] over the first lines, at index [i]:
    the name is the first trimmed line that passes the tests. *)
Fixpoint nameLoop (lib : Library.t) (rest : list string) (i : nat) (name : string) : string :=
  match rest with
  | [] => name
  | line :: rest' =>
      if (5 <? i)%nat then name
      else
        let cleanLine := TrimSpace line in
        if (2 <? String.length cleanLine)%nat && (String.length cleanLine <? 50)%nat
           && negb (Contains cleanLine "@")
           && negb (Library.MatchString lib phonePattern cleanLine)
           && Library.MatchString lib namePattern cleanLine
        then cleanLine
        else nameLoop lib rest' (S i) name
  end.

(** [extractPersonalInfo]. *)
Definition extractPersonalInfo (lib : Library.t) (resume : Resume.t) (text : string)
  : Resume.t :=
  let lines := Split text newline in
  let info := Resume.PersonalInfo resume in
  let email := Library.FindString lib emailPattern text in
  let info := if String.eqb email "" then info else PersonalInfo.set_Email info email in
  let phone := Library.FindString lib phonePattern text in
  let info := if String.eqb phone "" then info else PersonalInfo.set_Phone info phone in
  let info := PersonalInfo.set_Name info (nameLoop lib lines 0 (PersonalInfo.Name info)) in
  Resume.set_PersonalInfo resume info.

(** The inner loop of [extractEducation], over the lines [i], [i+1] and
    [i+2]: the institution is the first trimmed line longer than five
    bytes that names no degree. *)
Fixpoint institutionLoop (lib : Library.t) (window : list string) (institution : string)
  : string :=
  match window with
  | [] => institution
  | line :: window' =>
      let currentLine := TrimSpace line in
      if (5 <? String.length currentLine)%nat
         && negb (Library.MatchString lib degreePattern currentLine)
      then currentLine
      else institutionLoop lib window' institution
  end.

(** The body of the loop of [extractEducation] at a line that names a
    degree: the entries it appends. *)
Definition educationAt (lib : Library.t) (lines : list string) (i : nat) (line : string)
  : list Education.t :=
  let found := Library.FindString lib degreePattern line in
  let degree := if String.eqb found "" then "" else TrimSpace found in
  let institution := institutionLoop lib (take 3 (drop i lines)) "" in
  let foundYear := Library.FindString lib yearPattern line in
  let year :=
    if String.eqb foundYear "" then 0%Z
    else match Library.Atoi lib foundYear with
         | Some year => year
         | None => 0%Z
         end in
  if String.eqb degree "" then []
  else [ {| Education.Degree := degree; Education.Institution := institution;
            Education.Year := year; Education.GPA := "" |} ].

Fixpoint extractEducation_loop (lib : Library.t) (lines rest : list string) (i : nat)
  (education : list Education.t) : list Education.t :=
  match rest with
  | [] => education
  | line :: rest' =>
      if Library.MatchString lib degreePattern line
      then extractEducation_loop lib lines rest' (S i)
             (education ++ educationAt lib lines i line)
      else extractEducation_loop lib lines rest' (S i) education
  end.

(** [extractEducation]. *)
Definition extractEducation (lib : Library.t) (resume : Resume.t) (text : string)
  : Resume.t :=
  let lines := Split text newline in
  Resume.set_Education resume
    (extractEducation_loop lib lines lines 0 (Resume.Education resume)).

(** The layouts [parseDate] tries, in order. *)
Definition formats : list string :=
  [ "Jan 2006"; "January 2006"; "2006"; "Jan 02, 2006"; "January 02, 2006" ].

Fixpoint parseDate_loop (lib : Library.t) (formats : list string) (dateStr : string)
  : option Time.Time :=
  match formats with
  | [] => None
  | format :: formats' =>
      match Library.Parse lib format dateStr with
      | Some t => Some t
      | None => parseDate_loop lib formats' dateStr
      end
  end.

(** [parseDate]; [None] is the error "unable to parse date". *)
Definition parseDate (lib : Library.t) (dateStr : string) : option Time.Time :=
  parseDate_loop lib formats dateStr.

(** One turn of the loop of [extractExperience] over the surrounding
    lines: the first line that passes the tests is the company, the
    second the position. *)
Definition companyStep (lib : Library.t) (found : string * string) (line : string)
  : string * string :=
  let '(company, position) := found in
  let currentLine := TrimSpace line in
  if (2 <? String.length currentLine)%nat
     && negb (Library.MatchString lib datePattern currentLine)
  then
    if String.eqb company "" then (currentLine, position)
    else if String.eqb position "" then (company, currentLine)
    else (company, position)
  else (company, position).

(** The body of the loop of [extractExperience] at a line that holds a
    date: the entries it appends. *)
Definition experienceAt (lib : Library.t) (lines : list string) (i : nat) (line : string)
  : list Experience.t :=
  let dates := Library.FindAllString lib datePattern line in
  let startDate :=
    match dates with
    | first :: _ => default Time.zero (parseDate lib first)
    | [] => Time.zero
    end in
  let endDate :=
    match dates with
    | _ :: second :: _ => parseDate lib second
    | _ => None
    end in
  let startIdx := (i - 2)%nat in
  let endIdx := Nat.min (i + 3) (length lines) in
  let '(company, position) :=
    fold_left (companyStep lib) (take (endIdx - startIdx) (drop startIdx lines))
              (EmptyString, EmptyString) in
  if String.eqb company "" then []
  else [ {| Experience.Company := company; Experience.Position := position;
            Experience.StartDate := startDate; Experience.EndDate := endDate;
            Experience.Description := ""; Experience.IsCurrent := false |} ].

Fixpoint extractExperience_loop (lib : Library.t) (lines rest : list string) (i : nat)
  (experience : list Experience.t) : list Experience.t :=
  match rest with
  | [] => experience
  | line :: rest' =>
      if Library.MatchString lib datePattern line
      then extractExperience_loop lib lines rest' (S i)
             (experience ++ experienceAt lib lines i line)
      else extractExperience_loop lib lines rest' (S i) experience
  end.

(** [extractExperience]. *)
Definition extractExperience (lib : Library.t) (resume : Resume.t) (text : string)
  : Resume.t :=
  let lines := Split text newline in
  Resume.set_Experience resume
    (extractExperience_loop lib lines lines 0 (Resume.Experience resume)).

(** [extractCertifications]. *)
Definition extractCertifications (lib : Library.t) (resume : Resume.t) (text : string)
  : Resume.t :=
  let lines := Split text newline in
  Resume.set_Certifications resume
    (Resume.Certifications resume
     ++ flat_map (fun line =>
                    if Library.MatchString lib certPattern line
                    then let cleanLine := TrimSpace line in
                         if (5 <? String.length cleanLine)%nat then [cleanLine] else []
                    else [])
                 lines).

(** [analyzeFormat]. *)
Definition analyzeFormat (lib : Library.t) (resume : Resume.t) (text : string) : Resume.t :=
  let lines := Split text newline in
  Resume.set_FormatIssues resume
    ((if Contains text (String tab "") || Library.MatchString lib spacesPattern text
      then ["Document may contain tables or complex formatting"] else [])
     ++ (if Library.MatchString lib bordersPattern text
         then ["Document contains table borders or special formatting"] else [])
     ++ (if existsb (fun line => (10 <? length (Fields line))%nat) lines
         then ["Possible multi-column layout detected"] else [])).

(** *** [ParseResume] *)

(** What a call returns: a value, or an error with its message. *)
Inductive outcome (A : Type) : Type :=
| Returns (a : A)
| Fails (err : string).
Arguments Returns {A} a.
Arguments Fails {A} err.

(** [parsePDF]: the text of the pages that are not null and whose text
    can be read, a newline after each. *)
Definition parsePDF (files : Files.t) (filename : string) : outcome string :=
  match Files.pdf_Open files filename with
  | inl err => Fails err
  | inr pages =>
      Returns
        (fold_left (fun text page =>
                      if Files.IsNull page then text
                      else match Files.GetPlainText page with
                           | None => text
                           | Some pageText => text +:+ pageText +:+ String newline ""
                           end)
                   pages EmptyString)
  end.

(** [parseDOCX]: the texts of the runs, a newline after each paragraph. *)
Definition parseDOCX (files : Files.t) (filename : string) : outcome string :=
  match Files.document_Open files filename with
  | inl err => Fails err
  | inr paragraphs =>
      Returns
        (fold_left (fun text runs =>
                      fold_left (fun text run => text +:+ run) runs text
                      +:+ String newline "")
                   paragraphs EmptyString)
  end.

(** The extractors [ParseResume] runs on the text, in its order. *)
Definition parseResumeText (lib : Library.t) (text : string) : Resume.t :=
  let resume := Resume.fresh text in
  let resume := extractPersonalInfo lib resume text in
  let resume := extractEducation lib resume text in
  let resume := extractExperience lib resume text in
  let resume := extractSkills resume text in
  let resume := extractProjects resume text in
  let resume := extractCertifications lib resume text in
  analyzeFormat lib resume text.

(** [ParseResume]. *)
Definition ParseResume (lib : Library.t) (files : Files.t) (filename : string)
  : outcome Resume.t :=
  let ext := ToLower (Ext filename) in
  match formatOf filename with
  | None => Fails ("unsupported file format: " +:+ ext)
  | Some format =>
      match (match format with
             | PDF => parsePDF files filename
             | DOCX => parseDOCX files filename
             end) with
      | Fails err => Fails ("failed to extract text: " +:+ err)
      | Returns text => Returns (parseResumeText lib text)
      end
  end.

(** *** [ParseJobDescription] *)

Definition companyPattern : string := "(?i)(company|organization|corp|inc|ltd)".
Definition expPattern : string := "(\d+)\s*\+?\s*year".
Definition locationPattern : string :=
  "(?i)(location|based in|located in)[\s:]*([a-zA-Z\s,]+)".

(** [extractJDTitle]: the first trimmed line of more than 5 and fewer
    than 100 bytes. *)
Definition extractJDTitle (jd : JobDescription.t) (text : string) : JobDescription.t :=
  let lines := Split text newline in
  match List.find (fun cleanLine =>
                     (5 <? String.length cleanLine)%nat
                     && (String.length cleanLine <? 100)%nat)
                  (map TrimSpace lines) with
  | Some cleanLine => JobDescription.set_Title jd cleanLine
  | None => jd
  end.

(** [extractJDCompany]: the first line that matches, trimmed. *)
Definition extractJDCompany (lib : Library.t) (jd : JobDescription.t) (text : string)
  : JobDescription.t :=
  let lines := Split text newline in
  match List.find (Library.MatchString lib companyPattern) lines with
  | Some line => JobDescription.set_Company jd (TrimSpace line)
  | None => jd
  end.

(** [extractJDExperience]. *)
Definition extractJDExperience (lib : Library.t) (jd : JobDescription.t) (text : string)
  : JobDescription.t :=
  match Library.FindStringSubmatch lib expPattern (ToLower text) with
  | _ :: digits :: _ =>
      match Library.Atoi lib digits with
      | Some years => JobDescription.set_MinExperience jd years
      | None => jd
      end
  | _ => jd
  end.

(** [extractJDEducation]. *)
Definition extractJDEducation (lib : Library.t) (jd : JobDescription.t) (text : string)
  : JobDescription.t :=
  JobDescription.set_Education jd
    (Utils.RemoveDuplicates (Library.FindAllString lib degreePattern text)).

(** [extractJDLocation]. *)
Definition extractJDLocation (lib : Library.t) (jd : JobDescription.t) (text : string)
  : JobDescription.t :=
  match Library.FindStringSubmatch lib locationPattern text with
  | _ :: _ :: place :: _ => JobDescription.set_Location jd (TrimSpace place)
  | _ => jd
  end.

(** The job description [ParseJobDescription] returns when
    [ExtractKeywords] hands [keywords] to [extractJDKeywords]. *)
Definition parseJobDescriptionWith (lib : Library.t) (text : string)
  (keywords : list string) : JobDescription.t :=
  let jd := JobDescription.fresh text in
  let jd := extractJDTitle jd text in
  let jd := extractJDCompany lib jd text in
  let jd := extractJDSkills jd text in
  let jd := extractJDExperience lib jd text in
  let jd := extractJDEducation lib jd text in
  let jd := extractJDLocation lib jd text in
  JobDescription.set_Keywords jd keywords.

(** [ParseJobDescription text] may return [jd]; it never fails. *)
Definition ParseJobDescription (lib : Library.t) (text : string) (jd : JobDescription.t)
  : Prop :=
  ∃ keywords, extractJDKeywords text keywords ∧ jd = parseJobDescriptionWith lib text keywords.

End Parser.

(** ** The scorer *)

Module Scorer.

(** The alias table of [educationMatches], as the source lists it. *)
Definition equivalents : list (string * list string) :=
  [ ("bachelor", ["bs"; "ba"; "btech"; "bsc"; "bachelor's"]);
    ("master",   ["ms"; "ma"; "mtech"; "msc"; "master's"; "mba"]);
    ("phd",      ["doctorate"; "doctoral"; "ph.d"]) ].

(** One turn of the loop over [equivalents]: does [s] name the degree
    or one of its aliases? *)
Definition hasDegree (s : string) (degree : string) (aliases : list string) : bool :=
  fold_left (fun acc alias => acc || Contains s alias) aliases (Contains s degree).

(** The loop over the table, ranged in the order [ranged]: it returns
    [true] at the first class both sides fall in. *)
Definition classMatches (candidate required : string)
  (ranged : list (string * list string)) : bool :=
  existsb (fun '(degree, aliases) =>
             hasDegree candidate degree aliases && hasDegree required degree aliases)
          ranged.

(** [educationMatches].  The result of the loop is the same in whatever
    order the table is ranged ([classMatches_order] below). *)
Definition educationMatches (candidateEd requiredEd : string) : bool :=
  let candidate := ToLower candidateEd in
  let required := ToLower requiredEd in
  if Contains candidate required || Contains required candidate then true
  else classMatches candidate required equivalents.

(** *** Weights *)

Record ScoringWeights := {
  SkillWeight : Q;
  ExperienceWeight : Q;
  EducationWeight : Q;
  FormatWeight : Q }.

Definition DefaultWeights : ScoringWeights :=
  {| SkillWeight := 0.4; ExperienceWeight := 0.3;
     EducationWeight := 0.2; FormatWeight := 0.1 |}.

(** *** Scoring against a job description *)

Definition calculateSkillMatch (resume : Resume.t) (jobDesc : JobDescription.t)
  : SkillMatchResult.t :=
  let allJobSkills := JobDescription.RequiredSkills jobDesc
                      ++ JobDescription.PreferredSkills jobDesc in
  let allJobSkills := Utils.RemoveDuplicates allJobSkills in
  let '(percentage, matched, missing) :=
    NLP.CalculateSkillMatch (Resume.Skills resume) allJobSkills in
  {| SkillMatchResult.Percentage := percentage;
     SkillMatchResult.MatchedSkills := matched;
     SkillMatchResult.MissingSkills := missing;
     SkillMatchResult.TotalRequired := length allJobSkills;
     SkillMatchResult.TotalMatched := length matched |}.

Definition calculateExperienceMatch (now : Time.Time) (resume : Resume.t)
  (jobDesc : JobDescription.t) : ExperienceResult.t :=
  let candidateYears := Resume.CalculateExperienceYears now resume in
  let requiredYears := Float.of_int (JobDescription.MinExperience jobDesc) in
  let meetsRequirement := Float.leb requiredYears candidateYears in
  let score :=
    if Float.eqb requiredYears 0 then 1%Q
    else if Float.leb requiredYears candidateYears then 1%Q
    else
      let score := (candidateYears / requiredYears)%Q in
      if Float.ltb 1 score then 1%Q else score in
  {| ExperienceResult.Score := score;
     ExperienceResult.YearsRequired := JobDescription.MinExperience jobDesc;
     ExperienceResult.YearsCandidate := candidateYears;
     ExperienceResult.MeetsRequirement := meetsRequirement |}.

(** The degrees appended by the double loop of [calculateEducationMatch]:
    one copy of the resume degree per required degree it matches. *)
Definition matchedDegrees (education : list Education.t) (required : list string)
  : list string :=
  flat_map (fun resumeEd =>
              flat_map (fun requiredEd =>
                          if educationMatches (Education.Degree resumeEd) requiredEd
                          then [Education.Degree resumeEd] else [])
                       required)
           education.

Definition calculateEducationMatch (resume : Resume.t) (jobDesc : JobDescription.t)
  : EducationResult.t :=
  if (length (JobDescription.Education jobDesc) =? 0)%nat then
    {| EducationResult.Score := 1;
       EducationResult.MatchedDegrees := [];
       EducationResult.HasRequiredEducation := true |}
  else
    let matched := matchedDegrees (Resume.Education resume)
                                  (JobDescription.Education jobDesc) in
    (* [hasMatch] is set exactly when a degree is appended *)
    let hasMatch := (0 <? length matched)%nat in
    let score := if hasMatch then 1%Q
                 else if (0 <? length (Resume.Education resume))%nat then 0.5%Q
                 else 0%Q in
    {| EducationResult.Score := score;
       EducationResult.MatchedDegrees := matched;
       EducationResult.HasRequiredEducation := hasMatch |}.

Definition analyzeAdditionalFormatIssues (resume : Resume.t) : list string :=
  let text := Resume.RawText resume in
  let hasExperience := (0 <? length (Resume.Experience resume))%nat in
  let hasEducation := (0 <? length (Resume.Education resume))%nat in
  let hasSkills := (0 <? length (Resume.Skills resume))%nat in
  (if String.eqb (PersonalInfo.Email (Resume.PersonalInfo resume)) ""
   then ["Missing email address"] else [])
  ++ (if String.eqb (PersonalInfo.Phone (Resume.PersonalInfo resume)) ""
      then ["Missing phone number"] else [])
  ++ (if negb hasExperience && negb hasEducation
      then ["Missing key sections (experience or education)"] else [])
  ++ (if negb hasSkills then ["No skills section identified"] else [])
  ++ (if (1000 <? length (Split text " "%char))%nat
      then ["Resume may be too long (consider condensing)"] else []).

Definition calculateFormatScore (resume : Resume.t) : FormatResult.t :=
  let issues := Resume.FormatIssues resume ++ analyzeAdditionalFormatIssues resume in
  let score :=
    if (0 <? length issues)%nat then
      let score := (1 - Float.of_nat (length issues) * 0.2)%Q in
      if Float.ltb score 0.3 then 0.3%Q else score
    else 1%Q in
  {| FormatResult.Score := score;
     FormatResult.Issues := issues;
     FormatResult.IsATSFriendly := (length issues <=? 1)%nat |}.

(** The [switch] on a format issue in [generateSuggestions]. *)
Definition formatAdvice (issue : string) : list string :=
  if Contains issue "table" then
    ["Avoid using tables - use bullet points and clear headings instead."]
  else if Contains issue "column" then
    ["Use a single-column layout for better ATS readability."]
  else if Contains issue "email" then
    ["Add your email address to the contact section."]
  else if Contains issue "phone" then
    ["Include your phone number in the contact information."]
  else if Contains issue "skills" then
    ["Add a clear skills section with relevant technical and soft skills."]
  else if Contains issue "too long" then
    ["Consider condensing your resume to 1-2 pages for better readability."]
  else [].

Definition hasQuantifiedResults (rawText : string) : bool :=
  Contains (ToLower rawText) "%"
  || Contains (ToLower rawText) "increased"
  || Contains (ToLower rawText) "reduced"
  || Contains (ToLower rawText) "improved".

Definition quantifyAdvice : string :=
  "Add quantified achievements (e.g., 'Increased sales by 20%', 'Managed team of 5 people').".

Definition generateSuggestions (resume : Resume.t) (jobDesc : JobDescription.t)
  (skillMatch : SkillMatchResult.t) (experienceMatch : ExperienceResult.t)
  (educationMatch : EducationResult.t) (formatScore : FormatResult.t) : list string :=
  let missingSkills := SkillMatchResult.MissingSkills skillMatch in
  let percentage := SkillMatchResult.Percentage skillMatch in
  let overallScore :=
    ((percentage / 100) * 0.4 + ExperienceResult.Score experienceMatch * 0.3
     + EducationResult.Score educationMatch * 0.2
     + FormatResult.Score formatScore * 0.1)%Q in
  let overallScore := (overallScore * 100)%Q in
  (if Float.ltb percentage 50 then
     ["Your skill match is low. Consider adding more relevant skills from the job description."]
     ++ (if (0 <? length missingSkills)%nat
         then ["Key missing skills: " +:+ Join (take 5 missingSkills) ", "]
         else [])
   else if Float.ltb percentage 75 then
     let maxSkills := if (length missingSkills <? 3)%nat then length missingSkills else 3%nat in
     ["Good skill match! Consider adding: " +:+ Join (take maxSkills missingSkills) ", "]
   else [])
  ++ (if negb (ExperienceResult.MeetsRequirement experienceMatch)
         && Float.ltb (ExperienceResult.YearsCandidate experienceMatch)
                      (Float.of_int (ExperienceResult.YearsRequired experienceMatch))
      then ["You may not meet the minimum experience requirement. Highlight relevant internships, projects, or transferable skills."]
      else [])
  ++ (if negb (EducationResult.HasRequiredEducation educationMatch)
         && (0 <? length (JobDescription.Education jobDesc))%nat
      then ["Consider highlighting relevant coursework, certifications, or continuing education if you don't have the preferred degree."]
      else [])
  ++ flat_map formatAdvice (FormatResult.Issues formatScore)
  ++ (if Float.ltb overallScore 60
      then ["Consider tailoring your resume more closely to this specific job description."]
      else [])
  ++ (if negb (hasQuantifiedResults (Resume.RawText resume)) then [quantifyAdvice] else []).

(** [AnalyzeResume]; [now] is what [time.Now()] reads during the call. *)
Definition AnalyzeResume (now : Time.Time) (resume : Resume.t) (jobDesc : JobDescription.t)
  : AnalysisResult.t :=
  let weights := DefaultWeights in
  let skillMatch := calculateSkillMatch resume jobDesc in
  let experienceMatch := calculateExperienceMatch now resume jobDesc in
  let educationMatch := calculateEducationMatch resume jobDesc in
  let formatScore := calculateFormatScore resume in
  let overallScore :=
    ((SkillMatchResult.Percentage skillMatch / 100) * SkillWeight weights
     + ExperienceResult.Score experienceMatch * ExperienceWeight weights
     + EducationResult.Score educationMatch * EducationWeight weights
     + FormatResult.Score formatScore * FormatWeight weights)%Q in
  let overallScore := (overallScore * 100)%Q in
  let suggestions :=
    generateSuggestions resume jobDesc skillMatch experienceMatch educationMatch formatScore in
  {| AnalysisResult.Score := overallScore;
     AnalysisResult.SkillMatch := skillMatch;
     AnalysisResult.ExperienceMatch := experienceMatch;
     AnalysisResult.EducationMatch := educationMatch;
     AnalysisResult.FormatScore := formatScore;
     AnalysisResult.MissingKeywords := SkillMatchResult.MissingSkills skillMatch;
     AnalysisResult.MatchedKeywords := SkillMatchResult.MatchedSkills skillMatch;
     AnalysisResult.Suggestions := suggestions;
     AnalysisResult.ScoreBreakdown :=
       {| ScoreBreakdown.SkillWeight := SkillWeight weights;
          ScoreBreakdown.ExperienceWeight := ExperienceWeight weights;
          ScoreBreakdown.EducationWeight := EducationWeight weights;
          ScoreBreakdown.FormatWeight := FormatWeight weights;
          ScoreBreakdown.SkillScore := SkillMatchResult.Percentage skillMatch;
          ScoreBreakdown.ExperienceScore := (ExperienceResult.Score experienceMatch * 100)%Q;
          ScoreBreakdown.EducationScore := (EducationResult.Score educationMatch * 100)%Q;
          ScoreBreakdown.FormatScore := (FormatResult.Score formatScore * 100)%Q |} |}.

(** *** Scoring without a job description *)

Definition calculateSkillScoreStandalone (resume : Resume.t) : Q :=
  let skillCount := length (Resume.Skills resume) in
  if (skillCount =? 0)%nat then 0%Q
  else
    let baseScore := 0.3%Q in
    let skillBonus := (Float.of_nat skillCount / 20)%Q in
    let skillBonus := if Float.ltb 0.7 skillBonus then 0.7%Q else skillBonus in
    (baseScore + skillBonus)%Q.

Definition calculateExperienceScoreStandalone (now : Time.Time) (resume : Resume.t) : Q :=
  let years := Resume.CalculateExperienceYears now resume in
  if Float.eqb years 0 then 0%Q
  else if Float.ltb years 1 then 0.2%Q
  else if Float.ltb years 3 then 0.5%Q
  else if Float.ltb years 5 then 0.7%Q
  else if Float.ltb years 10 then 0.9%Q
  else 1%Q.

(** The tier of one degree in [calculateEducationScoreStandalone]. *)
Definition degreeScore (degree : string) : Q :=
  if Contains degree "phd" || Contains degree "doctorate" then 1%Q
  else if Contains degree "master" || Contains degree "mba" then 0.9%Q
  else if Contains degree "bachelor" || Contains degree "b.s" || Contains degree "b.a"
  then 0.8%Q
  else if Contains degree "associate" then 0.6%Q
  else if Contains degree "diploma" || Contains degree "certificate" then 0.5%Q
  else 0.4%Q.

Definition calculateEducationScoreStandalone (resume : Resume.t) : Q :=
  if (length (Resume.Education resume) =? 0)%nat then 0.3%Q
  else
    fold_left (fun maxScore edu =>
                 let score := degreeScore (ToLower (Education.Degree edu)) in
                 if Float.ltb maxScore score then score else maxScore)
              (Resume.Education resume) 0%Q.

(** The [switch] on a format issue in [generateStandaloneSuggestions]. *)
Definition formatAdviceStandalone (issue : string) : list string :=
  if Contains issue "table" then
    ["Avoid using tables - use bullet points and clear headings instead."]
  else if Contains issue "column" then
    ["Use a single-column layout for better ATS readability."]
  else if Contains issue "too long" then
    ["Consider condensing your resume to 1-2 pages for better readability."]
  else [].

Definition generateStandaloneSuggestions (now : Time.Time) (resume : Resume.t)
  (formatScore : FormatResult.t) : list string :=
  let years := Resume.CalculateExperienceYears now resume in
  (if (length (Resume.Skills resume) <? 5)%nat
   then ["Add more relevant technical and soft skills to your resume."] else [])
  ++ (if Float.ltb years 1
      then ["Include internships, projects, or volunteer work to demonstrate experience."]
      else [])
  ++ (if (length (Resume.Education resume) =? 0)%nat
      then ["Add your educational background including degrees, certifications, or relevant coursework."]
      else [])
  ++ (if String.eqb (PersonalInfo.Email (Resume.PersonalInfo resume)) ""
      then ["Include your email address in the contact section."] else [])
  ++ (if String.eqb (PersonalInfo.Phone (Resume.PersonalInfo resume)) ""
      then ["Add your phone number to make it easy for employers to contact you."] else [])
  ++ flat_map formatAdviceStandalone (FormatResult.Issues formatScore)
  ++ (if negb (hasQuantifiedResults (Resume.RawText resume)) then [quantifyAdvice] else [])
  ++ (if (length (Resume.Projects resume) =? 0)%nat
      then ["Include relevant projects to showcase your practical skills and experience."]
      else [])
  ++ (if (length (Resume.Certifications resume) =? 0)%nat
      then ["Add professional certifications or relevant training to strengthen your profile."]
      else []).

Definition extractDegreeNames (education : list Education.t) : list string :=
  flat_map (fun edu => if String.eqb (Education.Degree edu) "" then []
                       else [Education.Degree edu])
           education.

(** [AnalyzeResumeStandalone]; the clock is read three times during the
    call, once per [CalculateExperienceYears]: [now1] for the experience
    score, [now2] for the suggestions, [now3] for the years reported. *)
Definition AnalyzeResumeStandalone (now1 now2 now3 : Time.Time) (resume : Resume.t)
  : AnalysisResult.t :=
  let weights := DefaultWeights in
  let skillScore := calculateSkillScoreStandalone resume in
  let experienceScore := calculateExperienceScoreStandalone now1 resume in
  let educationScore := calculateEducationScoreStandalone resume in
  let formatScore := calculateFormatScore resume in
  let overallScore :=
    (skillScore * SkillWeight weights
     + experienceScore * ExperienceWeight weights
     + educationScore * EducationWeight weights
     + FormatResult.Score formatScore * FormatWeight weights)%Q in
  let overallScore := (overallScore * 100)%Q in
  let suggestions := generateStandaloneSuggestions now2 resume formatScore in
  {| AnalysisResult.Score := overallScore;
     AnalysisResult.SkillMatch :=
       {| SkillMatchResult.Percentage := (skillScore * 100)%Q;
          SkillMatchResult.MatchedSkills := Resume.Skills resume;
          SkillMatchResult.MissingSkills := [];
          SkillMatchResult.TotalRequired := length (Resume.Skills resume);
          SkillMatchResult.TotalMatched := length (Resume.Skills resume) |};
     AnalysisResult.ExperienceMatch :=
       {| ExperienceResult.Score := experienceScore;
          ExperienceResult.YearsRequired := 0;
          ExperienceResult.YearsCandidate := Resume.CalculateExperienceYears now3 resume;
          ExperienceResult.MeetsRequirement := true |};
     AnalysisResult.EducationMatch :=
       {| EducationResult.Score := educationScore;
          EducationResult.MatchedDegrees := extractDegreeNames (Resume.Education resume);
          EducationResult.HasRequiredEducation :=
            (0 <? length (Resume.Education resume))%nat |};
     AnalysisResult.FormatScore := formatScore;
     AnalysisResult.MissingKeywords := [];
     AnalysisResult.MatchedKeywords := Resume.Skills resume;
     AnalysisResult.Suggestions := suggestions;
     AnalysisResult.ScoreBreakdown :=
       {| ScoreBreakdown.SkillWeight := SkillWeight weights;
          ScoreBreakdown.ExperienceWeight := ExperienceWeight weights;
          ScoreBreakdown.EducationWeight := EducationWeight weights;
          ScoreBreakdown.FormatWeight := FormatWeight weights;
          ScoreBreakdown.SkillScore := (skillScore * 100)%Q;
          ScoreBreakdown.ExperienceScore := (experienceScore * 100)%Q;
          ScoreBreakdown.EducationScore := (educationScore * 100)%Q;
          ScoreBreakdown.FormatScore := (FormatResult.Score formatScore * 100)%Q |} |}.

End Scorer.


(** ** Concrete inputs *)

Module Inputs.

(** Midnight UTC of 1 January, in nanoseconds since the epoch. *)
Definition jan2019 : Time.Time := (1546300800 * 1000000000)%Z.
Definition jan2020 : Time.Time := (1577836800 * 1000000000)%Z.
Definition jan2021 : Time.Time := (1609459200 * 1000000000)%Z.
Definition jan2022 : Time.Time := (1640995200 * 1000000000)%Z.

Definition experience (startDate : Time.Time) (endDate : option Time.Time) : Experience.t :=
  {| Experience.Company := "Acme Corp";
     Experience.Position := "";
     Experience.StartDate := startDate;
     Experience.EndDate := endDate;
     Experience.Description := "";
     Experience.IsCurrent := false |}.

Definition resumeWith (experience : list Experience.t) : Resume.t :=
  {| Resume.PersonalInfo := PersonalInfo.zero;
     Resume.Education := [];
     Resume.Experience := experience;
     Resume.Skills := [];
     Resume.Projects := [];
     Resume.Certifications := [];
     Resume.RawText := "";
     Resume.FormatIssues := [] |}.

(** What [extractExperience] makes of the line "Jan 2020 - Jan 2019". *)
Definition resumeBackwards : Resume.t :=
  resumeWith [experience jan2020 (Some jan2019)].

(** What [extractExperience] makes of the line "Since Jan 2020". *)
Definition resumeCurrent : Resume.t :=
  resumeWith [experience jan2020 None].

(** A job description asking for [years] of experience and nothing else. *)
Definition jobAsking (years : Z) : JobDescription.t :=
  {| JobDescription.Title := "";
     JobDescription.Company := "";
     JobDescription.RequiredSkills := [];
     JobDescription.PreferredSkills := [];
     JobDescription.MinExperience := years;
     JobDescription.Education := [];
     JobDescription.Location := "";
     JobDescription.Description := "";
     JobDescription.Keywords := [];
     JobDescription.RawText := "" |}.

(** A resume text: a "Projects" heading and ten lines under it. *)
Definition projectLines : list string :=
  [ "Projects";
    "Inventory tracker";
    "Chess engine in C";
    "Weather dashboard";
    "Static site builder";
    "Ray tracer in Rust";
    "Budget planner app";
    "Markdown previewer";
    "Route optimiser v2";
    "Photo album server";
    "Tenth listed work" ].

Definition projectText : string := Join projectLines (String Parser.newline "").

(** A file name that is one dot followed by [n] bytes "a". *)
Fixpoint letters (n : nat) : string :=
  match n with
  | O => EmptyString
  | S k => String "a" (letters k)
  end.

Definition hiddenName (n : nat) : string := String "." (letters n).

(** A name of 265 bytes with a dot at byte 251 and the extension ".txt". *)
Definition dottedName : string := letters 250 +:+ "." +:+ letters 10 +:+ ".txt".

End Inputs.

(** * Properties *)

(** ** Strings *)

Lemma ToLower_empty_iff (s : string) : ToLower s = "" ↔ s = "".
Proof. destruct s; simpl; split; congruence. Qed.

Lemma ToLower_length (s : string) : String.length (ToLower s) = String.length s.
Proof. induction s as [|c s IH]; simpl; congruence. Qed.

(** ** [float64] comparisons *)

(** The decimal constants of the sources, as rationals. *)
Example threshold_literal : (0.8 == 4 # 5)%Q.
Proof. reflexivity. Qed.

Example hours_per_year : (24 * 365.25 == 8766)%Q.
Proof. reflexivity. Qed.

Lemma Float_ltb_lt (x y : Q) : Float.ltb x y = true ↔ (x < y)%Q.
Proof.
  unfold Float.ltb. rewrite negb_true_iff, <- not_true_iff_false, Qle_bool_iff.
  split; [apply Qnot_le_lt | apply Qlt_not_le].
Qed.

Lemma Float_ltb_ge (x y : Q) : Float.ltb x y = false ↔ (y <= x)%Q.
Proof.
  unfold Float.ltb. rewrite negb_false_iff. apply Qle_bool_iff.
Qed.

Lemma Float_leb_le (x y : Q) : Float.leb x y = true ↔ (x <= y)%Q.
Proof. apply Qle_bool_iff. Qed.

Lemma Float_leb_gt (x y : Q) : Float.leb x y = false ↔ (y < x)%Q.
Proof.
  unfold Float.leb. rewrite <- not_true_iff_false, Qle_bool_iff.
  split; [apply Qnot_le_lt | apply Qlt_not_le].
Qed.

Lemma Float_of_nat_ge_1 (n : nat) : (0 < n)%nat → (1 <= Float.of_nat n)%Q.
Proof.
  intros Hn. unfold Float.of_nat, Qle. simpl. lia.
Qed.

(** ** The edit-distance matrix *)

Lemma min_spec (a b c : nat) : NLP.min a b c = Nat.min a (Nat.min b c).
Proof.
  unfold NLP.min.
  destruct (Nat.ltb_spec a b), (Nat.ltb_spec a c), (Nat.ltb_spec b c); lia.
Qed.

Lemma max_spec (a b : nat) : NLP.max a b = Nat.max a b.
Proof. unfold NLP.max. destruct (Nat.ltb_spec b a); lia. Qed.

Lemma editDistance_nil_r (s : string) : NLP.editDistance s "" = String.length s.
Proof. destruct s; reflexivity. Qed.

Lemma editDistance_sym (s t : string) : NLP.editDistance s t = NLP.editDistance t s.
Proof.
  revert t. induction s as [|a s IHs]; intros t.
  - simpl. symmetry. apply editDistance_nil_r.
  - induction t as [|b t IHt].
    + reflexivity.
    + change (NLP.editDistance (String a s) (String b t))
        with (NLP.min (NLP.editDistance s (String b t) + 1)
                      (NLP.editDistance (String a s) t + 1)
                      (NLP.editDistance s t + (if Ascii.eqb a b then 0 else 1))).
      change (NLP.editDistance (String b t) (String a s))
        with (NLP.min (NLP.editDistance t (String a s) + 1)
                      (NLP.editDistance (String b t) s + 1)
                      (NLP.editDistance t s + (if Ascii.eqb b a then 0 else 1))).
      rewrite IHt, (IHs (String b t)), (IHs t), (Ascii.eqb_sym a b), !min_spec.
      lia.
Qed.

Lemma editDistance_refl (s : string) : NLP.editDistance s s = 0%nat.
Proof.
  induction s as [|a s IH]; [reflexivity|].
  change (NLP.editDistance (String a s) (String a s))
    with (NLP.min (NLP.editDistance s (String a s) + 1)
                  (NLP.editDistance (String a s) s + 1)
                  (NLP.editDistance s s + (if Ascii.eqb a a then 0 else 1))).
  rewrite IH, Ascii.eqb_refl, min_spec. lia.
Qed.

Lemma prefixes_cons (acc t : string) :
  NLP.prefixes acc t = acc :: tail (NLP.prefixes acc t).
Proof. destruct t; reflexivity. Qed.

Lemma prefixes_nth (t acc d : string) :
  nth (String.length t) (NLP.prefixes acc t) d = NLP.revOnto t acc.
Proof.
  revert acc. induction t as [|b t IH]; intros acc; simpl; [reflexivity|apply IH].
Qed.

Lemma prefixes_length (t acc : string) :
  length (NLP.prefixes acc t) = S (String.length t).
Proof. revert acc. induction t as [|b t IH]; intros acc; simpl; [reflexivity|]. by rewrite IH. Qed.

(** One pass of the inner loop turns the row of [P] into the row of
    [String a P]. *)
Lemma fill_row_spec (a : ascii) (P t acc : string) :
  NLP.fill_row a t (map (NLP.editDistance P) (NLP.prefixes acc t))
               (NLP.editDistance (String a P) acc)
  = map (NLP.editDistance (String a P)) (tail (NLP.prefixes acc t)).
Proof.
  revert acc. induction t as [|b t IH]; intros acc; [reflexivity|].
  cbn [NLP.prefixes tail map].
  specialize (IH (String b acc)).
  pose proof (prefixes_cons (String b acc) t) as Hcons.
  destruct (NLP.prefixes (String b acc) t) as [|hd tl]; [discriminate|].
  injection Hcons as ->. cbn [tail map] in IH |- *. cbn [NLP.fill_row].
  assert (Hv : NLP.min (NLP.editDistance P (String b acc) + 1)
                   (NLP.editDistance (String a P) acc + 1)
                   (NLP.editDistance P acc + (if Ascii.eqb a b then 0 else 1))
               = NLP.editDistance (String a P) (String b acc)) by reflexivity.
  rewrite Hv. f_equal. exact IH.
Qed.

Lemma fill_rows_spec (s2 s1 P : string) :
  nth (String.length s1)
      (map (NLP.editDistance P) (NLP.prefixes "" s2)
       :: NLP.fill_rows s1 s2 (S (String.length P))
                        (map (NLP.editDistance P) (NLP.prefixes "" s2)))
      []
  = map (NLP.editDistance (NLP.revOnto s1 P)) (NLP.prefixes "" s2).
Proof.
  revert P. induction s1 as [|c s1 IH]; intros P; [reflexivity|].
  cbn [String.length nth NLP.fill_rows NLP.revOnto].
  rewrite <- (IH (String c P)). cbn [String.length].
  assert (Hrow : S (String.length P)
                 :: NLP.fill_row c s2 (map (NLP.editDistance P) (NLP.prefixes "" s2))
                                 (S (String.length P))
                 = map (NLP.editDistance (String c P)) (NLP.prefixes "" s2)).
  { rewrite (prefixes_cons "" s2) at 2. cbn [map]. f_equal.
    apply (fill_row_spec c P s2 ""). }
  by rewrite Hrow.
Qed.

Lemma row0_spec (s2 : string) (acc : string) :
  seq (String.length acc) (S (String.length s2))
  = map (NLP.editDistance "") (NLP.prefixes acc s2).
Proof.
  revert acc. induction s2 as [|b s2 IH]; intros acc; [reflexivity|].
  cbn [String.length NLP.prefixes map]. rewrite <- (IH (String b acc)). reflexivity.
Qed.

(** The entry [matrix[len s1][len s2]] is the edit distance. *)
Lemma distance_editDistance (s1 s2 : string) :
  NLP.distance s1 s2 = NLP.editDistance (NLP.revOnto s1 "") (NLP.revOnto s2 "").
Proof.
  unfold NLP.distance, NLP.matrix.
  pose proof (row0_spec s2 "") as Hrow0. cbn [String.length] in Hrow0.
  pose proof (fill_rows_spec s2 s1 "") as Hrows. cbn [String.length] in Hrows.
  rewrite Hrow0, Hrows.
  rewrite <- (prefixes_nth s2 "" "").
  rewrite <- (map_nth (NLP.editDistance (NLP.revOnto s1 ""))).
  apply nth_indep. rewrite length_map, prefixes_length. lia.
Qed.

Lemma distance_sym (s1 s2 : string) : NLP.distance s1 s2 = NLP.distance s2 s1.
Proof. rewrite !distance_editDistance. apply editDistance_sym. Qed.


(** The similarity is symmetric, the early returns included. *)
Lemma calculateStringSimilarity_sym (a b : string) :
  NLP.calculateStringSimilarity a b = NLP.calculateStringSimilarity b a.
Proof.
  unfold NLP.calculateStringSimilarity.
  rewrite (distance_sym a b), !max_spec, (Nat.max_comm (String.length a)).
  destruct a, b; reflexivity.
Qed.


(** ** Ranging over a map *)

(** A loop that stops at the first element passing a test finds one in
    any order or in none. *)
Lemma existsb_Permutation {A} (f : A → bool) (l l' : list A) :
  l ≡ₚ l' → existsb f l = existsb f l'.
Proof.
  induction 1 as [|x l l' _ IH|x y l|l l' l'' _ IH1 _ IH2]; cbn.
  - reflexivity.
  - by rewrite IH.
  - by destruct (f x), (f y).
  - by rewrite IH1.
Qed.

Lemma fuzzyFoundIn_order (resumeSet : gset string) (ranged : list string)
    (jobSkillLower : string) :
  ranged ≡ₚ elements resumeSet →
  NLP.fuzzyFoundIn ranged jobSkillLower = NLP.fuzzyFound resumeSet jobSkillLower.
Proof. intros Hperm. by apply existsb_Permutation. Qed.

Lemma classMatches_order (candidate required : string)
    (ranged : list (string * list string)) :
  ranged ≡ₚ Scorer.equivalents →
  Scorer.classMatches candidate required ranged
  = Scorer.classMatches candidate required Scorer.equivalents.
Proof. intros Hperm. by apply existsb_Permutation. Qed.

(** ** Education matching *)

(** C1 (the code departs from the claim): [educationMatches] on the candidate
    degree "B.S." and the required degree "bachelor" returns [false].
    Lower-cased, "b.s." holds neither "bachelor" nor any alias of the
    bachelor class ("bs", "ba", "btech", "bsc", "bachelor's"), so the
    alias table does not bring the two together. *)
Theorem C1_educationMatches_BS_bachelor :
  Scorer.educationMatches "B.S." "bachelor" = false.
Proof. reflexivity. Qed.

(** The undotted spelling does match through the alias table, and the
    standalone scorer ranks the dotted spelling as a bachelor degree. *)
Example educationMatches_BS_undotted : Scorer.educationMatches "BS" "bachelor" = true.
Proof. reflexivity. Qed.

Example degreeScore_BS_dotted : Scorer.degreeScore (ToLower "B.S.") = 0.8%Q.
Proof. reflexivity. Qed.

(** ** String similarity *)




(** ** Skill matching *)

(** C5: [CalculateSkillMatch] on resume skills python, java and job skills
    python, go returns percentage 50, matched exactly [python] and
    missing exactly [go]; the similarity of "go" to either resume skill
    is at most 0.8. *)
Theorem C5_skill_match_python_go :
  ∃ percentage,
    NLP.CalculateSkillMatch ["python"; "java"] ["python"; "go"]
      = (percentage, ["python"], ["go"])
    ∧ (percentage == 50)%Q
    ∧ (NLP.calculateStringSimilarity "python" "go" <= 0.8)%Q
    ∧ (NLP.calculateStringSimilarity "java" "go" <= 0.8)%Q.
Proof.
  eexists. split; [vm_compute; reflexivity|].
  split; [reflexivity|]. split; vm_compute; discriminate.
Qed.

Lemma fuzzyFound_empty_resume_skill (resumeSet : gset string) (jobSkillLower : string) :
  "" ∈ resumeSet → jobSkillLower ≠ "" → NLP.fuzzyFound resumeSet jobSkillLower = true.
Proof.
  intros Hin Hne. unfold NLP.fuzzyFound, NLP.fuzzyFoundIn. apply existsb_exists.
  exists "". split; [apply list_elem_of_In, elem_of_elements, Hin|].
  apply Float_ltb_lt. unfold NLP.calculateStringSimilarity. cbn [String.length Nat.eqb].
  destruct jobSkillLower as [|c t]; [done|].
  eapply Qlt_le_trans; [|apply Float_of_nat_ge_1; simpl; lia].
  reflexivity.
Qed.

Lemma matchLoop_all_matched (resumeSet : gset string) (jobSkills matched missing : list string) :
  "" ∈ resumeSet → Forall (λ jobSkill, jobSkill ≠ "") jobSkills →
  NLP.matchLoop resumeSet jobSkills matched missing = (matched ++ jobSkills, missing).
Proof.
  intros Hin Hall. revert matched.
  induction Hall as [|jobSkill rest Hne _ IH]; intros matched; simpl.
  - by rewrite app_nil_r.
  - rewrite fuzzyFound_empty_resume_skill; [|done|by rewrite ToLower_empty_iff].
    rewrite IH, <- app_assoc. by case_bool_decide.
Qed.

(** C10 (amended): if the resume skills contain the empty string and no
    job skill is empty, every job skill is reported as matched and none
    as missing; the percentage is 100 when there is at least one job
    skill, and 0 for the empty list of job skills. *)
Theorem C10_empty_resume_skill_matches_all (resumeSkills jobSkills : list string) :
  "" ∈ resumeSkills →
  Forall (λ jobSkill, jobSkill ≠ "") jobSkills →
  ∃ percentage,
    NLP.CalculateSkillMatch resumeSkills jobSkills = (percentage, jobSkills, [])
    ∧ (jobSkills ≠ [] → (percentage == 100)%Q)
    ∧ (jobSkills = [] → (percentage == 0)%Q).
Proof.
  intros Hin Hall. unfold NLP.CalculateSkillMatch.
  rewrite matchLoop_all_matched; [|..|done].
  2:{ apply elem_of_list_to_set, list_elem_of_fmap. by exists "". }
  cbn [app]. eexists. split; [reflexivity|]. split.
  - intros Hne. destruct jobSkills as [|j rest]; [done|].
    cbn [length Nat.ltb Nat.leb]. unfold Float.of_nat.
    set (n := Z.of_nat (S (length rest))). assert (0 < n)%Z by lia.
    field. unfold Qeq. simpl. lia.
  - by intros ->.
Qed.

Lemma C10_witness :
  ∃ percentage,
    NLP.CalculateSkillMatch [""; "java"] ["go"; "rust"] = (percentage, ["go"; "rust"], [])
    ∧ (["go"; "rust"] ≠ [] → (percentage == 100)%Q)
    ∧ (["go"; "rust"] = [] → (percentage == 0)%Q).
Proof.
  apply (C10_empty_resume_skill_matches_all [""; "java"] ["go"; "rust"]).
  - apply list_elem_of_here.
  - repeat constructor; discriminate.
Defined.

(** C10, as stated, fails on the empty list of job skills: the guard
    [len(jobSkills) > 0] leaves the percentage at 0. *)
Lemma C10_counterexample :
  "" ∈ [""] ∧ Forall (λ jobSkill : string, jobSkill ≠ "") []
  ∧ ∃ percentage,
      NLP.CalculateSkillMatch [""] [] = (percentage, [], [])
      ∧ ¬ (percentage == 100)%Q.
Proof.
  split; [apply list_elem_of_here|]. split; [constructor|].
  eexists. split; [vm_compute; reflexivity | discriminate].
Qed.

(** ** Experience *)

(** C3 (the code departs from the claim): for the resume whose one
    experience entry runs from January 2020 back to January 2019 and a
    job asking for 2 years, the experience score is negative, whatever
    the clock reads. *)
Theorem C3_experience_score_negative (now : Time.Time) :
  (ExperienceResult.Score
     (Scorer.calculateExperienceMatch now Inputs.resumeBackwards (Inputs.jobAsking 2)) < 0)%Q
  ∧ (ExperienceResult.Score
       (AnalysisResult.ExperienceMatch
          (Scorer.AnalyzeResume now Inputs.resumeBackwards (Inputs.jobAsking 2))) < 0)%Q.
Proof. split; vm_compute; reflexivity. Qed.

(** ** Skills extracted from a resume *)

Lemma RemoveDuplicates_loop_spec (slice : list string) (keys : gset string) :
  NoDup (Utils.RemoveDuplicates_loop keys slice)
  ∧ (∀ x, x ∈ Utils.RemoveDuplicates_loop keys slice →
          (x ∉ keys) ∧ x ≠ "" ∧ ∃ item, item ∈ slice ∧ x = TrimSpace item).
Proof.
  revert keys. induction slice as [|item rest IH]; intros keys; simpl.
  - split; [constructor|]. intros x Hx. by apply elem_of_nil in Hx.
  - destruct (String.eqb_spec (TrimSpace item) "") as [Hempty|Hempty]; simpl.
    { destruct (IH keys) as [Hnd Hin]. split; [done|].
      intros x Hx. destruct (Hin x Hx) as (? & ? & y & ? & ?).
      split_and!; [done..|]. exists y. split; [by apply list_elem_of_further|done]. }
    case_bool_decide as Hseen; simpl.
    { destruct (IH keys) as [Hnd Hin]. split; [done|].
      intros x Hx. destruct (Hin x Hx) as (? & ? & y & ? & ?).
      split_and!; [done..|]. exists y. split; [by apply list_elem_of_further|done]. }
    destruct (IH ({[TrimSpace item]} ∪ keys)) as [Hnd Hin]. split.
    + apply NoDup_cons. split; [|done].
      intros Hx. apply Hin in Hx as [Hx _].
      apply Hx, elem_of_union_l, elem_of_singleton. reflexivity.
    + intros x [->|Hx]%elem_of_cons.
      * split_and!; [done..|]. exists item. split; [apply list_elem_of_here|done].
      * destruct (Hin x Hx) as (Hkeys & Hne & y & Hy & Heq).
        split_and!; [|done|].
        -- intros Hk. apply Hkeys, elem_of_union_r, Hk.
        -- exists y. split; [by apply list_elem_of_further|done].
Qed.

Lemma RemoveDuplicates_NoDup (slice : list string) : NoDup (Utils.RemoveDuplicates slice).
Proof. apply RemoveDuplicates_loop_spec. Qed.

Lemma RemoveDuplicates_elem_of (slice : list string) (x : string) :
  x ∈ Utils.RemoveDuplicates slice → ∃ item, item ∈ slice ∧ x = TrimSpace item.
Proof. intros Hx. by apply RemoveDuplicates_loop_spec in Hx as (_ & _ & ?). Qed.

(** Every dictionary term is trimmed and lower-case already. *)
Lemma skillKeywords_canonical (skill : string) :
  skill ∈ Parser.skillKeywords → TrimSpace skill = skill ∧ ToLower skill = skill.
Proof.
  assert (Hall : forallb (λ k, String.eqb (TrimSpace k) k && String.eqb (ToLower k) k)
                         Parser.skillKeywords = true) by (vm_compute; reflexivity).
  intros Hin. rewrite forallb_forall in Hall.
  specialize (Hall skill (proj1 (list_elem_of_In _ _) Hin)).
  apply andb_true_iff in Hall as [H1 H2].
  by apply String.eqb_eq in H1, H2.
Qed.

Lemma extractSkills_elem_of (resume : Resume.t) (text skill : string) :
  skill ∈ Resume.Skills (Parser.extractSkills resume text) →
  skill ∈ Parser.skillKeywords ∧ ToLower skill = skill
  ∧ Contains (ToLower text) skill = true.
Proof.
  cbn [Parser.extractSkills Resume.set_Skills Resume.Skills].
  intros (item & Hitem & ->)%RemoveDuplicates_elem_of.
  apply list_elem_of_In, filter_In in Hitem as [Hitem Hcontains].
  apply list_elem_of_In in Hitem.
  destruct (skillKeywords_canonical item Hitem) as [Htrim Hlower].
  rewrite Htrim. rewrite Hlower in Hcontains. done.
Qed.

(** C9: for every text, and whatever record the earlier extractors left,
    the [Skills] that [extractSkills] stores (the ones [ParseResume]
    returns, no later extractor writing that field) hold no two entries
    that are equal up to letter case; every entry is a dictionary term,
    lower-case already. *)
Theorem C9_skills_no_case_insensitive_duplicates (resume : Resume.t) (text : string) :
  let skills := Resume.Skills (Parser.extractSkills resume text) in
  NoDup (map ToLower skills)
  ∧ (∀ i j a b, skills !! i = Some a → skills !! j = Some b →
                ToLower a = ToLower b → i = j)
  ∧ (∀ skill, skill ∈ skills → skill ∈ Parser.skillKeywords ∧ ToLower skill = skill).
Proof.
  intros skills.
  assert (Hnd : NoDup skills) by apply RemoveDuplicates_NoDup.
  assert (Hlow : ∀ skill, skill ∈ skills → skill ∈ Parser.skillKeywords ∧ ToLower skill = skill).
  { intros skill Hin. apply extractSkills_elem_of in Hin. tauto. }
  assert (Hmap : map ToLower skills = skills).
  { rewrite <- (map_id skills) at 2. apply map_ext_in.
    intros a Ha. apply Hlow. by apply list_elem_of_In. }
  split_and!; [by rewrite Hmap| |done].
  intros i j a b Ha Hb Hab.
  rewrite (proj2 (Hlow a (list_elem_of_lookup_2 _ _ _ Ha))) in Hab.
  rewrite (proj2 (Hlow b (list_elem_of_lookup_2 _ _ _ Hb))) in Hab.
  subst b. eapply NoDup_lookup; eauto.
Qed.

(** The same holds of whatever selection of dictionary terms is handed
    to [RemoveDuplicates]: it does not rest on which terms the
    containment test finds. *)
Lemma RemoveDuplicates_of_keywords (foundSkills : list string) :
  (∀ skill, skill ∈ foundSkills → skill ∈ Parser.skillKeywords) →
  NoDup (map ToLower (Utils.RemoveDuplicates foundSkills)).
Proof.
  intros Hsub.
  assert (Hmap : map ToLower (Utils.RemoveDuplicates foundSkills)
                 = Utils.RemoveDuplicates foundSkills).
  { rewrite <- (map_id (Utils.RemoveDuplicates foundSkills)) at 2. apply map_ext_in.
    intros a (item & Hitem & ->)%list_elem_of_In%RemoveDuplicates_elem_of.
    destruct (skillKeywords_canonical item (Hsub item Hitem)) as [-> Hlower]. exact Hlower. }
  rewrite Hmap. apply RemoveDuplicates_NoDup.
Qed.

(** The later extractor modelled here leaves [Skills] alone. *)
Lemma extractProjects_Skills (resume : Resume.t) (text : string) :
  Resume.Skills (Parser.extractProjects resume text) = Resume.Skills resume.
Proof. reflexivity. Qed.

(** ** Projects extracted from a resume *)

Lemma projectAt_seq (lines : list string) (n a : nat) :
  flat_map (Parser.projectAt lines) (seq a n)
  = flat_map (λ l, if (10 <? String.length (TrimSpace l))%nat
                   then [Parser.projectOf (TrimSpace l)] else [])
             (take n (drop a lines)).
Proof.
  revert a. induction n as [|n IH]; intros a; [reflexivity|].
  cbn [seq flat_map]. rewrite IH. unfold Parser.projectAt at 1.
  destruct (lines !! a) as [l|] eqn:Hl.
  - by rewrite (drop_S _ _ _ Hl).
  - apply lookup_ge_None in Hl.
    rewrite !drop_ge by lia. by rewrite !take_nil.
Qed.

Lemma projectsAfter_window (lines : list string) (i : nat) :
  Parser.projectsAfter lines i = Parser.projectsInWindow 9 lines i.
Proof.
  unfold Parser.projectsAfter, Parser.projectsInWindow. rewrite projectAt_seq.
  assert (Htake : take (Nat.min (length lines) (i + 10) - (i + 1)) (drop (i + 1) lines)
                  = take 9 (drop (i + 1) lines)).
  { destruct (decide (i + 10 ≤ length lines)) as [Hle|Hgt].
    - f_equal. lia.
    - rewrite !take_ge; [done|rewrite length_drop; lia..]. }
  rewrite Htake. clear Htake.
  induction (take 9 (drop (i + 1) lines)) as [|l ls IH]; [reflexivity|].
  cbn [flat_map map List.filter]. rewrite IH.
  by destruct (10 <? String.length (TrimSpace l))%nat.
Qed.

Lemma extractProjects_loop_find (lines rest : list string) (i0 : nat)
    (projects : list Project.t) :
  Parser.extractProjects_loop lines rest i0 projects
  = match list_find (λ line, Parser.projectRegex_MatchString line = true) rest with
    | Some (k, _) => projects ++ Parser.projectsAfter lines (i0 + k)
    | None => projects
    end.
Proof.
  revert i0. induction rest as [|line rest IH]; intros i0; [reflexivity|].
  cbn [Parser.extractProjects_loop list_find].
  destruct (Parser.projectRegex_MatchString line) eqn:Hm.
  - rewrite decide_True by done. by rewrite Nat.add_0_r.
  - rewrite decide_False by done. rewrite IH.
    destruct (list_find _ rest) as [[k x]|]; cbn; [|done].
    by rewrite Nat.add_succ_r.
Qed.

Lemma projectsInWindow_length (n : nat) (lines : list string) (i : nat) :
  length (Parser.projectsInWindow n lines i) ≤ n.
Proof.
  unfold Parser.projectsInWindow. rewrite length_map.
  etrans; [apply List.filter_length_le|]. rewrite length_map, length_take. lia.
Qed.

Lemma projectsInWindow_elem_of (n : nat) (lines : list string) (i : nat) (p : Project.t) :
  p ∈ Parser.projectsInWindow n lines i ↔
  ∃ k l, 1 ≤ k ≤ n ∧ lines !! (i + k) = Some l
         ∧ 10 < String.length (TrimSpace l) ∧ p = Parser.projectOf (TrimSpace l).
Proof.
  unfold Parser.projectsInWindow. rewrite list_elem_of_fmap. split.
  - intros (t & -> & Ht). apply list_elem_of_In, filter_In in Ht as [Ht Hlen].
    apply list_elem_of_In, list_elem_of_fmap in Ht as (l & -> & Hl).
    apply list_elem_of_lookup in Hl as [j Hj].
    apply lookup_take_Some in Hj as [Hj Hlt]. rewrite lookup_drop in Hj.
    exists (S j), l. split_and!; [lia..| | |done].
    + by replace (i + S j) with (i + 1 + j) by lia.
    + by apply Nat.ltb_lt in Hlen.
  - intros (k & l & [Hk1 Hk2] & Hl & Hlen & ->). exists (TrimSpace l). split; [done|].
    apply list_elem_of_In, filter_In. split; [|by apply Nat.ltb_lt].
    apply list_elem_of_In, list_elem_of_fmap. exists l. split; [done|].
    apply list_elem_of_lookup. exists (k - 1).
    rewrite lookup_take_lt by lia. rewrite lookup_drop.
    by replace (i + 1 + (k - 1)) with (i + k) by lia.
Qed.

(** C6 (amended): with [i] the index of the first line that matches the
    project pattern, the entries [extractProjects] appends are read off
    the next 9 lines, [i+1] to [i+9]: each of those lines whose trimmed
    length exceeds 10 becomes an entry, with the trimmed line both as
    Name and as Description, in line order; no line past the ninth is
    collected.  When no line matches, nothing is appended. *)
Theorem C6_projects_from_next_nine_lines (resume : Resume.t) (text : string) :
  let lines := Split text Parser.newline in
  let projects := Resume.Projects (Parser.extractProjects resume text) in
  match list_find (λ line, Parser.projectRegex_MatchString line = true) lines with
  | Some (i, _) =>
      ∃ added,
        projects = Resume.Projects resume ++ added
        ∧ added = Parser.projectsInWindow 9 lines i
        ∧ length added ≤ 9
        ∧ (∀ k l, 1 ≤ k ≤ 9 → lines !! (i + k) = Some l →
                  10 < String.length (TrimSpace l) →
                  Parser.projectOf (TrimSpace l) ∈ added)
        ∧ (∀ p, p ∈ added →
                Project.Name p = Project.Description p
                ∧ ∃ k l, 1 ≤ k ≤ 9 ∧ lines !! (i + k) = Some l
                         ∧ 10 < String.length (TrimSpace l)
                         ∧ Project.Name p = TrimSpace l)
  | None => projects = Resume.Projects resume
  end.
Proof.
  intros lines projects. subst projects.
  cbn [Parser.extractProjects Resume.set_Projects Resume.Projects]. fold lines.
  rewrite extractProjects_loop_find.
  destruct (list_find _ lines) as [[i line]|]; [|done].
  cbn [Nat.add]. rewrite projectsAfter_window.
  eexists. split_and!; [reflexivity|reflexivity|apply projectsInWindow_length| |].
  - intros k l Hk Hl Hlen. apply projectsInWindow_elem_of. by exists k, l.
  - intros p (k & l & Hk & Hl & Hlen & ->)%projectsInWindow_elem_of.
    split; [reflexivity|]. by exists k, l.
Qed.

(** C6, as stated, fails on a "Projects" heading followed by ten long
    lines: the tenth following line is not collected, and a window of
    ten lines would give ten entries where the code gives nine. *)
Lemma C6_counterexample :
  let lines := Split Inputs.projectText Parser.newline in
  let projects :=
    Resume.Projects (Parser.extractProjects (Resume.fresh Inputs.projectText)
                                            Inputs.projectText) in
  (list_find (λ line, Parser.projectRegex_MatchString line = true) lines
     = Some (0, "Projects"))
  ∧ lines !! 10 = Some "Tenth listed work"
  ∧ 10 < String.length (TrimSpace "Tenth listed work")
  ∧ (Parser.projectOf "Tenth listed work" ∉ projects)
  ∧ length projects = 9
  ∧ projects ≠ Parser.projectsInWindow 10 lines 0.
Proof.
  cbv zeta. split_and!.
  - vm_compute. reflexivity.
  - vm_compute. reflexivity.
  - vm_compute. lia.
  - intros Hin. apply list_elem_of_In in Hin. vm_compute in Hin.
    repeat (destruct Hin as [Hin|Hin]; [discriminate Hin|]). exact Hin.
  - vm_compute. reflexivity.
  - vm_compute. discriminate.
Qed.

(** ** Term frequencies *)

Lemma countTerms_lookup (tokens : list string) (m : gmap string nat) (t : string) :
  NLP.countTerms tokens m !! t
  = match count_occ String.string_dec tokens t with
    | O => m !! t
    | S n => Some (S n + default 0 (m !! t))
    end.
Proof.
  unfold NLP.countTerms. revert m.
  induction tokens as [|x rest IH]; intros m; [reflexivity|].
  cbn [fold_left]. rewrite IH. cbn [count_occ].
  destruct (String.string_dec x t) as [->|Hne].
  - rewrite lookup_insert_eq. cbn [default].
    destruct (count_occ String.string_dec rest t); f_equal; unfold Datatypes.id; lia.
  - by rewrite lookup_insert_ne.
Qed.

Lemma termFreq_lookup (tokens : list string) (t : string) (n : nat) :
  NLP.termFreq tokens !! t = Some n ↔ n = count_occ String.string_dec tokens t ∧ 0 < n.
Proof.
  unfold NLP.termFreq. rewrite countTerms_lookup, lookup_empty. cbn [default].
  destruct (count_occ String.string_dec tokens t); split.
  - discriminate.
  - lia.
  - intros [= <-]. lia.
  - intros [-> _]. f_equal. lia.
Qed.

Lemma termFreq_lookup_elem_of (tokens : list string) (t : string) :
  t ∈ tokens → NLP.termFreq tokens !! t = Some (count_occ String.string_dec tokens t).
Proof.
  intros Hin. apply termFreq_lookup. split; [done|].
  apply list_elem_of_In, (count_occ_In String.string_dec) in Hin. lia.
Qed.

Lemma termFreq_dom (tokens : list string) :
  dom (NLP.termFreq tokens) = list_to_set tokens.
Proof.
  apply set_eq. intros t. rewrite elem_of_dom, elem_of_list_to_set. split.
  - intros [n [-> Hn]%termFreq_lookup].
    apply list_elem_of_In, (count_occ_In String.string_dec). lia.
  - intros Hin. eexists. by apply termFreq_lookup_elem_of.
Qed.

(** ** Keyword extraction *)

Lemma less_notAfter (a b : string * nat) : NLP.less b a = false ↔ NLP.notAfter a b.
Proof. unfold NLP.less, NLP.notAfter. rewrite Nat.ltb_ge. done. Qed.

Lemma StronglySorted_less_notAfter (l : list (string * nat)) :
  StronglySorted (λ a b, NLP.less b a = false) l ↔ StronglySorted NLP.notAfter l.
Proof.
  induction l as [|x l IH]; [split; constructor|].
  rewrite !StronglySorted_cons, IH.
  apply and_iff_compat_r, Forall_proper; [|done].
  intros b. apply less_notAfter.
Qed.

#[local] Instance notAfter_trans : Transitive NLP.notAfter.
Proof. intros a b c. unfold NLP.notAfter. lia. Qed.

#[local] Instance notAfter_total : Total NLP.notAfter.
Proof. intros a b. unfold NLP.notAfter. lia. Qed.

Lemma StronglySorted_lookup_lt {A} (R : relation A) (l : list A) (i j : nat) (a b : A) :
  StronglySorted R l → i < j → l !! i = Some a → l !! j = Some b → R a b.
Proof.
  intros Hs Hij Ha Hb. rewrite <- (take_drop j l) in Hs.
  eapply StronglySorted_app_1_elem_of; [exact Hs| |].
  - apply elem_of_take. eauto.
  - apply list_elem_of_lookup. exists 0. by rewrite lookup_drop, Nat.add_0_r.
Qed.

(** What any enumeration of the frequency map, sorted by any sort that
    meets the contract of [sort.Slice], looks like. *)
Lemma sorted_scores_spec (tokens : list string) (scores sorted : list (string * nat)) :
  NLP.ranges (NLP.termFreq tokens) scores → NLP.sort_Slice scores sorted →
  NoDup (sorted.*1)
  ∧ length sorted = size (list_to_set tokens : gset string)
  ∧ StronglySorted NLP.notAfter sorted
  ∧ ∀ t n, (t, n) ∈ sorted ↔ t ∈ tokens ∧ n = count_occ String.string_dec tokens t.
Proof.
  unfold NLP.ranges, NLP.sort_Slice. intros Hr [Hp Hs].
  assert (Hperm : sorted ≡ₚ map_to_list (NLP.termFreq tokens)) by (by rewrite Hp).
  split_and!.
  - rewrite Hperm. apply NoDup_fst_map_to_list.
  - rewrite Hperm, length_map_to_list, <- termFreq_dom. symmetry. apply size_dom.
  - by apply StronglySorted_less_notAfter.
  - intros t n. rewrite Hperm, elem_of_map_to_list, termFreq_lookup. split.
    + intros [-> Hn]. split; [|done].
      apply list_elem_of_In, (count_occ_In String.string_dec). lia.
    + intros [Hin ->]. split; [done|].
      apply list_elem_of_In, (count_occ_In String.string_dec) in Hin. lia.
Qed.

(** *** The first-encountered order is one of the outcomes *)

Lemma firstSeen_spec (tokens : list string) (seen : gset string) :
  NoDup (NLP.firstSeen seen tokens)
  ∧ (∀ t, t ∈ NLP.firstSeen seen tokens ↔ (t ∈ tokens ∧ t ∉ seen)).
Proof.
  revert seen. induction tokens as [|x rest IH]; intros seen; cbn [NLP.firstSeen].
  - split; [constructor|]. intros t. rewrite !elem_of_nil. tauto.
  - case_bool_decide as Hx.
    + destruct (IH seen) as [Hnd Hin]. split; [done|].
      intros t. rewrite Hin, elem_of_cons. split; [tauto|].
      intros [[->|Ht] Hseen]; [contradiction|tauto].
    + destruct (IH ({[x]} ∪ seen)) as [Hnd Hin]. split.
      * apply NoDup_cons. split; [|done]. rewrite Hin. intros [_ Hnew].
        apply Hnew, elem_of_union_l, elem_of_singleton. reflexivity.
      * intros t. rewrite !elem_of_cons, Hin, not_elem_of_union, elem_of_singleton.
        destruct (decide (t = x)) as [->|Hne]; tauto.
Qed.

Lemma insertStable_Permutation (x : string * nat) (l : list (string * nat)) :
  NLP.insertStable x l ≡ₚ x :: l.
Proof.
  induction l as [|y l IH]; cbn [NLP.insertStable]; [done|].
  destruct (x.2 <? y.2); [|done]. rewrite IH. apply perm_swap.
Qed.

Lemma insertStable_sorted (x : string * nat) (l : list (string * nat)) :
  StronglySorted NLP.notAfter l → StronglySorted NLP.notAfter (NLP.insertStable x l).
Proof.
  induction 1 as [|y l Hs IH Hall]; cbn [NLP.insertStable]; [repeat constructor|].
  destruct (Nat.ltb_spec x.2 y.2) as [Hlt|Hge].
  - constructor; [done|]. rewrite insertStable_Permutation.
    constructor; [unfold NLP.notAfter; lia|done].
  - constructor; [by constructor|]. constructor; [done|].
    eapply Forall_impl; [exact Hall|]. unfold NLP.notAfter. intros z. cbn. lia.
Qed.

Lemma sortStable_Permutation (l : list (string * nat)) : NLP.sortStable l ≡ₚ l.
Proof.
  induction l as [|x l IH]; [done|].
  cbn [NLP.sortStable foldr]. rewrite insertStable_Permutation.
  by constructor.
Qed.

Lemma sortStable_sorted (l : list (string * nat)) :
  StronglySorted NLP.notAfter (NLP.sortStable l).
Proof.
  induction l as [|x l IH]; [constructor|]. by apply insertStable_sorted.
Qed.

Lemma ExtractKeywords_spec_outcome (text : string) (topK : Z) :
  NLP.ExtractKeywords text topK (NLP.ExtractKeywords_spec text topK).
Proof.
  set (tokens := NLP.Tokenize text).
  set (scores := map (λ t, (t, count_occ String.string_dec tokens t))
                     (NLP.firstSeen ∅ tokens)).
  exists scores, (NLP.sortStable scores).
  destruct (firstSeen_spec tokens ∅) as [Hnd Hin].
  split_and!; [|split|reflexivity].
  - unfold NLP.ranges. apply NoDup_Permutation.
    + apply (NoDup_fmap_1 fst).
      assert (Hfst : scores.*1 = NLP.firstSeen ∅ tokens).
      { unfold scores. clear Hnd Hin.
        induction (NLP.firstSeen ∅ tokens) as [|t ts IH]; [done|]. cbn. by f_equal. }
      by rewrite Hfst.
    + apply NoDup_map_to_list.
    + intros [t n]. rewrite elem_of_map_to_list, termFreq_lookup.
      unfold scores. rewrite list_elem_of_fmap. split.
      * intros (t' & [= -> ->] & [Ht _]%Hin). split; [done|].
        apply list_elem_of_In, (count_occ_In String.string_dec) in Ht. lia.
      * intros [-> Hn]. exists t. split; [done|]. apply Hin.
        split; [|apply not_elem_of_empty].
        apply list_elem_of_In, (count_occ_In String.string_dec). exact Hn.
  - apply sortStable_Permutation.
  - apply StronglySorted_less_notAfter, sortStable_sorted.
Qed.

(** *** Two outcomes differ in ties only *)

#[local] Instance ge_antisymm : AntiSymm (=) (λ a b : nat, b ≤ a).
Proof. intros a b. lia. Qed.

(** The keywords returned carry the frequencies of the sorted list. *)
Lemma topTerms_frequencies (tokens : list string) (scores sorted : list (string * nat))
    (topK : Z) :
  NLP.ranges (NLP.termFreq tokens) scores → NLP.sort_Slice scores sorted →
  map (count_occ String.string_dec tokens) (NLP.topTerms topK sorted)
  = take (Z.to_nat topK) (sorted.*2).
Proof.
  intros Hr Hs. destruct (sorted_scores_spec _ _ _ Hr Hs) as (_ & _ & _ & Hin).
  unfold NLP.topTerms.
  change (map (count_occ String.string_dec tokens) (take (Z.to_nat topK) (sorted.*1)))
    with (count_occ String.string_dec tokens <$> take (Z.to_nat topK) (sorted.*1)).
  rewrite fmap_take, <- list_fmap_compose. f_equal.
  apply list_fmap_ext. intros i [t n] Hi%list_elem_of_lookup_2.
  apply Hin in Hi as [_ ->]. reflexivity.
Qed.

(** Any two sorted enumerations of the frequency map list the same
    frequencies in the same places. *)
Lemma sorted_scores_frequencies (tokens : list string)
    (scores1 sorted1 scores2 sorted2 : list (string * nat)) :
  NLP.ranges (NLP.termFreq tokens) scores1 → NLP.sort_Slice scores1 sorted1 →
  NLP.ranges (NLP.termFreq tokens) scores2 → NLP.sort_Slice scores2 sorted2 →
  sorted1.*2 = sorted2.*2.
Proof.
  intros Hr1 [Hp1 Hs1] Hr2 [Hp2 Hs2]. unfold NLP.ranges in *.
  apply (StronglySorted_unique (λ a b : nat, b ≤ a)).
  - apply (StronglySorted_fmap snd NLP.notAfter);
      [intros x y Hxy; exact Hxy | by apply StronglySorted_less_notAfter].
  - apply (StronglySorted_fmap snd NLP.notAfter);
      [intros x y Hxy; exact Hxy | by apply StronglySorted_less_notAfter].
  - by rewrite Hp1, Hr1, Hp2, Hr2.
Qed.

Lemma ExtractKeywords_frequencies (text : string) (topK : Z) (keywords1 keywords2 : list string) :
  NLP.ExtractKeywords text topK keywords1 → NLP.ExtractKeywords text topK keywords2 →
  map (count_occ String.string_dec (NLP.Tokenize text)) keywords1
  = map (count_occ String.string_dec (NLP.Tokenize text)) keywords2.
Proof.
  intros (scores1 & sorted1 & Hr1 & Hs1 & ->) (scores2 & sorted2 & Hr2 & Hs2 & ->).
  rewrite (topTerms_frequencies _ _ _ _ Hr1 Hs1), (topTerms_frequencies _ _ _ _ Hr2 Hs2).
  by rewrite (sorted_scores_frequencies _ _ _ _ _ Hr1 Hs1 Hr2 Hs2).
Qed.

(** C7 (amended): whatever [ExtractKeywords] returns for a text and a
    [topK], the keywords are distinct tokens of the text, as many as
    [topK] allows out of the distinct tokens, in descending order of
    their raw frequency, and no token left out is more frequent than a
    keyword kept.  Terms of equal frequency come in whatever order the
    map enumeration and the sort produce: the first-encountered order is
    one of the outcomes, and every outcome shows the same frequencies
    position by position. *)
Theorem C7_keywords_by_descending_frequency
    (text : string) (topK : Z) (keywords : list string) :
  NLP.ExtractKeywords text topK keywords →
  let tokens := NLP.Tokenize text in
  let freq := count_occ String.string_dec tokens in
  NoDup keywords
  ∧ (∀ k, k ∈ keywords → k ∈ tokens)
  ∧ length keywords = Nat.min (Z.to_nat topK) (size (list_to_set tokens : gset string))
  ∧ (∀ i j a b, i < j → keywords !! i = Some a → keywords !! j = Some b →
                freq b ≤ freq a)
  ∧ (∀ t k, t ∈ tokens → t ∉ keywords → k ∈ keywords → freq t ≤ freq k)
  ∧ NLP.ExtractKeywords text topK (NLP.ExtractKeywords_spec text topK)
  ∧ map freq keywords = map freq (NLP.ExtractKeywords_spec text topK).
Proof.
  intros Hrun tokens freq.
  assert (Hspec := ExtractKeywords_spec_outcome text topK).
  assert (Hfreq := ExtractKeywords_frequencies _ _ _ _ Hrun Hspec).
  destruct Hrun as (scores & sorted & Hr & Hs & ->).
  destruct (sorted_scores_spec _ _ _ Hr Hs) as (Hnd & Hlen & Hsorted & Hin).
  fold tokens in Hlen, Hin. unfold NLP.topTerms in *.
  set (K := Z.to_nat topK) in *.
  assert (Hfst : ∀ k, k ∈ take K (sorted.*1) ↔ (k, freq k) ∈ take K sorted).
  { intros k. rewrite <- fmap_take, list_elem_of_fmap. split.
    - intros ([k' n] & -> & Hkn). cbn.
      pose proof Hkn as Hkn'. apply elem_of_take in Hkn' as (i & Hi%list_elem_of_lookup_2 & _).
      apply Hin in Hi as [_ ->]. done.
    - intros Hk. by exists (k, freq k). }
  split_and!; [| | | | |exact Hspec|exact Hfreq].
  - exact (sublist_NoDup _ _ Hnd (sublist_take _ _)).
  - intros k [i [Hi _]]%Hfst%elem_of_take.
    by apply list_elem_of_lookup_2, Hin in Hi as [? _].
  - rewrite length_take, length_fmap, Hlen. done.
  - intros i j a b Hij Ha Hb.
    apply lookup_take_Some in Ha as [Ha _]. apply lookup_take_Some in Hb as [Hb _].
    apply list_lookup_fmap_Some in Ha as ([a' na] & -> & Ha).
    apply list_lookup_fmap_Some in Hb as ([b' nb] & -> & Hb). cbn.
    pose proof (StronglySorted_lookup_lt _ _ _ _ _ _ Hsorted Hij Ha Hb) as Hle.
    apply list_elem_of_lookup_2, Hin in Ha as [_ ->].
    apply list_elem_of_lookup_2, Hin in Hb as [_ ->]. exact Hle.
  - intros t k Ht Hnot Hk.
    apply Hfst in Hk. rewrite Hfst in Hnot.
    assert (Htin : (t, freq t) ∈ sorted) by (by apply Hin).
    rewrite <- (take_drop K sorted) in Htin, Hsorted.
    apply elem_of_app in Htin as [Htin|Htin]; [done|].
    exact (StronglySorted_app_1_elem_of _ _ _ _ _ Hsorted Hk Htin).
Qed.

(** [ExtractKeywords] always returns: the run with the canonical
    enumeration and a merge sort is one of its outcomes. *)
Lemma ExtractKeywords_run_sound (text : string) (topK : Z) :
  NLP.ExtractKeywords text topK
    (NLP.ExtractKeywords_run (map_to_list (NLP.termFreq (NLP.Tokenize text))) topK).
Proof.
  exists (map_to_list (NLP.termFreq (NLP.Tokenize text))).
  exists (merge_sort NLP.notAfter (map_to_list (NLP.termFreq (NLP.Tokenize text)))).
  split; [by unfold NLP.ranges|]. split; [|reflexivity]. split.
  - apply merge_sort_Permutation.
  - apply StronglySorted_less_notAfter, StronglySorted_merge_sort; apply _.
Qed.

Lemma C7_witness :
  let tokens := NLP.Tokenize "java rust java" in
  let freq := count_occ String.string_dec tokens in
  let keywords := ["java"] in
  NoDup keywords
  ∧ (∀ k, k ∈ keywords → k ∈ tokens)
  ∧ length keywords = Nat.min (Z.to_nat 1) (size (list_to_set tokens : gset string))
  ∧ (∀ i j a b, i < j → keywords !! i = Some a → keywords !! j = Some b →
                freq b ≤ freq a)
  ∧ (∀ t k, t ∈ tokens → t ∉ keywords → k ∈ keywords → freq t ≤ freq k)
  ∧ NLP.ExtractKeywords "java rust java" 1 (NLP.ExtractKeywords_spec "java rust java" 1)
  ∧ map freq keywords = map freq (NLP.ExtractKeywords_spec "java rust java" 1).
Proof.
  apply (C7_keywords_by_descending_frequency "java rust java" 1 ["java"]).
  exists [("rust", 1); ("java", 2)], [("java", 2); ("rust", 1)]. split_and!.
  - unfold NLP.ranges. vm_compute map_to_list.
    first [reflexivity | apply perm_swap].
  - split; [apply perm_swap|]. repeat constructor.
  - reflexivity.
Defined.

(** Both orders of two terms of equal frequency are outcomes of
    [ExtractKeywords]. *)
Lemma ExtractKeywords_tie_either_order :
  NLP.ExtractKeywords "aaa bbb" 1 ["aaa"] ∧ NLP.ExtractKeywords "aaa bbb" 1 ["bbb"].
Proof.
  split.
  - exists [("aaa", 1); ("bbb", 1)], [("aaa", 1); ("bbb", 1)]. split_and!.
    + unfold NLP.ranges. vm_compute map_to_list.
      first [reflexivity | apply perm_swap].
    + split; [reflexivity|]. repeat constructor.
    + reflexivity.
  - exists [("bbb", 1); ("aaa", 1)], [("bbb", 1); ("aaa", 1)]. split_and!.
    + unfold NLP.ranges. vm_compute map_to_list.
      first [reflexivity | apply perm_swap].
    + split; [reflexivity|]. repeat constructor.
    + reflexivity.
Qed.

(** C7, as stated, fails on the text "aaa bbb" with [topK = 1]: the two
    terms tie, first-encountered order would return "aaa", and "bbb" is
    an outcome as well, so the output is not a function of the text. *)
Lemma C7_counterexample :
  NLP.ExtractKeywords_spec "aaa bbb" 1 = ["aaa"]
  ∧ ¬ (∀ keywords, NLP.ExtractKeywords "aaa bbb" 1 keywords →
                   keywords = NLP.ExtractKeywords_spec "aaa bbb" 1).
Proof.
  split; [vm_compute; reflexivity|].
  intros Hdet. specialize (Hdet ["bbb"] (proj2 ExtractKeywords_tie_either_order)).
  vm_compute in Hdet. discriminate Hdet.
Qed.

(** ** TF-IDF *)

Lemma allTerms_lookup (documents : list string) (m : gmap string nat) (term : string) :
  (∃ docText, docText ∈ documents ∧ term ∈ NLP.Tokenize docText) →
  is_Some (fold_left (λ m docText, NLP.countTerms (NLP.Tokenize docText) m) documents m
           !! term).
Proof.
  assert (Hkeep : ∀ docs m', is_Some (m' !! term) →
            is_Some (fold_left (λ m docText, NLP.countTerms (NLP.Tokenize docText) m) docs m'
                     !! term)).
  { induction docs as [|d docs IH]; intros m' Hm'; [done|].
    cbn [fold_left]. apply IH. rewrite countTerms_lookup.
    destruct (count_occ _ _ _); [done|eauto]. }
  revert m. induction documents as [|d documents IH]; intros m (docText & Hin & Hterm).
  - by apply elem_of_nil in Hin.
  - cbn [fold_left]. apply elem_of_cons in Hin as [->|Hin]; [|apply IH; eauto].
    apply Hkeep. rewrite countTerms_lookup.
    apply list_elem_of_In, (count_occ_In String.string_dec) in Hterm.
    destruct (count_occ _ _ _); [lia|eauto].
Qed.

Lemma termCount_tokens (docText term : string) :
  NLP.termCount {| NLP.Text := docText; NLP.Terms := NLP.termFreq (NLP.Tokenize docText) |} term
  = count_occ String.string_dec (NLP.Tokenize docText) term.
Proof.
  unfold NLP.termCount. cbn [NLP.Terms]. unfold NLP.termFreq.
  rewrite countTerms_lookup, lookup_empty. cbn.
  destruct (count_occ _ _ _); cbn; [done|lia].
Qed.

(** A term present in every document is counted by every document. *)
Lemma docFreq_everywhere (documents : list string) (term : string) :
  (∀ docText, docText ∈ documents → term ∈ NLP.Tokenize docText) →
  NLP.docFreq
    (map (λ docText, {| NLP.Text := docText;
                        NLP.Terms := NLP.termFreq (NLP.Tokenize docText) |}) documents)
    term
  = length documents.
Proof.
  unfold NLP.docFreq. induction documents as [|d documents IH]; intros Hall; [done|].
  cbn [map]. rewrite filter_cons_True.
  - cbn [length]. f_equal. apply IH. intros docText Hin. apply Hall. by right.
  - rewrite termCount_tokens.
    apply (count_occ_In String.string_dec), list_elem_of_In, Hall. by left.
Qed.

(** With a zero [idf] every summand is zero. *)
Lemma totalTFIDF_idf_zero (docs : list NLP.Document) (term : string) :
  NLP.totalTFIDF docs term 0%R = 0%R.
Proof.
  unfold NLP.totalTFIDF.
  assert (Hfold : ∀ total : R,
            fold_left (λ total doc,
                         let tf := NLP.termCount doc term in
                         if (0 <? tf)%nat
                         then (total + INR tf / INR (NLP.docLength doc) * 0)%R
                         else total) docs total = total).
  { induction docs as [|doc docs IH]; intros total; [done|].
    cbn [fold_left]. cbv zeta. destruct (0 <? NLP.termCount doc term)%nat.
    - rewrite IH. lra.
    - apply IH. }
  apply Hfold.
Qed.

(** C8: in [CalculateTFIDF] over a corpus of at least one document (so
    over any multi-document corpus), a term that occurs among the tokens
    of every document has document frequency [N], hence
    [idf = ln (N/N) = 0], and its aggregate score is exactly 0 whatever
    its frequencies. *)
Theorem C8_tfidf_term_in_every_document (documents : list string) (term : string) :
  documents ≠ [] →
  (∀ docText, docText ∈ documents → term ∈ NLP.Tokenize docText) →
  let docs := map (λ docText, {| NLP.Text := docText;
                                 NLP.Terms := NLP.termFreq (NLP.Tokenize docText) |})
                  documents in
  NLP.docFreq docs term = length documents
  ∧ ln (INR (length documents) / INR (NLP.docFreq docs term)) = 0%R
  ∧ NLP.CalculateTFIDF documents !! term = Some 0%R.
Proof.
  intros Hne Hall docs.
  assert (Hdf : NLP.docFreq docs term = length documents) by by apply docFreq_everywhere.
  assert (Hidf : ln (INR (length documents) / INR (NLP.docFreq docs term)) = 0%R).
  { rewrite Hdf. unfold Rdiv. rewrite Rinv_r; [apply ln_1|].
    apply not_0_INR. by destruct documents. }
  split_and!; [done..|].
  unfold NLP.CalculateTFIDF. rewrite map_lookup_imap.
  destruct (allTerms_lookup documents ∅ term) as [n Hn].
  { destruct documents as [|d ds]; [done|]. exists d. split; [by left|]. apply Hall. by left. }
  rewrite Hn. cbn. fold docs. rewrite Hidf. f_equal. apply totalTFIDF_idf_zero.
Qed.

Lemma C8_witness :
  let documents := ["java golang"; "rust java java"] in
  let docs := map (λ docText, {| NLP.Text := docText;
                                 NLP.Terms := NLP.termFreq (NLP.Tokenize docText) |})
                  documents in
  NLP.docFreq docs "java" = length documents
  ∧ ln (INR (length documents) / INR (NLP.docFreq docs "java")) = 0%R
  ∧ NLP.CalculateTFIDF documents !! "java" = Some 0%R.
Proof.
  apply (C8_tfidf_term_in_every_document ["java golang"; "rust java java"] "java").
  - discriminate.
  - intros docText Hin. apply list_elem_of_In in Hin.
    destruct Hin as [<-|[<-|[]]]; apply list_elem_of_In; vm_compute; tauto.
Defined.

(** ** The clock *)

(** The clock is read only for the entries without an end date. *)
Lemma CalculateExperienceYears_clock (now1 now2 : Time.Time) (resume : Resume.t) :
  Forall (λ exp, is_Some (Experience.EndDate exp)) (Resume.Experience resume) →
  Resume.CalculateExperienceYears now1 resume = Resume.CalculateExperienceYears now2 resume.
Proof.
  unfold Resume.CalculateExperienceYears. intros Hall. generalize 0%Q.
  induction Hall as [|exp exps [endDate Hend] _ IH]; intros totalYears;
    cbn [fold_left]; [reflexivity|].
  assert (Hyears : Resume.years now1 exp = Resume.years now2 exp).
  { unfold Resume.years. rewrite Hend. reflexivity. }
  rewrite Hyears. apply IH.
Qed.

(** C4 (amended): [ParseResume] is a function of its input, the file
    named: it reads no clock and ranges over no map, and two runs that
    find the same document under the name return the same resume or the
    same failure, whatever else is on disk.  [ParseJobDescription] always
    returns, and is a function of its text except for the order of
    keywords of equal frequency: two runs on one text agree on every
    field but [Keywords], and their keyword lists have the same length
    and the same frequencies position by position.  [AnalyzeResume] and
    [AnalyzeResumeStandalone] are functions of their inputs and of the
    clock readings: on a resume whose experience entries all carry an end
    date the result is the same whatever the clock reads. *)
Theorem C4_results_up_to_clock_and_ties :
  (∀ (lib : Library.t) (files files' : Files.t) (filename : string),
     Files.pdf_Open files filename = Files.pdf_Open files' filename →
     Files.document_Open files filename = Files.document_Open files' filename →
     Parser.ParseResume lib files filename = Parser.ParseResume lib files' filename)
  ∧ (∀ (lib : Library.t) (text : string), ∃ jd, Parser.ParseJobDescription lib text jd)
  ∧ (∀ (lib : Library.t) (text : string) (jd jd' : JobDescription.t),
       Parser.ParseJobDescription lib text jd → Parser.ParseJobDescription lib text jd' →
       jd' = JobDescription.set_Keywords jd (JobDescription.Keywords jd')
       ∧ length (JobDescription.Keywords jd) = length (JobDescription.Keywords jd')
       ∧ map (count_occ String.string_dec (NLP.Tokenize text)) (JobDescription.Keywords jd)
         = map (count_occ String.string_dec (NLP.Tokenize text)) (JobDescription.Keywords jd'))
  ∧ (∀ (now now' : Time.Time) (resume : Resume.t) (jobDesc : JobDescription.t),
       Forall (λ exp, is_Some (Experience.EndDate exp)) (Resume.Experience resume) →
       Scorer.AnalyzeResume now resume jobDesc = Scorer.AnalyzeResume now' resume jobDesc)
  ∧ (∀ (now1 now2 now3 now1' now2' now3' : Time.Time) (resume : Resume.t),
       Forall (λ exp, is_Some (Experience.EndDate exp)) (Resume.Experience resume) →
       Scorer.AnalyzeResumeStandalone now1 now2 now3 resume
       = Scorer.AnalyzeResumeStandalone now1' now2' now3' resume).
Proof.
  split; [|split; [|split; [|split]]].
  - intros lib files files' filename Hpdf Hdocx.
    unfold Parser.ParseResume, Parser.parsePDF, Parser.parseDOCX.
    rewrite Hpdf, Hdocx. reflexivity.
  - intros lib text. eexists. eexists. split; [apply ExtractKeywords_run_sound|reflexivity].
  - intros lib text jd jd' (keywords & Hrun & ->) (keywords' & Hrun' & ->).
    pose proof (ExtractKeywords_frequencies _ _ _ _ Hrun Hrun') as Hfreq.
    split; [reflexivity|]. split; [|exact Hfreq].
    apply (f_equal length) in Hfreq. by rewrite !length_map in Hfreq.
  - intros now now' resume jobDesc Hend.
    unfold Scorer.AnalyzeResume, Scorer.calculateExperienceMatch.
    rewrite (CalculateExperienceYears_clock now now' resume Hend). reflexivity.
  - intros now1 now2 now3 now1' now2' now3' resume Hend.
    pose proof (λ a b, CalculateExperienceYears_clock a b resume Hend) as Hyears.
    unfold Scorer.AnalyzeResumeStandalone, Scorer.calculateExperienceScoreStandalone,
      Scorer.generateStandaloneSuggestions.
    rewrite (Hyears now1 now1'), (Hyears now2 now2'), (Hyears now3 now3'). reflexivity.
Qed.

Lemma C4_witness :
  Scorer.AnalyzeResume Inputs.jan2021 Inputs.resumeBackwards (Inputs.jobAsking 2)
  = Scorer.AnalyzeResume Inputs.jan2022 Inputs.resumeBackwards (Inputs.jobAsking 2)
  ∧ Scorer.AnalyzeResumeStandalone Inputs.jan2021 Inputs.jan2021 Inputs.jan2021
      Inputs.resumeBackwards
    = Scorer.AnalyzeResumeStandalone Inputs.jan2022 Inputs.jan2022 Inputs.jan2022
        Inputs.resumeBackwards
  ∧ (∀ lib : Library.t,
       let jd := Parser.parseJobDescriptionWith lib "aaa bbb" ["aaa"; "bbb"] in
       let jd' := Parser.parseJobDescriptionWith lib "aaa bbb" ["bbb"; "aaa"] in
       jd' = JobDescription.set_Keywords jd (JobDescription.Keywords jd')
       ∧ length (JobDescription.Keywords jd) = length (JobDescription.Keywords jd')
       ∧ map (count_occ String.string_dec (NLP.Tokenize "aaa bbb"))
             (JobDescription.Keywords jd)
         = map (count_occ String.string_dec (NLP.Tokenize "aaa bbb"))
               (JobDescription.Keywords jd')).
Proof.
  destruct C4_results_up_to_clock_and_ties as (_ & _ & Hjd & Hanalyze & Hstandalone).
  assert (Hend : Forall (λ exp, is_Some (Experience.EndDate exp))
                        (Resume.Experience Inputs.resumeBackwards)).
  { repeat constructor. eexists. reflexivity. }
  split; [exact (Hanalyze _ _ _ _ Hend)|]. split; [exact (Hstandalone _ _ _ _ _ _ _ Hend)|].
  intros lib. apply (Hjd lib "aaa bbb").
  - exists ["aaa"; "bbb"]. split; [|reflexivity].
    exists [("aaa", 1); ("bbb", 1)], [("aaa", 1); ("bbb", 1)]. split; [|split].
    + unfold NLP.ranges. vm_compute map_to_list.
      first [reflexivity | apply perm_swap].
    + split; [reflexivity|]. repeat constructor.
    + reflexivity.
  - exists ["bbb"; "aaa"]. split; [|reflexivity].
    exists [("bbb", 1); ("aaa", 1)], [("bbb", 1); ("aaa", 1)]. split; [|split].
    + unfold NLP.ranges. vm_compute map_to_list.
      first [reflexivity | apply perm_swap].
    + split; [reflexivity|]. repeat constructor.
    + reflexivity.
Defined.

(** C4, as stated, fails on a resume with one entry begun in January
    2020 and still open, against a job asking for 2 years: read in
    January 2021 the clock gives a candidate short of the requirement,
    read in January 2022 one who meets it; the standalone analysis
    reports other candidate years as well.  It fails on the job text
    "aaa bbb" too, for which either order of the two keywords may be
    stored. *)
Lemma C4_counterexample :
  Scorer.AnalyzeResume Inputs.jan2021 Inputs.resumeCurrent (Inputs.jobAsking 2)
  ≠ Scorer.AnalyzeResume Inputs.jan2022 Inputs.resumeCurrent (Inputs.jobAsking 2)
  ∧ Scorer.AnalyzeResumeStandalone Inputs.jan2021 Inputs.jan2021 Inputs.jan2021
      Inputs.resumeCurrent
    ≠ Scorer.AnalyzeResumeStandalone Inputs.jan2022 Inputs.jan2022 Inputs.jan2022
        Inputs.resumeCurrent
  ∧ Parser.extractJDKeywords "aaa bbb" ["aaa"; "bbb"]
  ∧ Parser.extractJDKeywords "aaa bbb" ["bbb"; "aaa"].
Proof.
  split_and!.
  - intros Heq.
    apply (f_equal (λ a, ExperienceResult.MeetsRequirement (AnalysisResult.ExperienceMatch a)))
      in Heq.
    vm_compute in Heq. discriminate Heq.
  - intros Heq.
    apply (f_equal (λ a, ExperienceResult.YearsCandidate (AnalysisResult.ExperienceMatch a)))
      in Heq.
    vm_compute in Heq. discriminate Heq.
  - exists [("aaa", 1); ("bbb", 1)], [("aaa", 1); ("bbb", 1)]. split_and!.
    + unfold NLP.ranges. vm_compute map_to_list.
      first [reflexivity | apply perm_swap].
    + split; [reflexivity|]. repeat constructor.
    + reflexivity.
  - exists [("bbb", 1); ("aaa", 1)], [("bbb", 1); ("aaa", 1)]. split_and!.
    + unfold NLP.ranges. vm_compute map_to_list.
      first [reflexivity | apply perm_swap].
    + split; [reflexivity|]. repeat constructor.
    + reflexivity.
Qed.

(** ** Bounds on the experience score *)

(** The score never exceeds 1, and is non-negative as soon as the
    candidate years are. *)
Lemma calculateExperienceMatch_bounds
    (now : Time.Time) (resume : Resume.t) (jobDesc : JobDescription.t) :
  let result := Scorer.calculateExperienceMatch now resume jobDesc in
  (ExperienceResult.Score result <= 1)%Q
  ∧ ((0 <= Resume.CalculateExperienceYears now resume)%Q →
     (0 <= ExperienceResult.Score result)%Q).
Proof.
  cbv zeta. unfold Scorer.calculateExperienceMatch. cbn [ExperienceResult.Score].
  set (candidateYears := Resume.CalculateExperienceYears now resume).
  set (requiredYears := Float.of_int (JobDescription.MinExperience jobDesc)).
  destruct (Float.eqb requiredYears 0) eqn:Hzero; [split; intros; Lqa.lra|].
  destruct (Float.leb requiredYears candidateYears) eqn:Hmeets; [split; intros; Lqa.lra|].
  apply Float_leb_gt in Hmeets.
  assert (Hnz : ¬ (requiredYears == 0)%Q).
  { intros Heq. apply Qeq_bool_iff in Heq. unfold Float.eqb in Hzero. congruence. }
  destruct (Float.ltb 1 (candidateYears / requiredYears)) eqn:Hcap.
  - split; intros; Lqa.lra.
  - apply Float_ltb_ge in Hcap. split; [done|]. intros Hpos.
    assert (0 < requiredYears)%Q by Lqa.lra.
    apply Qle_shift_div_l; [done|Lqa.lra].
Qed.

(** * Further properties of the code *)

(** ** White space *)

Lemma TrimLeftSpace_head (s : string) : headNotSpace (TrimLeftSpace s).
Proof.
  induction s as [|c s IH]; cbn; [done|].
  destruct (isSpace c) eqn:Hc; [exact IH|exact Hc].
Qed.

Lemma TrimLeftSpace_id (s : string) : headNotSpace s → TrimLeftSpace s = s.
Proof. destruct s as [|c s]; cbn; [done|]. by intros ->. Qed.

Lemma TrimRightSpace_head (s : string) : headNotSpace s → headNotSpace (TrimRightSpace s).
Proof.
  destruct s as [|c s]; cbn; [done|]. intros Hc.
  destruct (TrimRightSpace s); [by rewrite Hc|done].
Qed.

Lemma TrimRightSpace_idemp (s : string) :
  TrimRightSpace (TrimRightSpace s) = TrimRightSpace s.
Proof.
  induction s as [|c s IH]; [done|]. cbn.
  destruct (TrimRightSpace s) as [|d t] eqn:Ht.
  - destruct (isSpace c) eqn:Hc; cbn; [done|by rewrite Hc].
  - cbn [TrimRightSpace] in IH |- *. by rewrite IH.
Qed.

Lemma TrimSpace_idemp (s : string) : TrimSpace (TrimSpace s) = TrimSpace s.
Proof.
  unfold TrimSpace.
  rewrite (TrimLeftSpace_id (TrimRightSpace _)).
  - apply TrimRightSpace_idemp.
  - apply TrimRightSpace_head, TrimLeftSpace_head.
Qed.

(** ** [RemoveDuplicates] *)

Lemma RemoveDuplicates_loop_elem_of (slice : list string) (keys : gset string) (x : string) :
  x ∈ Utils.RemoveDuplicates_loop keys slice ↔
  (x ∉ keys) ∧ x ≠ "" ∧ ∃ item, item ∈ slice ∧ x = TrimSpace item.
Proof.
  split; [apply RemoveDuplicates_loop_spec|].
  revert keys. induction slice as [|item rest IH]; intros keys (Hk & Hne & y & Hy & ->).
  - by apply elem_of_nil in Hy.
  - cbn [Utils.RemoveDuplicates_loop].
    destruct (String.eqb_spec (TrimSpace item) "") as [Hempty|Hempty]; cbn [negb andb].
    { apply IH. split_and!; [done..|]. exists y. split; [|done].
      apply elem_of_cons in Hy as [->|Hy]; [contradiction|done]. }
    case_bool_decide as Hseen; cbn [negb].
    { apply IH. split_and!; [done..|]. exists y. split; [|done].
      apply elem_of_cons in Hy as [->|Hy]; [contradiction|done]. }
    destruct (decide (TrimSpace y = TrimSpace item)) as [->|Hdiff]; [by left|].
    right. apply IH. split_and!; [|done|].
    + rewrite not_elem_of_union, elem_of_singleton. done.
    + exists y. split; [|done]. apply elem_of_cons in Hy as [->|Hy]; [contradiction|done].
Qed.

Lemma RemoveDuplicates_loop_sublist (slice : list string) (keys : gset string) :
  Utils.RemoveDuplicates_loop keys slice `sublist_of` map TrimSpace slice.
Proof.
  revert keys. induction slice as [|item rest IH]; intros keys; cbn; [constructor|].
  destruct (negb _ && negb _); [apply sublist_skip|apply sublist_cons]; apply IH.
Qed.

(** The loop leaves a list of distinct, trimmed, non-blank, unseen items
    as it is. *)
Lemma RemoveDuplicates_loop_id (l : list string) (keys : gset string) :
  NoDup l → (∀ x, x ∈ l → TrimSpace x = x ∧ x ≠ "" ∧ x ∉ keys) →
  Utils.RemoveDuplicates_loop keys l = l.
Proof.
  intros Hnd. revert keys. induction Hnd as [|x l Hx Hnd IH]; intros keys Hall; [done|].
  cbn [Utils.RemoveDuplicates_loop].
  destruct (Hall x) as (Htrim & Hne & Hk); [by left|]. rewrite Htrim.
  destruct (String.eqb_spec x "") as [|_]; [done|]. cbn [negb andb].
  rewrite bool_decide_eq_false_2 by done. cbn [negb]. f_equal.
  apply IH. intros y Hy. destruct (Hall y) as (? & ? & ?); [by right|].
  split_and!; [done..|]. rewrite not_elem_of_union, elem_of_singleton.
  split; [|done]. intros ->. contradiction.
Qed.

Lemma RemoveDuplicates_idempotent (slice : list string) :
  Utils.RemoveDuplicates (Utils.RemoveDuplicates slice) = Utils.RemoveDuplicates slice.
Proof.
  apply RemoveDuplicates_loop_id; [apply RemoveDuplicates_NoDup|].
  intros x Hx. apply RemoveDuplicates_loop_spec in Hx as (Hk & Hne & item & _ & ->).
  split_and!; [apply TrimSpace_idemp|done|done].
Qed.

(** Of two results of the loop the earlier one occurs in the trimmed
    slice before every occurrence of the later one. *)
Lemma RemoveDuplicates_loop_order (slice : list string) (keys : gset string)
    (i j : nat) (x y : string) :
  Utils.RemoveDuplicates_loop keys slice !! i = Some x →
  Utils.RemoveDuplicates_loop keys slice !! j = Some y →
  i < j →
  ∃ k, map TrimSpace slice !! k = Some x
       ∧ ∀ k', k' ≤ k → map TrimSpace slice !! k' ≠ Some y.
Proof.
  revert keys i j. induction slice as [|item rest IH]; intros keys i j Hi Hj Hlt; [done|].
  cbn [Utils.RemoveDuplicates_loop] in Hi, Hj.
  destruct (negb (String.eqb (TrimSpace item) "") && negb (bool_decide (TrimSpace item ∈ keys)))
    eqn:Hkeep.
  - destruct j as [|j]; [lia|]. cbn [lookup list_lookup] in Hj.
    assert (Hy : y ≠ TrimSpace item).
    { apply list_elem_of_lookup_2, RemoveDuplicates_loop_spec in Hj as (Hk & _).
      intros ->. apply Hk, elem_of_union_l, elem_of_singleton. reflexivity. }
    destruct i as [|i].
    + injection Hi as <-. exists 0. split; [reflexivity|].
      intros k' Hk'. replace k' with 0 by lia. cbn. congruence.
    + cbn [lookup list_lookup] in Hi.
      destruct (IH _ i j Hi Hj) as (k & Hk & Hbefore); [lia|].
      exists (S k). split; [exact Hk|].
      intros [|k'] Hk'; cbn; [congruence|]. apply Hbefore. lia.
  - assert (Hy : y ≠ TrimSpace item).
    { apply list_elem_of_lookup_2, RemoveDuplicates_loop_spec in Hj as (Hk & Hne & _).
      intros ->. apply andb_false_iff in Hkeep as [Hkeep|Hkeep].
      - apply negb_false_iff, String.eqb_eq in Hkeep. contradiction.
      - apply negb_false_iff, bool_decide_eq_true in Hkeep. contradiction. }
    destruct (IH _ i j Hi Hj Hlt) as (k & Hk & Hbefore).
    exists (S k). split; [exact Hk|].
    intros [|k'] Hk'; cbn; [congruence|]. apply Hbefore. lia.
Qed.

(** Items seen beforehand are the items missing from the result. *)
Lemma RemoveDuplicates_loop_seen (slice : list string) (seen keys : gset string) :
  Utils.RemoveDuplicates_loop (seen ∪ keys) slice
  = List.filter (λ x, negb (bool_decide (x ∈ seen))) (Utils.RemoveDuplicates_loop keys slice).
Proof.
  revert keys. induction slice as [|item rest IH]; intros keys; [done|].
  cbn [Utils.RemoveDuplicates_loop].
  destruct (String.eqb (TrimSpace item) ""); cbn [negb andb]; [apply IH|].
  destruct (decide (TrimSpace item ∈ keys)) as [Hk|Hk].
  - rewrite (bool_decide_eq_true_2 (TrimSpace item ∈ keys)) by done.
    rewrite (bool_decide_eq_true_2 (TrimSpace item ∈ seen ∪ keys))
      by (apply elem_of_union_r, Hk).
    cbn [negb]. apply IH.
  - rewrite (bool_decide_eq_false_2 (TrimSpace item ∈ keys)) by done. cbn [negb List.filter].
    destruct (decide (TrimSpace item ∈ seen)) as [Hs|Hs].
    + rewrite (bool_decide_eq_true_2 (TrimSpace item ∈ seen ∪ keys))
        by (apply elem_of_union_l, Hs).
      rewrite (bool_decide_eq_true_2 (TrimSpace item ∈ seen)) by done. cbn [negb].
      rewrite <- IH. f_equal. apply set_eq. intros x.
      rewrite !elem_of_union, elem_of_singleton. split; [tauto|].
      intros [?|[->|?]]; tauto.
    + rewrite (bool_decide_eq_false_2 (TrimSpace item ∈ seen ∪ keys))
        by (rewrite elem_of_union; tauto).
      rewrite (bool_decide_eq_false_2 (TrimSpace item ∈ seen)) by done. cbn [negb].
      f_equal. rewrite <- IH. f_equal. apply set_eq. intros x.
      rewrite !elem_of_union. tauto.
Qed.

Lemma RemoveDuplicates_cons (item : string) (rest : list string) :
  Utils.RemoveDuplicates (item :: rest)
  = if String.eqb (TrimSpace item) "" then Utils.RemoveDuplicates rest
    else TrimSpace item
         :: List.filter (λ x, negb (String.eqb x (TrimSpace item))) (Utils.RemoveDuplicates rest).
Proof.
  unfold Utils.RemoveDuplicates. cbn [Utils.RemoveDuplicates_loop].
  destruct (String.eqb (TrimSpace item) ""); cbn [negb andb]; [done|].
  rewrite (bool_decide_eq_false_2 (TrimSpace item ∈ (∅ : gset string)))
    by apply not_elem_of_empty.
  cbn [negb]. f_equal.
  rewrite RemoveDuplicates_loop_seen. apply List.filter_ext. intros x. f_equal.
  destruct (String.eqb_spec x (TrimSpace item)) as [->|Hne].
  - apply bool_decide_eq_true_2, elem_of_singleton. reflexivity.
  - apply bool_decide_eq_false_2. rewrite elem_of_singleton. exact Hne.
Qed.

(** X1: [RemoveDuplicates] returns exactly the trimmed, non-blank items of
    its argument, each once, in the order of their first occurrence: of
    two results the earlier one occurs in the trimmed argument before
    every occurrence of the later one.  A blank head is skipped; any
    other head is kept, trimmed, in front of the result of the rest
    without it.  Applied to its own result the function changes
    nothing. *)
Theorem X1_RemoveDuplicates_spec (slice : list string) :
  NoDup (Utils.RemoveDuplicates slice)
  ∧ (∀ x, x ∈ Utils.RemoveDuplicates slice ↔
          x ≠ "" ∧ ∃ item, item ∈ slice ∧ x = TrimSpace item)
  ∧ Utils.RemoveDuplicates slice `sublist_of` map TrimSpace slice
  ∧ (∀ (i j : nat) (x y : string),
       Utils.RemoveDuplicates slice !! i = Some x →
       Utils.RemoveDuplicates slice !! j = Some y →
       i < j →
       ∃ k, map TrimSpace slice !! k = Some x
            ∧ ∀ k', k' ≤ k → map TrimSpace slice !! k' ≠ Some y)
  ∧ (∀ (item : string) (rest : list string),
       slice = item :: rest →
       Utils.RemoveDuplicates slice
       = if String.eqb (TrimSpace item) "" then Utils.RemoveDuplicates rest
         else TrimSpace item
              :: List.filter (λ x, negb (String.eqb x (TrimSpace item)))
                             (Utils.RemoveDuplicates rest))
  ∧ Utils.RemoveDuplicates (Utils.RemoveDuplicates slice) = Utils.RemoveDuplicates slice.
Proof.
  split_and!.
  - apply RemoveDuplicates_NoDup.
  - intros x. unfold Utils.RemoveDuplicates. rewrite RemoveDuplicates_loop_elem_of.
    split; [tauto|]. intros H. split; [apply not_elem_of_empty|exact H].
  - apply RemoveDuplicates_loop_sublist.
  - intros i j x y. apply RemoveDuplicates_loop_order.
  - intros item rest ->. apply RemoveDuplicates_cons.
  - apply RemoveDuplicates_idempotent.
Qed.

(** ** The edit distance *)

Lemma revOnto_app (s t acc : string) :
  NLP.revOnto (s +:+ t) acc = NLP.revOnto t (NLP.revOnto s acc).
Proof.
  revert acc. induction s as [|c s IH]; intros acc; [done|].
  change (String c s +:+ t) with (String c (s +:+ t)). cbn. apply IH.
Qed.

Lemma revOnto_length (s acc : string) :
  String.length (NLP.revOnto s acc) = String.length s + String.length acc.
Proof.
  revert acc. induction s as [|c s IH]; intros acc; cbn; [done|].
  rewrite IH. cbn. lia.
Qed.

Lemma append_cons (c : ascii) (s t : string) : String c s +:+ t = String c (s +:+ t).
Proof. reflexivity. Qed.

Lemma append_nil_r (s : string) : s +:+ "" = s.
Proof. induction s as [|c s IH]; [done|]. by rewrite append_cons, IH. Qed.

Lemma append_assoc (s t u : string) : (s +:+ t) +:+ u = s +:+ (t +:+ u).
Proof. induction s as [|c s IH]; [done|]. by rewrite !append_cons, IH. Qed.

Lemma append_length (s t : string) :
  String.length (s +:+ t) = String.length s + String.length t.
Proof. induction s as [|c s IH]; [done|]. rewrite append_cons. cbn. by rewrite IH. Qed.

Lemma revOnto_revOnto (s acc out : string) :
  NLP.revOnto (NLP.revOnto s acc) out = NLP.revOnto acc (s +:+ out).
Proof.
  revert acc. induction s as [|c s IH]; intros acc; [done|].
  cbn [NLP.revOnto]. by rewrite IH.
Qed.

Lemma revOnto_involutive (s : string) : NLP.revOnto (NLP.revOnto s "") "" = s.
Proof. rewrite revOnto_revOnto. cbn [NLP.revOnto]. apply append_nil_r. Qed.

Lemma editDistance_le_max (s t : string) :
  NLP.editDistance s t ≤ Nat.max (String.length s) (String.length t).
Proof.
  revert t. induction s as [|a s IHs]; intros t; [cbn; lia|].
  destruct t as [|b t]; [cbn; lia|].
  change (NLP.editDistance (String a s) (String b t))
    with (NLP.min (NLP.editDistance s (String b t) + 1)
                  (NLP.editDistance (String a s) t + 1)
                  (NLP.editDistance s t + (if Ascii.eqb a b then 0 else 1))).
  rewrite min_spec. specialize (IHs t). cbn [String.length].
  destruct (Ascii.eqb a b); lia.
Qed.

Lemma editDistance_zero (s t : string) : NLP.editDistance s t = 0 ↔ s = t.
Proof.
  split; [|intros ->; apply editDistance_refl].
  revert t. induction s as [|a s IHs]; intros t.
  - destruct t; cbn; [done|discriminate].
  - destruct t as [|b t]; [cbn; discriminate|].
    change (NLP.editDistance (String a s) (String b t))
      with (NLP.min (NLP.editDistance s (String b t) + 1)
                    (NLP.editDistance (String a s) t + 1)
                    (NLP.editDistance s t + (if Ascii.eqb a b then 0 else 1))).
    rewrite min_spec. intros Hmin.
    destruct (Ascii.eqb_spec a b) as [->|Hab]; [|lia].
    f_equal. apply IHs. lia.
Qed.

(** X2: the entry [matrix[len s1][len s2]] that [calculateStringSimilarity]
    reads obeys the Levenshtein recurrence on the last bytes: it is the
    length of the other string when one is empty, and otherwise the least
    of a deletion, an insertion and a substitution (free when the last
    bytes agree).  The distance and the similarity are symmetric in their
    two arguments, the early returns for an empty argument included. *)
Theorem X2_distance_recurrence (s t : string) (a b : ascii) :
  NLP.distance "" t = String.length t
  ∧ NLP.distance s "" = String.length s
  ∧ NLP.distance (s +:+ String a "") (t +:+ String b "")
    = NLP.min (NLP.distance s (t +:+ String b "") + 1)
              (NLP.distance (s +:+ String a "") t + 1)
              (NLP.distance s t + (if Ascii.eqb a b then 0 else 1))
  ∧ NLP.distance s t = NLP.distance t s
  ∧ NLP.calculateStringSimilarity s t = NLP.calculateStringSimilarity t s.
Proof.
  split; [|split; [|split; [|split]]].
  - rewrite distance_editDistance. cbn. by rewrite revOnto_length, Nat.add_0_r.
  - rewrite distance_editDistance. cbn [NLP.revOnto].
    by rewrite editDistance_nil_r, revOnto_length, Nat.add_0_r.
  - rewrite !distance_editDistance, !revOnto_app. reflexivity.
  - apply distance_sym.
  - apply calculateStringSimilarity_sym.
Qed.


(** X3: on two non-empty strings the similarity lies between 0 and 1, and
    it is 1 exactly when the strings are equal. *)
Theorem X3_similarity_bounds (s1 s2 : string) :
  s1 ≠ "" → s2 ≠ "" →
  (0 <= NLP.calculateStringSimilarity s1 s2 <= 1)%Q
  ∧ ((NLP.calculateStringSimilarity s1 s2 == 1)%Q ↔ s1 = s2).
Proof.
  intros H1 H2. unfold NLP.calculateStringSimilarity.
  destruct s1 as [|c1 r1]; [done|]. destruct s2 as [|c2 r2]; [done|].
  cbn [String.length Nat.eqb]. rewrite max_spec.
  set (m := Nat.max (S (String.length r1)) (S (String.length r2))).
  assert (Hm : (0 < m)%nat) by lia.
  destruct (Nat.eqb_spec m 0) as [|_]; [lia|].
  set (d := NLP.distance (String c1 r1) (String c2 r2)).
  assert (Hd : (d ≤ m)%nat).
  { unfold d, m. rewrite distance_editDistance.
    etrans; [apply editDistance_le_max|]. rewrite !revOnto_length. cbn. lia. }
  assert (Hzero : d = 0%nat ↔ String c1 r1 = String c2 r2).
  { unfold d. rewrite distance_editDistance, editDistance_zero. split; [|by intros ->].
    intros Heq. rewrite <- (revOnto_involutive (String c1 r1)), Heq.
    apply revOnto_involutive. }
  rewrite <- Hzero. unfold Float.of_nat. clearbody d m. clear Hzero.
  destruct m as [|m']; [lia|].
  rewrite <- (Nat2Z.inj_iff d 0). change (Z.of_nat 0) with 0%Z.
  assert (Hdz : (0 <= Z.of_nat d <= Z.of_nat (S m'))%Z) by lia.
  generalize dependent (Z.of_nat d). intros zd Hzd.
  destruct (Z.of_nat (S m')) as [|p|p] eqn:Hp; [lia| |lia]. clear Hp.
  unfold Qle, Qeq, Qminus, Qdiv, Qplus, Qmult, Qopp, Qinv, inject_Z. cbn.
  split; [split|split]; nia.
Qed.

Lemma X3_witness :
  (0 <= NLP.calculateStringSimilarity "kitten" "sitting" <= 1)%Q
  ∧ ((NLP.calculateStringSimilarity "kitten" "sitting" == 1)%Q ↔ "kitten" = "sitting").
Proof. apply (X3_similarity_bounds "kitten" "sitting"); discriminate. Defined.


(** ** [CalculateSkillMatch] *)

Lemma matchLoop_filter (resumeSet : gset string) (jobSkills matched missing : list string) :
  NLP.matchLoop resumeSet jobSkills matched missing
  = (matched ++ List.filter (NLP.skillFound resumeSet) jobSkills,
     missing ++ List.filter (λ j, negb (NLP.skillFound resumeSet j)) jobSkills).
Proof.
  revert matched missing. induction jobSkills as [|j rest IH]; intros matched missing.
  - cbn. by rewrite !app_nil_r.
  - cbn [NLP.matchLoop List.filter].
    destruct (NLP.skillFound resumeSet j) eqn:Hf; unfold NLP.skillFound in Hf; cbn [negb].
    + assert (Hgo : (if bool_decide (ToLower j ∈ resumeSet)
                     then NLP.matchLoop resumeSet rest (matched ++ [j]) missing
                     else if NLP.fuzzyFound resumeSet (ToLower j)
                          then NLP.matchLoop resumeSet rest (matched ++ [j]) missing
                          else NLP.matchLoop resumeSet rest matched (missing ++ [j]))
                    = NLP.matchLoop resumeSet rest (matched ++ [j]) missing).
      { destruct (bool_decide _); [done|]. cbn in Hf. by rewrite Hf. }
      by rewrite Hgo, IH, <- app_assoc.
    + apply orb_false_iff in Hf as [H1 H2]. by rewrite H1, H2, IH, <- app_assoc.
Qed.

Lemma Float_of_nat_ratio (a b : nat) :
  (a ≤ b)%nat → (0 < b)%nat →
  (0 <= Float.of_nat a / Float.of_nat b * 100 <= 100)%Q
  ∧ (a = b → (Float.of_nat a / Float.of_nat b * 100 == 100)%Q).
Proof.
  intros Hab Hb. unfold Float.of_nat.
  assert (Ha : (0 <= Z.of_nat a <= Z.of_nat b)%Z) by lia.
  assert (Heq : a = b ↔ Z.of_nat a = Z.of_nat b) by lia. rewrite Heq. clear Heq.
  generalize dependent (Z.of_nat a). intros za Hza.
  destruct (Z.of_nat b) as [|p|p] eqn:Hp; [lia| |lia]. clear Hp.
  unfold Qle, Qeq, Qminus, Qdiv, Qplus, Qmult, Qopp, Qinv, inject_Z. cbn.
  split; [split|]; nia.
Qed.

(** X4: [CalculateSkillMatch] splits the job skills, in their order, into
    the matched ones and the missing ones: every job skill lands in
    exactly one of the two lists, and the percentage is the matched share
    of the job skills, between 0 and 100 (0 when there are no job skills). *)
Theorem X4_skill_match_partition (resumeSkills jobSkills : list string) :
  ∃ percentage matched missing,
    NLP.CalculateSkillMatch resumeSkills jobSkills = (percentage, matched, missing)
    ∧ matched = List.filter (NLP.skillFound (list_to_set (map ToLower resumeSkills))) jobSkills
    ∧ missing = List.filter (λ j, negb (NLP.skillFound (list_to_set (map ToLower resumeSkills)) j))
                            jobSkills
    ∧ matched ++ missing ≡ₚ jobSkills
    ∧ length matched + length missing = length jobSkills
    ∧ (0 <= percentage <= 100)%Q
    ∧ (jobSkills = [] → percentage = 0%Q)
    ∧ (jobSkills ≠ [] → missing = [] → (percentage == 100)%Q).
Proof.
  unfold NLP.CalculateSkillMatch. rewrite matchLoop_filter. cbn [app].
  set (f := NLP.skillFound _).
  assert (Hlen : length (List.filter f jobSkills)
                 + length (List.filter (λ j, negb (f j)) jobSkills) = length jobSkills)
    by apply List.filter_length.
  do 3 eexists.
  split; [reflexivity|]. split; [reflexivity|]. split; [reflexivity|].
  split; [|split; [exact Hlen|]].
  { symmetry. clear Hlen. induction jobSkills as [|j rest IH]; [done|].
    cbn [List.filter]. destruct (f j); cbn [negb app].
    + by constructor.
    + rewrite IH at 1. by rewrite Permutation_middle. }
  destruct jobSkills as [|j rest].
  { split; [done|]. split; [reflexivity|]. intros Hne. by destruct Hne. }
  cbn [length Nat.ltb Nat.leb].
  split; [|split; [intros Hnil; discriminate Hnil|]].
  - apply Float_of_nat_ratio; cbn [length] in *; lia.
  - intros _ Hmiss. rewrite Hmiss in Hlen.
    apply Float_of_nat_ratio; cbn [length] in *; lia.
Qed.

(** X5: a job skill that equals a resume skill up to letter case is
    matched; when every job skill does, nothing is missing and the
    matched list is the list of job skills. *)
Theorem X5_skill_match_exact (resumeSkills jobSkills : list string) :
  (∀ jobSkill, jobSkill ∈ jobSkills →
     ∃ resumeSkill, resumeSkill ∈ resumeSkills ∧ ToLower resumeSkill = ToLower jobSkill) →
  ∃ percentage,
    NLP.CalculateSkillMatch resumeSkills jobSkills = (percentage, jobSkills, [])
    ∧ (jobSkills ≠ [] → (percentage == 100)%Q).
Proof.
  intros Hall. unfold NLP.CalculateSkillMatch. rewrite matchLoop_filter. cbn [app].
  set (f := NLP.skillFound _).
  assert (Hf : ∀ j, j ∈ jobSkills → f j = true).
  { intros j (r & Hr & Heq)%Hall. unfold f, NLP.skillFound.
    rewrite bool_decide_eq_true_2; [done|].
    apply elem_of_list_to_set. rewrite <- Heq.
    change (map ToLower resumeSkills) with (ToLower <$> resumeSkills).
    by apply list_elem_of_fmap_2. }
  assert (Hm : List.filter f jobSkills = jobSkills).
  { clear Hall. induction jobSkills as [|j rest IH]; [done|]. cbn.
    rewrite Hf by (by left). f_equal. apply IH. intros j' Hj'. apply Hf. by right. }
  assert (Hx : List.filter (λ j, negb (f j)) jobSkills = []).
  { clear Hall Hm. induction jobSkills as [|j rest IH]; [done|]. cbn.
    rewrite Hf by (by left). cbn. apply IH. intros j' Hj'. apply Hf. by right. }
  rewrite Hm, Hx. eexists. split; [reflexivity|].
  intros Hne. destruct jobSkills as [|j rest]; [done|]. cbn [length Nat.ltb Nat.leb].
  apply Float_of_nat_ratio; cbn [length]; lia.
Qed.

Lemma X5_witness :
  ∃ percentage,
    NLP.CalculateSkillMatch ["Python"; "Go"; "SQL"] ["python"; "GO"]
      = (percentage, ["python"; "GO"], [])
    ∧ (["python"; "GO"] ≠ [] → (percentage == 100)%Q).
Proof.
  apply (X5_skill_match_exact ["Python"; "Go"; "SQL"] ["python"; "GO"]).
  intros jobSkill Hin. apply list_elem_of_In in Hin.
  destruct Hin as [<-|[<-|[]]].
  - exists "Python". split; [by left|reflexivity].
  - exists "Go". split; [right; by left|reflexivity].
Defined.

(** ** [Tokenize] *)

Lemma allBytes_app (g : ascii → bool) (s t : string) :
  allBytes g (s +:+ t) = allBytes g s && allBytes g t.
Proof.
  induction s as [|c s IH]; [reflexivity|].
  rewrite append_cons. cbn [allBytes]. rewrite IH. apply andb_assoc.
Qed.

Lemma allBytes_impl (g h : ascii → bool) (s : string) :
  (∀ c, g c = true → h c = true) → allBytes g s = true → allBytes h s = true.
Proof.
  intros Hgh. induction s as [|c s IH]; [done|]. cbn [allBytes].
  intros [Hc Hs]%andb_true_iff. rewrite (Hgh c Hc), (IH Hs). reflexivity.
Qed.

(** The fields are non-empty runs of bytes of the text that the
    separator test rejects. *)
Lemma FieldsFunc_from_Forall (f g : ascii → bool) (s cur : string) :
  allBytes (λ c, f c || g c) s = true → allBytes g cur = true →
  Forall (λ word, allBytes g word = true ∧ word ≠ "") (FieldsFunc_from f s cur).
Proof.
  revert cur. induction s as [|c s IH]; intros cur Hs Hcur.
  - cbn. destruct cur; [constructor|]. by repeat constructor.
  - cbn [allBytes] in Hs. apply andb_true_iff in Hs as [Hc Hs].
    cbn [FieldsFunc_from]. destruct (f c) eqn:Hfc.
    + destruct cur.
      * by apply IH.
      * constructor; [done|]. by apply IH.
    + cbn [orb] in Hc. apply IH; [done|].
      rewrite allBytes_app, Hcur. cbn [allBytes andb]. by rewrite Hc.
Qed.

Lemma lower_byte_idemp (c : ascii) : lower_byte (lower_byte c) = lower_byte c.
Proof. destruct c as [[] [] [] [] [] [] [] []]; reflexivity. Qed.

Lemma ToLower_idemp (s : string) : ToLower (ToLower s) = ToLower s.
Proof.
  induction s as [|c s IH]; [reflexivity|]. cbn [ToLower].
  by rewrite lower_byte_idemp, IH.
Qed.

Lemma ToLower_allBytes (s : string) :
  allBytes (λ c, Ascii.eqb (lower_byte c) c) (ToLower s) = true.
Proof.
  induction s as [|c s IH]; [reflexivity|]. cbn [ToLower allBytes].
  by rewrite lower_byte_idemp, Ascii.eqb_refl, IH.
Qed.

Lemma allBytes_lower_ToLower (s : string) :
  allBytes (λ c, Ascii.eqb (lower_byte c) c) s = true → ToLower s = s.
Proof.
  induction s as [|c s IH]; [done|]. cbn [allBytes ToLower].
  intros [Hc%Ascii.eqb_eq Hs]%andb_true_iff. by rewrite Hc, IH.
Qed.

Lemma alnum_not_space (c : ascii) : IsLetter c || IsNumber c = true → isSpace c = false.
Proof. destruct c as [[] [] [] [] [] [] [] []]; cbv; congruence. Qed.

Lemma TrimRightSpace_id (s : string) :
  allBytes (λ c, negb (isSpace c)) s = true → TrimRightSpace s = s.
Proof.
  induction s as [|c s IH]; [done|]. cbn [allBytes TrimRightSpace].
  intros [Hc%negb_true_iff Hs]%andb_true_iff. rewrite (IH Hs), Hc. by destruct s.
Qed.

Lemma TrimSpace_id (s : string) :
  allBytes (λ c, negb (isSpace c)) s = true → TrimSpace s = s.
Proof.
  intros Hs. unfold TrimSpace. rewrite TrimLeftSpace_id; [by apply TrimRightSpace_id|].
  destruct s as [|c s]; [done|]. cbn in *.
  by apply andb_true_iff in Hs as [Hc%negb_true_iff _].
Qed.

(** The words [Tokenize] cuts out of the lower-cased text: non-empty runs
    of lower-case letters and digits. *)
Lemma Tokenize_words (text : string) :
  Forall (λ word, allBytes (λ c, (IsLetter c || IsNumber c)
                                 && Ascii.eqb (lower_byte c) c) word = true
                  ∧ word ≠ "")
         (FieldsFunc (ToLower text) (λ c, negb (IsLetter c) && negb (IsNumber c))).
Proof.
  apply FieldsFunc_from_Forall; [|reflexivity].
  eapply allBytes_impl; [|apply ToLower_allBytes].
  intros c Hc. cbn beta. rewrite Hc.
  by destruct (IsLetter c), (IsNumber c).
Qed.

(** X6: every token [Tokenize] returns is longer than two bytes, is not a
    stop word, consists of letters and digits only, and is in lower case
    with no white space to trim; the tokens do not depend on the letter
    case of the text. *)
Theorem X6_Tokenize_tokens (text : string) :
  Forall (λ token,
            (2 < String.length token)
            ∧ (token ∉ NLP.stopWords)
            ∧ allBytes (λ c, IsLetter c || IsNumber c) token = true
            ∧ ToLower token = token
            ∧ TrimSpace token = token)
         (NLP.Tokenize text)
  ∧ NLP.Tokenize (ToLower text) = NLP.Tokenize text.
Proof.
  split; [|unfold NLP.Tokenize; by rewrite ToLower_idemp].
  apply Forall_forall. intros token. unfold NLP.Tokenize.
  rewrite list_elem_of_filter. intros [[Hlen Hstop] Hin].
  change (map TrimSpace ?l) with (TrimSpace <$> l) in Hin.
  apply list_elem_of_fmap in Hin as (word & -> & Hword).
  pose proof (Tokenize_words text) as Hwords.
  rewrite Forall_forall in Hwords. apply Hwords in Hword as [Hbytes _].
  assert (Halnum : allBytes (λ c, IsLetter c || IsNumber c) word = true).
  { eapply allBytes_impl; [|exact Hbytes]. by intros c [? _]%andb_true_iff. }
  assert (Hlow : allBytes (λ c, Ascii.eqb (lower_byte c) c) word = true).
  { eapply allBytes_impl; [|exact Hbytes]. by intros c [_ ?]%andb_true_iff. }
  assert (Htrim : TrimSpace word = word).
  { apply TrimSpace_id. eapply allBytes_impl; [|exact Halnum].
    intros c Hc. by rewrite (alnum_not_space c Hc). }
  rewrite Htrim in *. split_and!; try done.
  by apply allBytes_lower_ToLower.
Qed.

Lemma ToLower_app (s t : string) : ToLower (s +:+ t) = ToLower s +:+ ToLower t.
Proof.
  induction s as [|c s IH]; [reflexivity|].
  rewrite append_cons. cbn [ToLower]. by rewrite IH, append_cons.
Qed.

(** A separator closes the field being read. *)
Lemma FieldsFunc_from_sep (f : ascii → bool) (s t cur : string) (sep : ascii) :
  f sep = true →
  FieldsFunc_from f (s +:+ String sep t) cur
  = FieldsFunc_from f s cur ++ FieldsFunc_from f t "".
Proof.
  intros Hsep. revert cur. induction s as [|c s IH]; intros cur.
  - change ("" +:+ String sep t) with (String sep t).
    cbn [FieldsFunc_from]. rewrite Hsep. by destruct cur.
  - rewrite append_cons. cbn [FieldsFunc_from]. destruct (f c).
    + destruct cur; [apply IH|]. rewrite IH. reflexivity.
    + apply IH.
Qed.

Lemma lower_byte_alnum (c : ascii) :
  IsLetter (lower_byte c) || IsNumber (lower_byte c) = IsLetter c || IsNumber c.
Proof. destruct c as [[] [] [] [] [] [] [] []]; reflexivity. Qed.

(** X7: in ASCII text a character that is neither a letter nor a digit
    separates tokens: the tokens of two ASCII texts joined by such a
    character are the tokens of the first followed by the tokens of the
    second. *)
Theorem X7_Tokenize_separator (s t : string) (sep : ascii) :
  allBytes isASCII s = true → allBytes isASCII t = true → isASCII sep = true →
  IsLetter sep || IsNumber sep = false →
  NLP.Tokenize (s +:+ String sep t) = NLP.Tokenize s ++ NLP.Tokenize t.
Proof.
  intros _ _ _ Hsep. unfold NLP.Tokenize, FieldsFunc.
  rewrite ToLower_app. cbn [ToLower]. rewrite FieldsFunc_from_sep.
  - by rewrite map_app, filter_app.
  - rewrite <- negb_orb, lower_byte_alnum, Hsep. reflexivity.
Qed.

Lemma X7_witness :
  NLP.Tokenize ("Senior Go" +:+ String "," "developer, Berlin")
  = NLP.Tokenize "Senior Go" ++ NLP.Tokenize "developer, Berlin".
Proof.
  apply (X7_Tokenize_separator "Senior Go" "developer, Berlin" ","); reflexivity.
Defined.

(** ** [CalculateTFIDF] *)

Lemma allTerms_lookup_None (documents : list string) (m : gmap string nat) (term : string) :
  m !! term = None →
  (∀ docText, docText ∈ documents → term ∉ NLP.Tokenize docText) →
  fold_left (λ m docText, NLP.countTerms (NLP.Tokenize docText) m) documents m !! term = None.
Proof.
  revert m. induction documents as [|d documents IH]; intros m Hm Hall; [done|].
  cbn [fold_left]. apply IH.
  - rewrite countTerms_lookup.
    assert (Hd : term ∉ NLP.Tokenize d) by (apply Hall; by left).
    rewrite list_elem_of_In, (count_occ_not_In String.string_dec) in Hd. by rewrite Hd.
  - intros docText Hin. apply Hall. by right.
Qed.

(** X8: the keys of the map [CalculateTFIDF] returns are exactly the
    tokens of the documents: a term has a score if and only if some
    document has it among its tokens. *)
Theorem X8_tfidf_keys (documents : list string) (term : string) :
  is_Some (NLP.CalculateTFIDF documents !! term)
  ↔ ∃ docText, docText ∈ documents ∧ term ∈ NLP.Tokenize docText.
Proof.
  unfold NLP.CalculateTFIDF. rewrite map_lookup_imap. split.
  - intros Hsome.
    destruct (decide (Exists (λ docText, term ∈ NLP.Tokenize docText) documents))
      as [Hex|Hno].
    + apply Exists_exists in Hex as (docText & Hin & Hterm). eauto.
    + rewrite allTerms_lookup_None in Hsome.
      * by destruct Hsome.
      * apply lookup_empty.
      * intros docText Hin Hterm. apply Hno, Exists_exists. eauto.
  - intros Hex. destruct (allTerms_lookup documents ∅ term Hex) as [n ->]. cbn. eauto.
Qed.

Lemma docLength_termCount (doc : NLP.Document) (term : string) :
  NLP.termCount doc term ≤ NLP.docLength doc.
Proof.
  unfold NLP.termCount, NLP.docLength.
  destruct (NLP.Terms doc !! term) as [n|] eqn:Hn; cbn; [|lia].
  rewrite <- (insert_delete_id (NLP.Terms doc) term n Hn).
  rewrite map_fold_insert_L.
  - lia.
  - intros. lia.
  - apply lookup_delete_eq.
Qed.

Lemma Rdiv_le_1 (a b : R) : (0 < b)%R → (a <= b)%R → (a / b <= 1)%R.
Proof.
  intros Hb Hab. unfold Rdiv. replace 1%R with (b * / b)%R by (field; lra).
  apply Rmult_le_compat_r; [|done]. left. by apply Rinv_0_lt_compat.
Qed.

Lemma Rdiv_ge_1 (a b : R) : (0 < b)%R → (b <= a)%R → (1 <= a / b)%R.
Proof.
  intros Hb Hab. unfold Rdiv. replace 1%R with (b * / b)%R by (field; lra).
  apply Rmult_le_compat_r; [|done]. left. by apply Rinv_0_lt_compat.
Qed.

(** The sum [totalTFIDF] accumulates, from any starting total: with a
    non-negative [idf] each counted document adds between 0 and [idf]. *)
Lemma totalTFIDF_fold_bounds (docs : list NLP.Document) (term : string) (idf total : R) :
  (0 <= idf)%R →
  let result :=
    fold_left (λ total doc,
                 let tf := NLP.termCount doc term in
                 if (0 <? tf)%nat
                 then (total + INR tf / INR (NLP.docLength doc) * idf)%R
                 else total) docs total in
  (total <= result <= total + INR (NLP.docFreq docs term) * idf)%R.
Proof.
  intros Hidf. cbv zeta. revert total.
  induction docs as [|doc docs IH]; intros total.
  - cbn. lra.
  - cbn [fold_left]. unfold NLP.docFreq.
    destruct (0 <? NLP.termCount doc term)%nat eqn:Htf.
    + apply Nat.ltb_lt in Htf. rewrite filter_cons_True by done.
      cbn [length]. rewrite S_INR.
      pose proof (docLength_termCount doc term) as Hlen.
      assert (Hratio : (0 <= INR (NLP.termCount doc term) / INR (NLP.docLength doc) <= 1)%R).
      { assert (0 < INR (NLP.termCount doc term))%R by (apply lt_0_INR; lia).
        assert (INR (NLP.termCount doc term) <= INR (NLP.docLength doc))%R
          by (by apply le_INR).
        split.
        - apply Rmult_le_pos; [lra|]. apply Rlt_le, Rinv_0_lt_compat. lra.
        - apply Rdiv_le_1; lra. }
      specialize (IH (total + INR (NLP.termCount doc term) / INR (NLP.docLength doc) * idf)%R).
      fold (NLP.docFreq docs term) in IH |- *.
      assert (0 <= INR (NLP.termCount doc term) / INR (NLP.docLength doc) * idf <= idf)%R
        by nra.
      lra.
    + apply Nat.ltb_ge in Htf. rewrite filter_cons_False by lia.
      fold (NLP.docFreq docs term). apply IH.
Qed.

Lemma docFreq_le (docs : list NLP.Document) (term : string) :
  NLP.docFreq docs term ≤ length docs.
Proof. unfold NLP.docFreq. apply length_filter. Qed.

Lemma docFreq_pos (documents : list string) (docText term : string) :
  docText ∈ documents → term ∈ NLP.Tokenize docText →
  0 < NLP.docFreq
        (map (λ docText, {| NLP.Text := docText;
                            NLP.Terms := NLP.termFreq (NLP.Tokenize docText) |}) documents)
        term.
Proof.
  intros Hin Hterm. unfold NLP.docFreq.
  induction documents as [|d documents IH]; [by apply elem_of_nil in Hin|].
  cbn [map]. apply elem_of_cons in Hin as [<-|Hin].
  - rewrite filter_cons_True; [cbn; lia|].
    rewrite termCount_tokens.
    by apply (count_occ_In String.string_dec), list_elem_of_In.
  - specialize (IH Hin).
    destruct (decide (0 < NLP.termCount
                {| NLP.Text := d; NLP.Terms := NLP.termFreq (NLP.Tokenize d) |} term)).
    + rewrite filter_cons_True by done. cbn; lia.
    + by rewrite filter_cons_False.
Qed.

(** X9: in exact arithmetic the score of a term that occurs in a document
    of the corpus is never negative, and it is at most the document
    frequency times the inverse document frequency, each document adding
    at most its [idf]. *)
Theorem X9_tfidf_score_bounds (documents : list string) (docText term : string) :
  docText ∈ documents → term ∈ NLP.Tokenize docText →
  let docs := map (λ docText, {| NLP.Text := docText;
                                 NLP.Terms := NLP.termFreq (NLP.Tokenize docText) |})
                  documents in
  let df := NLP.docFreq docs term in
  let idf := ln (INR (length documents) / INR df) in
  0 < df ≤ length documents
  ∧ (0 <= idf)%R
  ∧ ∃ score, NLP.CalculateTFIDF documents !! term = Some score
             ∧ (0 <= score <= INR df * idf)%R.
Proof.
  intros Hin Hterm docs df idf.
  assert (Hpos : 0 < df) by (by eapply docFreq_pos).
  assert (Hle : df ≤ length documents).
  { unfold df. etrans; [apply docFreq_le|]. unfold docs. by rewrite length_map. }
  assert (Hidf : (0 <= idf)%R).
  { unfold idf. rewrite <- ln_1.
    assert (0 < INR df)%R by (apply lt_0_INR; lia).
    assert (INR df <= INR (length documents))%R by (by apply le_INR).
    assert (H1 : (1 <= INR (length documents) / INR df)%R) by (apply Rdiv_ge_1; lra).
    destruct H1 as [H1|<-]; [|lra]. apply Rlt_le, ln_increasing; lra. }
  split; [done|]. split; [done|].
  unfold NLP.CalculateTFIDF. rewrite map_lookup_imap.
  destruct (allTerms_lookup documents ∅ term) as [n Hn]; [eauto|].
  rewrite Hn. cbn. eexists. split; [reflexivity|].
  pose proof (totalTFIDF_fold_bounds docs term idf 0 Hidf) as Hb. cbv zeta in Hb.
  rewrite Rplus_0_l in Hb. exact Hb.
Qed.

Lemma X9_witness :
  let documents := ["java golang"; "rust java java"] in
  let docs := map (λ docText, {| NLP.Text := docText;
                                 NLP.Terms := NLP.termFreq (NLP.Tokenize docText) |})
                  documents in
  let df := NLP.docFreq docs "golang" in
  let idf := ln (INR (length documents) / INR df) in
  0 < df ≤ length documents
  ∧ (0 <= idf)%R
  ∧ ∃ score, NLP.CalculateTFIDF documents !! "golang" = Some score
             ∧ (0 <= score <= INR df * idf)%R.
Proof.
  apply (X9_tfidf_score_bounds ["java golang"; "rust java java"] "java golang" "golang").
  - by left.
  - apply list_elem_of_In. vm_compute. tauto.
Defined.

(** ** The experience score against a job description *)

Lemma Float_eqb_eq (x y : Q) : Float.eqb x y = true ↔ (x == y)%Q.
Proof. apply Qeq_bool_iff. Qed.

Lemma Float_eqb_neq (x y : Q) : Float.eqb x y = false ↔ ¬ (x == y)%Q.
Proof.
  unfold Float.eqb. rewrite <- Qeq_bool_iff. destruct (Qeq_bool x y); split; congruence.
Qed.

Lemma Float_of_int_le (a b : Z) : (Float.of_int a <= Float.of_int b)%Q ↔ (a ≤ b)%Z.
Proof. unfold Float.of_int. by rewrite Zle_Qle. Qed.

(** X10: the experience score never exceeds 1; it is 1 when the
    requirement is met and when the job asks for no (or a negative number
    of) years; otherwise it is the candidate's years over the required
    years, below 1. *)
Theorem X10_experience_score_cases
    (now : Time.Time) (resume : Resume.t) (jobDesc : JobDescription.t) :
  let result := Scorer.calculateExperienceMatch now resume jobDesc in
  let candidateYears := Resume.CalculateExperienceYears now resume in
  let requiredYears := Float.of_int (JobDescription.MinExperience jobDesc) in
  (ExperienceResult.Score result <= 1)%Q
  ∧ (ExperienceResult.MeetsRequirement result = true ↔ (requiredYears <= candidateYears)%Q)
  ∧ (ExperienceResult.MeetsRequirement result = true → ExperienceResult.Score result = 1%Q)
  ∧ ((JobDescription.MinExperience jobDesc ≤ 0)%Z → ExperienceResult.Score result = 1%Q)
  ∧ (ExperienceResult.MeetsRequirement result = false →
     (0 < JobDescription.MinExperience jobDesc)%Z →
     ExperienceResult.Score result = (candidateYears / requiredYears)%Q
     ∧ (ExperienceResult.Score result < 1)%Q).
Proof.
  cbv zeta. unfold Scorer.calculateExperienceMatch.
  cbn [ExperienceResult.Score ExperienceResult.MeetsRequirement].
  set (candidateYears := Resume.CalculateExperienceYears now resume).
  set (requiredYears := Float.of_int (JobDescription.MinExperience jobDesc)).
  assert (Hreq : ∀ z : Z, (z ≤ 0)%Z → (Float.of_int z <= 0)%Q).
  { intros z Hz. change 0%Q with (Float.of_int 0). by apply Float_of_int_le. }
  assert (Hreq' : ∀ z : Z, (0 < z)%Z → (0 < Float.of_int z)%Q).
  { intros z Hz. unfold Float.of_int. change 0%Q with (inject_Z 0). by rewrite <- Zlt_Qlt. }
  split; [|split; [|split; [|split]]].
  - destruct (Float.eqb requiredYears 0); [Lqa.lra|].
    destruct (Float.leb requiredYears candidateYears); [Lqa.lra|].
    destruct (Float.ltb 1 (candidateYears / requiredYears)) eqn:Hcap; [Lqa.lra|].
    by apply Float_ltb_ge in Hcap.
  - apply Float_leb_le.
  - intros ->. by destruct (Float.eqb requiredYears 0).
  - intros Hmin. apply Hreq in Hmin. fold requiredYears in Hmin.
    destruct (Float.eqb requiredYears 0) eqn:Hzero; [done|].
    destruct (Float.leb requiredYears candidateYears) eqn:Hmeets; [done|].
    apply Float_eqb_neq in Hzero. apply Float_leb_gt in Hmeets.
    assert (Hcap : Float.ltb 1 (candidateYears / requiredYears) = true).
    { apply Float_ltb_lt.
      assert (Hneg : (0 < - requiredYears)%Q) by Lqa.lra.
      assert (Heq : (candidateYears / requiredYears
                     == (- candidateYears) / (- requiredYears))%Q) by (field; Lqa.lra).
      rewrite Heq. apply Qlt_shift_div_l; [done|]. Lqa.lra. }
    by rewrite Hcap.
  - intros Hmeets Hmin. apply Hreq' in Hmin. fold requiredYears in Hmin.
    rewrite Hmeets. apply Float_leb_gt in Hmeets.
    destruct (Float.eqb requiredYears 0) eqn:Hzero.
    { apply Float_eqb_eq in Hzero. Lqa.lra. }
    assert (Hlt : (candidateYears / requiredYears < 1)%Q).
    { apply Qlt_shift_div_r; [done|]. Lqa.lra. }
    destruct (Float.ltb 1 (candidateYears / requiredYears)) eqn:Hcap.
    { apply Float_ltb_lt in Hcap. Lqa.lra. }
    done.
Qed.

(** ** Experience entries whose dates are in order *)

Lemma Sub_nonneg (t u : Time.Time) : (u ≤ t)%Z → (0 ≤ Time.Sub t u)%Z.
Proof.
  intros Hle. unfold Time.Sub, Time.minDuration, Time.maxDuration.
  destruct (Z.ltb_spec (t - u) (- 2 ^ 63)); [lia|].
  destruct (Z.ltb_spec (2 ^ 63 - 1) (t - u)); lia.
Qed.

Lemma Hours_nonneg (d : Time.Duration) : (0 ≤ d)%Z → (0 <= Time.Hours d)%Q.
Proof.
  intros Hd. unfold Time.Hours, Float.of_int.
  assert (Hq : (0 ≤ Z.quot d Time.Hour)%Z) by (apply Z.quot_pos; [done|by vm_compute]).
  assert (Hr : (0 ≤ Z.rem d Time.Hour)%Z) by (apply Z.rem_nonneg; [by vm_compute|done]).
  rewrite Zle_Qle in Hq, Hr.
  assert (Hh : (0 < inject_Z Time.Hour)%Q) by (by vm_compute).
  assert (0 <= inject_Z (Z.rem d Time.Hour) / inject_Z Time.Hour)%Q.
  { apply Qle_shift_div_l; [done|]. by rewrite Qmult_0_l. }
  change (inject_Z 0) with 0%Q in *. Lqa.lra.
Qed.

Lemma years_nonneg (now : Time.Time) (exp : Experience.t) :
  (Experience.StartDate exp ≤ default now (Experience.EndDate exp))%Z →
  (0 <= Resume.years now exp)%Q.
Proof.
  intros Hle. unfold Resume.years.
  apply Qle_shift_div_l; [by vm_compute|]. rewrite Qmult_0_l.
  apply Hours_nonneg, Sub_nonneg. by destruct (Experience.EndDate exp).
Qed.

Lemma CalculateExperienceYears_nonneg (now : Time.Time) (resume : Resume.t) :
  Forall (λ exp, (Experience.StartDate exp ≤ default now (Experience.EndDate exp))%Z)
         (Resume.Experience resume) →
  (0 <= Resume.CalculateExperienceYears now resume)%Q.
Proof.
  unfold Resume.CalculateExperienceYears. intros Hall.
  assert (Hfold : ∀ total, (0 <= total)%Q →
            (0 <= fold_left (λ totalYears exp, (totalYears + Resume.years now exp)%Q)
                            (Resume.Experience resume) total)%Q).
  { induction Hall as [|exp exps Hexp _ IH]; intros total Htotal; [done|].
    cbn [fold_left]. apply IH. pose proof (years_nonneg now exp Hexp). Lqa.lra. }
  by apply Hfold.
Qed.

(** X11: when no experience entry ends before it starts (an open entry
    ending at the clock reading), the candidate's years are not negative
    and the experience score lies between 0 and 1. *)
Theorem X11_experience_score_range
    (now : Time.Time) (resume : Resume.t) (jobDesc : JobDescription.t) :
  Forall (λ exp, (Experience.StartDate exp ≤ default now (Experience.EndDate exp))%Z)
         (Resume.Experience resume) →
  let result := Scorer.calculateExperienceMatch now resume jobDesc in
  (0 <= ExperienceResult.YearsCandidate result)%Q
  ∧ (0 <= ExperienceResult.Score result <= 1)%Q.
Proof.
  intros Hall%CalculateExperienceYears_nonneg result.
  destruct (calculateExperienceMatch_bounds now resume jobDesc) as [Hle Hge].
  split; [exact Hall|]. split; [by apply Hge|exact Hle].
Qed.

Lemma X11_witness :
  let result := Scorer.calculateExperienceMatch Inputs.jan2022 Inputs.resumeCurrent
                                                (Inputs.jobAsking 5) in
  (0 <= ExperienceResult.YearsCandidate result)%Q
  ∧ (0 <= ExperienceResult.Score result <= 1)%Q.
Proof.
  apply (X11_experience_score_range Inputs.jan2022 Inputs.resumeCurrent (Inputs.jobAsking 5)).
  repeat constructor. by vm_compute.
Defined.

(** ** The format score *)

Lemma Float_of_nat_le (a b : nat) : a ≤ b → (Float.of_nat a <= Float.of_nat b)%Q.
Proof. intros Hab. unfold Float.of_nat. rewrite <- Zle_Qle. lia. Qed.

Lemma analyzeAdditionalFormatIssues_length (resume : Resume.t) :
  length (Scorer.analyzeAdditionalFormatIssues resume) ≤ 5.
Proof.
  unfold Scorer.analyzeAdditionalFormatIssues. cbv zeta. rewrite !length_app.
  repeat match goal with |- context [if ?b then _ else _] => destruct b end;
    cbn [length]; lia.
Qed.

(** The score as a function of the number of issues. *)
Lemma formatScore_by_count (resume : Resume.t) :
  let result := Scorer.calculateFormatScore resume in
  (FormatResult.Score result
   == match length (FormatResult.Issues result) with
      | 0%nat => 1 | 1%nat => 0.8 | 2%nat => 0.6 | 3%nat => 0.4 | _ => 0.3
      end)%Q.
Proof.
  cbv zeta. unfold Scorer.calculateFormatScore.
  cbn [FormatResult.Score FormatResult.Issues].
  destruct (length _) as [|[|[|[|n]]]]; [by vm_compute..|].
  cbn [Nat.ltb Nat.leb].
  assert (Hn : (Float.of_nat 4 <= Float.of_nat (S (S (S (S n)))))%Q)
    by (apply Float_of_nat_le; lia).
  change (Float.of_nat 4) with 4%Q in Hn.
  assert (Hlt : Float.ltb (1 - Float.of_nat (S (S (S (S n)))) * 0.2) 0.3 = true)
    by (apply Float_ltb_lt; Lqa.lra).
  rewrite Hlt. reflexivity.
Qed.

Lemma if_singleton_nil {A} (b : bool) (x : A) : (if b then [x] else []) = [] ↔ b = false.
Proof. destruct b; split; congruence. Qed.

(** The format score is perfect exactly when the parser recorded no
    issue and the resume has an email address, a phone number, skills,
    experience or education, and at most 1000 space-separated pieces of
    text. *)
Lemma formatScore_perfect (resume : Resume.t) :
  (FormatResult.Score (Scorer.calculateFormatScore resume) == 1)%Q
  ↔ Resume.FormatIssues resume = []
    ∧ PersonalInfo.Email (Resume.PersonalInfo resume) ≠ ""
    ∧ PersonalInfo.Phone (Resume.PersonalInfo resume) ≠ ""
    ∧ (Resume.Experience resume ≠ [] ∨ Resume.Education resume ≠ [])
    ∧ Resume.Skills resume ≠ []
    ∧ length (Split (Resume.RawText resume) " ") ≤ 1000.
Proof.
  pose proof (formatScore_by_count resume) as Hscore. cbv zeta in Hscore.
  rewrite Hscore.
  assert (Hnil : (match length (FormatResult.Issues (Scorer.calculateFormatScore resume)) with
                  | 0%nat => 1 | 1%nat => 0.8 | 2%nat => 0.6 | 3%nat => 0.4 | _ => 0.3 end == 1)%Q
                 ↔ FormatResult.Issues (Scorer.calculateFormatScore resume) = []).
  { destruct (FormatResult.Issues _) as [|? [|? [|? [|? ?]]]]; cbn [length];
      split; first [done | by vm_compute]. }
  rewrite Hnil. unfold Scorer.calculateFormatScore. cbn [FormatResult.Issues].
  unfold Scorer.analyzeAdditionalFormatIssues. cbv zeta.
  rewrite !app_nil, !if_singleton_nil.
  rewrite String.eqb_neq, String.eqb_neq, Nat.ltb_ge.
  rewrite andb_false_iff, !negb_false_iff, !Nat.ltb_lt.
  destruct (Resume.Experience resume), (Resume.Education resume), (Resume.Skills resume);
    cbn [length]; intuition (try congruence; try lia).
Qed.

(** X12: the format score falls with the number of issues: 1 for none,
    0.8 for one, 0.6 for two, above 0.3 and at most 0.4 for three (0.4 in
    exact arithmetic, a little less in [float64], where 3 * 0.2 is
    rounded up), and 0.3 from four on; so it lies between 0.3 and 1.  A
    resume is ATS friendly exactly when it has at most one issue, and its
    score is then at least 0.8; the issues are those the parser recorded
    followed by at most five more.  The score is 1 exactly when the
    parser recorded no issue and the resume has an email address, a phone
    number, skills, experience or education, and at most 1000
    space-separated pieces of text. *)
Theorem X12_format_score_steps (resume : Resume.t) :
  let result := Scorer.calculateFormatScore resume in
  let n := length (FormatResult.Issues result) in
  (n = 0 → (FormatResult.Score result == 1)%Q)
  ∧ (n = 1 → (FormatResult.Score result == 0.8)%Q)
  ∧ (n = 2 → (FormatResult.Score result == 0.6)%Q)
  ∧ (n = 3 → (0.3 < FormatResult.Score result <= 0.4)%Q)
  ∧ (4 ≤ n → (FormatResult.Score result == 0.3)%Q)
  ∧ (0.3 <= FormatResult.Score result <= 1)%Q
  ∧ (FormatResult.IsATSFriendly result = true ↔ n ≤ 1)
  ∧ (FormatResult.IsATSFriendly result = true → (0.8 <= FormatResult.Score result)%Q)
  ∧ Resume.FormatIssues resume `prefix_of` FormatResult.Issues result
  ∧ length (Resume.FormatIssues resume) ≤ n ≤ length (Resume.FormatIssues resume) + 5
  ∧ ((FormatResult.Score result == 1)%Q
     ↔ Resume.FormatIssues resume = []
       ∧ PersonalInfo.Email (Resume.PersonalInfo resume) ≠ ""
       ∧ PersonalInfo.Phone (Resume.PersonalInfo resume) ≠ ""
       ∧ (Resume.Experience resume ≠ [] ∨ Resume.Education resume ≠ [])
       ∧ Resume.Skills resume ≠ []
       ∧ length (Split (Resume.RawText resume) " ") ≤ 1000).
Proof.
  intros result n. pose proof (formatScore_by_count resume) as Hscore.
  cbv zeta in Hscore. fold result in Hscore. fold n in Hscore.
  assert (Hats : FormatResult.IsATSFriendly result = true ↔ n ≤ 1).
  { unfold result, n, Scorer.calculateFormatScore.
    cbn [FormatResult.IsATSFriendly FormatResult.Issues]. apply Nat.leb_le. }
  split; [intros Hn; rewrite Hscore, Hn; reflexivity|].
  split; [intros Hn; rewrite Hscore, Hn; reflexivity|].
  split; [intros Hn; rewrite Hscore, Hn; reflexivity|].
  split; [intros Hn; rewrite Hscore, Hn; split; by vm_compute|].
  split; [intros Hn; rewrite Hscore; destruct n as [|[|[|[|?]]]]; [lia..|reflexivity]|].
  split; [|split; [exact Hats|split; [|split; [|split]]]].
  - rewrite Hscore. destruct n as [|[|[|[|?]]]]; split; by vm_compute.
  - intros Hn%Hats. rewrite Hscore. destruct n as [|[|?]]; [by vm_compute..|lia].
  - by eexists.
  - unfold n, result, Scorer.calculateFormatScore. cbn [FormatResult.Issues].
    rewrite length_app. pose proof (analyzeAdditionalFormatIssues_length resume). lia.
  - apply formatScore_perfect.
Qed.



(** ** Education *)

Lemma HasPrefix_nil (s : string) : HasPrefix s "" = true.
Proof. by destruct s. Qed.

Lemma HasPrefix_refl (s : string) : HasPrefix s s = true.
Proof. induction s as [|c s IH]; [done|]. cbn. by rewrite Ascii.eqb_refl. Qed.

Lemma Contains_nil (s : string) : Contains s "" = true.
Proof. destruct s; cbn; by rewrite ?HasPrefix_nil. Qed.

Lemma Contains_refl (s : string) : Contains s s = true.
Proof. destruct s; cbn; [done|]. by rewrite Ascii.eqb_refl, HasPrefix_refl. Qed.

Lemma classMatches_sym (a b : string) (ranged : list (string * list string)) :
  Scorer.classMatches a b ranged = Scorer.classMatches b a ranged.
Proof.
  unfold Scorer.classMatches. induction ranged as [|[degree aliases] ranged IH]; [done|].
  cbn [existsb]. by rewrite IH, andb_comm.
Qed.

(** X13: [educationMatches] is symmetric and reflexive, does not depend
    on the letter case of either side, and an empty string on either side
    matches everything. *)
Theorem X13_educationMatches_relation (candidateEd requiredEd : string) :
  Scorer.educationMatches candidateEd requiredEd
    = Scorer.educationMatches requiredEd candidateEd
  ∧ Scorer.educationMatches candidateEd candidateEd = true
  ∧ Scorer.educationMatches candidateEd "" = true
  ∧ Scorer.educationMatches "" requiredEd = true
  ∧ Scorer.educationMatches (ToLower candidateEd) requiredEd
    = Scorer.educationMatches candidateEd requiredEd
  ∧ Scorer.educationMatches candidateEd (ToLower requiredEd)
    = Scorer.educationMatches candidateEd requiredEd.
Proof.
  unfold Scorer.educationMatches. cbv zeta. split_and!.
  - rewrite (orb_comm (Contains (ToLower candidateEd) _)).
    by rewrite (classMatches_sym (ToLower candidateEd)).
  - by rewrite Contains_refl.
  - change (ToLower "") with "". by rewrite Contains_nil.
  - change (ToLower "") with "". by rewrite Contains_nil, orb_true_r.
  - by rewrite ToLower_idemp.
  - by rewrite ToLower_idemp.
Qed.

Lemma matchedDegrees_elem_of (education : list Education.t) (required : list string)
    (degree : string) :
  degree ∈ Scorer.matchedDegrees education required
  ↔ ∃ resumeEd requiredEd,
      resumeEd ∈ education ∧ requiredEd ∈ required
      ∧ Education.Degree resumeEd = degree
      ∧ Scorer.educationMatches degree requiredEd = true.
Proof.
  unfold Scorer.matchedDegrees. rewrite list_elem_of_In, in_flat_map. split.
  - intros (resumeEd & Hin & (requiredEd & Hreq & Hd)%in_flat_map).
    destruct (Scorer.educationMatches _ _) eqn:Hm; [|done].
    destruct Hd as [<-|[]]. exists resumeEd, requiredEd.
    by rewrite !list_elem_of_In.
  - intros (resumeEd & requiredEd & Hin & Hreq & <- & Hm).
    exists resumeEd. split; [by apply list_elem_of_In|].
    apply in_flat_map. exists requiredEd. split; [by apply list_elem_of_In|].
    rewrite Hm. by left.
Qed.

(** X14: the education score is 1, 0.5 or 0: 1 exactly when the job names
    no education or some degree of the resume matches a required one
    (which is when [HasRequiredEducation] is set), 0 exactly when the job
    names an education and the resume lists none; the matched degrees are
    degrees of the resume, each matching a required one. *)
Theorem X14_education_match_cases (resume : Resume.t) (jobDesc : JobDescription.t) :
  let result := Scorer.calculateEducationMatch resume jobDesc in
  let matches :=
    ∃ resumeEd requiredEd,
      resumeEd ∈ Resume.Education resume
      ∧ requiredEd ∈ JobDescription.Education jobDesc
      ∧ Scorer.educationMatches (Education.Degree resumeEd) requiredEd = true in
  (EducationResult.Score result = 1%Q ∨ EducationResult.Score result = 0.5%Q
   ∨ EducationResult.Score result = 0%Q)
  ∧ (EducationResult.HasRequiredEducation result = true
     ↔ EducationResult.Score result = 1%Q)
  ∧ (EducationResult.HasRequiredEducation result = true
     ↔ JobDescription.Education jobDesc = [] ∨ matches)
  ∧ (EducationResult.Score result = 0%Q
     ↔ JobDescription.Education jobDesc ≠ [] ∧ Resume.Education resume = [] )
  ∧ (∀ degree, degree ∈ EducationResult.MatchedDegrees result →
       ∃ resumeEd requiredEd,
         resumeEd ∈ Resume.Education resume
         ∧ requiredEd ∈ JobDescription.Education jobDesc
         ∧ Education.Degree resumeEd = degree
         ∧ Scorer.educationMatches degree requiredEd = true).
Proof.
  cbv zeta. unfold Scorer.calculateEducationMatch.
  destruct (JobDescription.Education jobDesc) as [|req reqs] eqn:Hreq.
  { cbn. split_and!; [tauto|done|tauto| |].
    - split; [discriminate|]. by intros [? _].
    - intros degree Hd. by apply elem_of_nil in Hd. }
  cbn [length Nat.eqb EducationResult.Score EducationResult.HasRequiredEducation
       EducationResult.MatchedDegrees].
  set (matched := Scorer.matchedDegrees (Resume.Education resume) (req :: reqs)).
  assert (Hmatched : (0 <? length matched)%nat = true
                     ↔ ∃ resumeEd requiredEd,
                         resumeEd ∈ Resume.Education resume
                         ∧ requiredEd ∈ req :: reqs
                         ∧ Scorer.educationMatches (Education.Degree resumeEd) requiredEd
                           = true).
  { rewrite Nat.ltb_lt. split.
    - destruct matched as [|degree rest] eqn:Hm; [cbn; lia|]. intros _.
      assert (Hd : degree ∈ matched) by (rewrite Hm; by left).
      apply matchedDegrees_elem_of in Hd as (resumeEd & requiredEd & ? & ? & <- & ?).
      by exists resumeEd, requiredEd.
    - intros (resumeEd & requiredEd & Hin & Hr & Hm).
      assert (Hd : Education.Degree resumeEd ∈ matched).
      { apply matchedDegrees_elem_of. by exists resumeEd, requiredEd. }
      destruct matched; [by apply elem_of_nil in Hd|cbn; lia]. }
  assert (Hnone : Resume.Education resume = [] → (0 <? length matched)%nat = false).
  { intros Hnil. unfold matched. by rewrite Hnil. }
  split_and!.
  - destruct (0 <? length matched)%nat; [tauto|].
    destruct (0 <? length (Resume.Education resume))%nat; tauto.
  - destruct (0 <? length matched)%nat; [done|].
    destruct (0 <? length (Resume.Education resume))%nat; split;
      intros Heq; first [discriminate Heq | vm_compute in Heq; discriminate Heq].
  - rewrite Hmatched. split; [tauto|]. by intros [?|?].
  - destruct (0 <? length matched)%nat eqn:Hm.
    + split; [intros Heq; vm_compute in Heq; discriminate Heq|].
      intros [_ Hnil]. apply Hnone in Hnil. congruence.
    + destruct (Resume.Education resume); cbn [length Nat.ltb Nat.leb]; split.
      * done.
      * done.
      * intros Heq. vm_compute in Heq. discriminate Heq.
      * by intros [_ ?].
  - intros degree Hd. by apply matchedDegrees_elem_of in Hd.
Qed.

(** ** The component scores without a job description *)

Lemma Float_of_nat_lt (a b : nat) : a < b → (Float.of_nat a < Float.of_nat b)%Q.
Proof. intros Hab. unfold Float.of_nat. rewrite <- Zlt_Qlt. lia. Qed.

Lemma Qdiv_20 (x : Q) : (x / 20 == x * (1 # 20))%Q.
Proof. reflexivity. Qed.

(** The skill score as a function of the number of skills. *)
Lemma skillScore_by_count (resume : Resume.t) :
  let n := length (Resume.Skills resume) in
  (Scorer.calculateSkillScoreStandalone resume
   == if (n =? 0)%nat then 0
      else if (14 <=? n)%nat then 1
      else 0.3 + Float.of_nat n / 20)%Q.
Proof.
  cbv zeta. unfold Scorer.calculateSkillScoreStandalone. cbv zeta.
  set (n := length (Resume.Skills resume)).
  pose proof (Qdiv_20 (Float.of_nat n)) as Hdiv.
  destruct (n =? 0)%nat; [reflexivity|].
  destruct (Nat.leb_spec 14 n) as [Hn|Hn].
  - apply Float_of_nat_le in Hn. change (Float.of_nat 14) with 14%Q in Hn.
    destruct (Float.ltb 0.7 (Float.of_nat n / 20)) eqn:Hcap; [by vm_compute|].
    apply Float_ltb_ge in Hcap. Lqa.lra.
  - apply Float_of_nat_lt in Hn. change (Float.of_nat 14) with 14%Q in Hn.
    destruct (Float.ltb 0.7 (Float.of_nat n / 20)) eqn:Hcap; [|reflexivity].
    apply Float_ltb_lt in Hcap. Lqa.lra.
Qed.

(** X15: the standalone skill score grows with the number of skills: it
    is 0 for no skill and only then, at least 0.35 from the first skill
    on, and 1 exactly from 14 skills on. *)
Theorem X15_skill_score_standalone (resume1 resume2 : Resume.t) :
  length (Resume.Skills resume1) ≤ length (Resume.Skills resume2) →
  let score1 := Scorer.calculateSkillScoreStandalone resume1 in
  let score2 := Scorer.calculateSkillScoreStandalone resume2 in
  (score1 <= score2)%Q
  ∧ (0 <= score1 <= 1)%Q
  ∧ ((score1 == 0)%Q ↔ Resume.Skills resume1 = [])
  ∧ (Resume.Skills resume1 ≠ [] → (0.35 <= score1)%Q)
  ∧ ((score1 == 1)%Q ↔ 14 ≤ length (Resume.Skills resume1)).
Proof.
  intros Hle. cbv zeta.
  pose proof (skillScore_by_count resume1) as H1.
  pose proof (skillScore_by_count resume2) as H2. cbv zeta in H1, H2.
  rewrite H1, H2. clear H1 H2.
  assert (Hnil : Resume.Skills resume1 = [] ↔ length (Resume.Skills resume1) = 0)
    by (by destruct (Resume.Skills resume1)).
  rewrite Hnil. clear Hnil.
  generalize dependent (length (Resume.Skills resume2)).
  generalize (length (Resume.Skills resume1)). intros n1 n2 Hle.
  assert (Hpos : ∀ n, 0 < n → (1 <= Float.of_nat n)%Q) by apply Float_of_nat_ge_1.
  assert (Hlt : ∀ n, n < 14 → (Float.of_nat n <= 13)%Q).
  { intros n Hn. change 13%Q with (Float.of_nat 13). apply Float_of_nat_le. lia. }
  pose proof (Float_of_nat_le n1 n2 Hle) as Hmono.
  pose proof (Qdiv_20 (Float.of_nat n1)) as Hdiv1.
  pose proof (Qdiv_20 (Float.of_nat n2)) as Hdiv2.
  destruct (Nat.eqb_spec n1 0) as [->|Hn1].
  - split; [|split; [|split; [|split]]].
    + destruct (Nat.eqb_spec n2 0); [by vm_compute|].
      destruct (Nat.leb_spec 14 n2); [by vm_compute|].
      specialize (Hpos n2 ltac:(lia)). Lqa.lra.
    + by vm_compute.
    + done.
    + done.
    + cbn. split; [by vm_compute|lia].
  - specialize (Hpos n1 ltac:(lia)).
    destruct (Nat.eqb_spec n2 0) as [->|Hn2]; [lia|].
    destruct (Nat.leb_spec 14 n1) as [H14|H14].
    + destruct (Nat.leb_spec 14 n2); [|lia].
      split; [|split; [|split; [|split]]].
      * by vm_compute.
      * by vm_compute.
      * split; [by vm_compute|lia].
      * by vm_compute.
      * done.
    + specialize (Hlt n1 H14).
      split; [|split; [|split; [|split]]].
      * destruct (Nat.leb_spec 14 n2); Lqa.lra.
      * Lqa.lra.
      * split; [intros ?; Lqa.lra|lia].
      * intros _. Lqa.lra.
      * split; [intros ?; Lqa.lra|lia].
Qed.

Lemma X15_witness :
  let resume1 := Resume.set_Skills (Resume.fresh "") ["go"] in
  let resume2 := Resume.set_Skills (Resume.fresh "") ["go"; "sql"; "docker"] in
  let score1 := Scorer.calculateSkillScoreStandalone resume1 in
  let score2 := Scorer.calculateSkillScoreStandalone resume2 in
  (score1 <= score2)%Q
  ∧ (0 <= score1 <= 1)%Q
  ∧ ((score1 == 0)%Q ↔ Resume.Skills resume1 = [])
  ∧ (Resume.Skills resume1 ≠ [] → (0.35 <= score1)%Q)
  ∧ ((score1 == 1)%Q ↔ 14 ≤ length (Resume.Skills resume1)).
Proof.
  apply (X15_skill_score_standalone
           (Resume.set_Skills (Resume.fresh "") ["go"])
           (Resume.set_Skills (Resume.fresh "") ["go"; "sql"; "docker"])).
  cbn. lia.
Defined.

(** The bands of [calculateExperienceScoreStandalone], by the years. *)
Lemma experienceScore_by_years (now : Time.Time) (resume : Resume.t) :
  let years := Resume.CalculateExperienceYears now resume in
  let score := Scorer.calculateExperienceScoreStandalone now resume in
  ((years == 0)%Q ∧ score = 0%Q)
  ∨ (¬ (years == 0)%Q ∧ (years < 1)%Q ∧ score = 0.2%Q)
  ∨ ((1 <= years < 3)%Q ∧ score = 0.5%Q)
  ∨ ((3 <= years < 5)%Q ∧ score = 0.7%Q)
  ∨ ((5 <= years < 10)%Q ∧ score = 0.9%Q)
  ∨ ((10 <= years)%Q ∧ score = 1%Q).
Proof.
  cbv zeta. unfold Scorer.calculateExperienceScoreStandalone. cbv zeta.
  set (years := Resume.CalculateExperienceYears now resume).
  destruct (Float.eqb years 0) eqn:H0;
    [apply Float_eqb_eq in H0; tauto|apply Float_eqb_neq in H0].
  destruct (Float.ltb years 1) eqn:H1;
    [apply Float_ltb_lt in H1; tauto|apply Float_ltb_ge in H1].
  destruct (Float.ltb years 3) eqn:H3;
    [apply Float_ltb_lt in H3; tauto|apply Float_ltb_ge in H3].
  destruct (Float.ltb years 5) eqn:H5;
    [apply Float_ltb_lt in H5; tauto|apply Float_ltb_ge in H5].
  destruct (Float.ltb years 10) eqn:H10;
    [apply Float_ltb_lt in H10; tauto|apply Float_ltb_ge in H10].
  tauto.
Qed.

(** X16: the standalone experience score is one of six values between 0
    and 1; it is 0 exactly for zero years and 1 exactly from ten years
    on.  A negative total, which entries ending before they start
    produce, scores 0.2; over non-negative totals the score grows with
    the years. *)
Theorem X16_experience_score_standalone
    (now1 now2 : Time.Time) (resume1 resume2 : Resume.t) :
  let years1 := Resume.CalculateExperienceYears now1 resume1 in
  let years2 := Resume.CalculateExperienceYears now2 resume2 in
  let score1 := Scorer.calculateExperienceScoreStandalone now1 resume1 in
  let score2 := Scorer.calculateExperienceScoreStandalone now2 resume2 in
  (0 <= score1 <= 1)%Q
  ∧ (score1 = 0 ∨ score1 = 0.2 ∨ score1 = 0.5 ∨ score1 = 0.7 ∨ score1 = 0.9 ∨ score1 = 1)%Q
  ∧ ((score1 == 0)%Q ↔ (years1 == 0)%Q)
  ∧ ((score1 == 1)%Q ↔ (10 <= years1)%Q)
  ∧ ((years1 < 0)%Q → score1 = 0.2%Q)
  ∧ ((0 <= years1)%Q → (years1 <= years2)%Q → (score1 <= score2)%Q).
Proof.
  cbv zeta.
  pose proof (experienceScore_by_years now1 resume1) as H1.
  pose proof (experienceScore_by_years now2 resume2) as H2. cbv zeta in H1, H2.
  set (years1 := Resume.CalculateExperienceYears now1 resume1) in *.
  set (years2 := Resume.CalculateExperienceYears now2 resume2) in *.
  set (score1 := Scorer.calculateExperienceScoreStandalone now1 resume1) in *.
  set (score2 := Scorer.calculateExperienceScoreStandalone now2 resume2) in *.
  clearbody years1 years2 score1 score2.
  assert (Hconst : (0 < 0.2)%Q ∧ (0.2 < 0.5)%Q ∧ (0.5 < 0.7)%Q ∧ (0.7 < 0.9)%Q ∧ (0.9 < 1)%Q)
    by (by vm_compute).
  split; [|split; [|split; [|split; [|split]]]].
  - destruct H1 as [[Hy1 ->]|[(Hn1 & Hy1 & ->)|[[Hy1 ->]|[[Hy1 ->]|[[Hy1 ->]|[Hy1 ->]]]]]];
      Lqa.lra.
  - destruct H1 as [[Hy1 ->]|[(Hn1 & Hy1 & ->)|[[Hy1 ->]|[[Hy1 ->]|[[Hy1 ->]|[Hy1 ->]]]]]];
      tauto.
  - destruct H1 as [[Hy1 ->]|[(Hn1 & Hy1 & ->)|[[Hy1 ->]|[[Hy1 ->]|[[Hy1 ->]|[Hy1 ->]]]]]];
      split; intros ?;
      first [ Lqa.lra | exfalso; first [apply Hn1; Lqa.lra | Lqa.lra] ].
  - destruct H1 as [[Hy1 ->]|[(Hn1 & Hy1 & ->)|[[Hy1 ->]|[[Hy1 ->]|[[Hy1 ->]|[Hy1 ->]]]]]];
      split; intros ?; first [ Lqa.lra | exfalso; Lqa.lra ].
  - intros Hneg.
    destruct H1 as [[Hy1 ->]|[(Hn1 & Hy1 & ->)|[[Hy1 ->]|[[Hy1 ->]|[[Hy1 ->]|[Hy1 ->]]]]]];
      first [ reflexivity | exfalso; Lqa.lra ].
  - intros Hpos Hle.
    destruct H1 as [[Hy1 ->]|[(Hn1 & Hy1 & ->)|[[Hy1 ->]|[[Hy1 ->]|[[Hy1 ->]|[Hy1 ->]]]]]];
    destruct H2 as [[Hy2 ->]|[(Hn2 & Hy2 & ->)|[[Hy2 ->]|[[Hy2 ->]|[[Hy2 ->]|[Hy2 ->]]]]]];
      first [ Lqa.lra
            | exfalso; apply Hn2; Lqa.lra
            | exfalso; apply Hn1; Lqa.lra ].
Qed.

Lemma X16_witness :
  let years1 := Resume.CalculateExperienceYears Inputs.jan2021 Inputs.resumeCurrent in
  let years2 := Resume.CalculateExperienceYears Inputs.jan2022 Inputs.resumeCurrent in
  let score1 := Scorer.calculateExperienceScoreStandalone Inputs.jan2021 Inputs.resumeCurrent in
  let score2 := Scorer.calculateExperienceScoreStandalone Inputs.jan2022 Inputs.resumeCurrent in
  (0 <= score1 <= 1)%Q
  ∧ ((score1 == 0)%Q ↔ (years1 == 0)%Q)
  ∧ ((score1 == 1)%Q ↔ (10 <= years1)%Q)
  ∧ (score1 <= score2)%Q.
Proof.
  destruct (X16_experience_score_standalone Inputs.jan2021 Inputs.jan2022
              Inputs.resumeCurrent Inputs.resumeCurrent)
    as (Hrange & _ & Hzero & Hone & _ & Hmono).
  split; [exact Hrange|]. split; [exact Hzero|]. split; [exact Hone|].
  apply Hmono; by vm_compute.
Defined.

Lemma degreeScore_range (degree : string) : (0.4 <= Scorer.degreeScore degree <= 1)%Q.
Proof.
  unfold Scorer.degreeScore.
  repeat match goal with |- context [if ?b then _ else _] => destruct b end;
    split; by vm_compute.
Qed.

(** The running maximum of [calculateEducationScoreStandalone]. *)
Lemma maxScore_fold (education : list Education.t) (maxScore : Q) :
  let result :=
    fold_left (λ maxScore edu,
                 let score := Scorer.degreeScore (ToLower (Education.Degree edu)) in
                 if Float.ltb maxScore score then score else maxScore)
              education maxScore in
  (maxScore <= result)%Q
  ∧ (∀ edu, edu ∈ education →
            (Scorer.degreeScore (ToLower (Education.Degree edu)) <= result)%Q)
  ∧ (result = maxScore
     ∨ ∃ edu, edu ∈ education
              ∧ result = Scorer.degreeScore (ToLower (Education.Degree edu))).
Proof.
  cbv zeta. revert maxScore. induction education as [|edu education IH]; intros maxScore.
  - cbn. split; [Lqa.lra|]. split; [|by left]. intros edu Hin. by apply elem_of_nil in Hin.
  - cbn [fold_left].
    set (score := Scorer.degreeScore (ToLower (Education.Degree edu))).
    set (next := if Float.ltb maxScore score then score else maxScore).
    assert (Hnext : (maxScore <= next)%Q ∧ (score <= next)%Q
                    ∧ (next = maxScore ∨ next = score)).
    { unfold next. destruct (Float.ltb maxScore score) eqn:Hlt.
      - apply Float_ltb_lt in Hlt. split; [Lqa.lra|]. split; [Lqa.lra|by right].
      - apply Float_ltb_ge in Hlt. split; [Lqa.lra|]. split; [Lqa.lra|by left]. }
    destruct Hnext as (Hle & Hscore & Hcase).
    destruct (IH next) as (IH1 & IH2 & IH3).
    split; [Lqa.lra|]. split.
    + intros edu' [->|Hin]%elem_of_cons; [fold score; Lqa.lra|by apply IH2].
    + destruct IH3 as [->|(edu' & Hin & ->)].
      * destruct Hcase as [-> | ->]; [by left|]. right. exists edu. split; [by left|done].
      * right. exists edu'. split; [by right|done].
Qed.

(** X17: the standalone education score is 0.3 for a resume without
    education; otherwise it is the greatest tier among the degrees listed,
    a value between 0.4 and 1 attained by one of them. *)
Theorem X17_education_score_standalone (resume : Resume.t) :
  let score := Scorer.calculateEducationScoreStandalone resume in
  (0.3 <= score <= 1)%Q
  ∧ (Resume.Education resume = [] → score = 0.3%Q)
  ∧ (Resume.Education resume ≠ [] →
     (0.4 <= score)%Q
     ∧ (∀ edu, edu ∈ Resume.Education resume →
               (Scorer.degreeScore (ToLower (Education.Degree edu)) <= score)%Q)
     ∧ ∃ edu, edu ∈ Resume.Education resume
              ∧ score = Scorer.degreeScore (ToLower (Education.Degree edu))).
Proof.
  cbv zeta. unfold Scorer.calculateEducationScoreStandalone.
  destruct (Resume.Education resume) as [|edu0 education] eqn:Hed.
  { cbn. split; [split; by vm_compute|]. split; [done|]. by intros []. }
  cbn [length Nat.eqb].
  pose proof (maxScore_fold (edu0 :: education) 0) as Hfold. cbv zeta in Hfold.
  set (result := fold_left _ _ _) in *.
  destruct Hfold as (_ & Hall & Hcase).
  assert (Hat : ∃ edu, edu ∈ edu0 :: education
                       ∧ result = Scorer.degreeScore (ToLower (Education.Degree edu))).
  { destruct Hcase as [Hzero|?]; [|done]. exfalso.
    pose proof (Hall edu0 ltac:(by left)) as H0.
    pose proof (degreeScore_range (ToLower (Education.Degree edu0))) as [Hr _].
    rewrite Hzero in H0. Lqa.lra. }
  assert (Hrange : (0.4 <= result <= 1)%Q).
  { destruct Hat as (edu & _ & ->). apply degreeScore_range. }
  split; [Lqa.lra|]. split; [discriminate|]. intros _.
  split; [Lqa.lra|]. split; [exact Hall|exact Hat].
Qed.

(** ** The overall score *)

Lemma skillScore_range (resume : Resume.t) :
  (0 <= Scorer.calculateSkillScoreStandalone resume <= 1)%Q.
Proof.
  pose proof (skillScore_by_count resume) as Hs. cbv zeta in Hs. rewrite Hs.
  destruct (Nat.eqb_spec (length (Resume.Skills resume)) 0); [split; by vm_compute|].
  destruct (Nat.leb_spec 14 (length (Resume.Skills resume))) as [|Hlt];
    [split; by vm_compute|].
  pose proof (Qdiv_20 (Float.of_nat (length (Resume.Skills resume)))) as Hdiv.
  assert (H13 : (Float.of_nat (length (Resume.Skills resume)) <= 13)%Q).
  { change 13%Q with (Float.of_nat 13). apply Float_of_nat_le. lia. }
  assert (H1 : (1 <= Float.of_nat (length (Resume.Skills resume)))%Q).
  { apply Float_of_nat_ge_1. lia. }
  Lqa.lra.
Qed.

Lemma experienceScore_range (now : Time.Time) (resume : Resume.t) :
  (0 <= Scorer.calculateExperienceScoreStandalone now resume <= 1)%Q.
Proof.
  pose proof (experienceScore_by_years now resume) as H. cbv zeta in H.
  destruct H as [[_ ->]|[(_ & _ & ->)|[[_ ->]|[[_ ->]|[[_ ->]|[_ ->]]]]]];
    split; by vm_compute.
Qed.

Lemma educationScore_range (resume : Resume.t) :
  (0.3 <= Scorer.calculateEducationScoreStandalone resume <= 1)%Q.
Proof.
  unfold Scorer.calculateEducationScoreStandalone.
  destruct (Resume.Education resume) as [|edu0 education]; [split; by vm_compute|].
  cbn [length Nat.eqb].
  pose proof (maxScore_fold (edu0 :: education) 0) as Hfold. cbv zeta in Hfold.
  set (result := fold_left _ _ _) in *.
  destruct Hfold as (_ & Hall & Hcase).
  pose proof (Hall edu0 ltac:(by left)) as H0.
  pose proof (degreeScore_range (ToLower (Education.Degree edu0))) as [Hr _].
  destruct Hcase as [Hzero|(edu & _ & ->)].
  - rewrite Hzero in H0. Lqa.lra.
  - pose proof (degreeScore_range (ToLower (Education.Degree edu))). Lqa.lra.
Qed.

Lemma formatScore_range (resume : Resume.t) :
  (0.3 <= FormatResult.Score (Scorer.calculateFormatScore resume) <= 1)%Q.
Proof.
  pose proof (formatScore_by_count resume) as Hs. cbv zeta in Hs. rewrite Hs.
  destruct (length _) as [|[|[|[|?]]]]; split; by vm_compute.
Qed.

(** Without a job description the overall score lies between 9 and 100:
    the weights add up to 1, each component reported in the breakdown
    lies in its range, and the score is the weighted sum of the
    breakdown. *)
Lemma standalone_overall_score (now1 now2 now3 : Time.Time) (resume : Resume.t) :
  let result := Scorer.AnalyzeResumeStandalone now1 now2 now3 resume in
  let b := AnalysisResult.ScoreBreakdown result in
  (9 <= AnalysisResult.Score result <= 100)%Q
  ∧ (ScoreBreakdown.SkillWeight b + ScoreBreakdown.ExperienceWeight b
     + ScoreBreakdown.EducationWeight b + ScoreBreakdown.FormatWeight b == 1)%Q
  ∧ (AnalysisResult.Score result
     == ScoreBreakdown.SkillWeight b * ScoreBreakdown.SkillScore b
        + ScoreBreakdown.ExperienceWeight b * ScoreBreakdown.ExperienceScore b
        + ScoreBreakdown.EducationWeight b * ScoreBreakdown.EducationScore b
        + ScoreBreakdown.FormatWeight b * ScoreBreakdown.FormatScore b)%Q
  ∧ (0 <= ScoreBreakdown.SkillScore b <= 100)%Q
  ∧ (0 <= ScoreBreakdown.ExperienceScore b <= 100)%Q
  ∧ (30 <= ScoreBreakdown.EducationScore b <= 100)%Q
  ∧ (30 <= ScoreBreakdown.FormatScore b <= 100)%Q.
Proof.
  cbv zeta. unfold Scorer.AnalyzeResumeStandalone. cbv zeta.
  cbn [AnalysisResult.Score AnalysisResult.ScoreBreakdown
       ScoreBreakdown.SkillWeight ScoreBreakdown.ExperienceWeight
       ScoreBreakdown.EducationWeight ScoreBreakdown.FormatWeight
       ScoreBreakdown.SkillScore ScoreBreakdown.ExperienceScore
       ScoreBreakdown.EducationScore ScoreBreakdown.FormatScore
       Scorer.DefaultWeights Scorer.SkillWeight Scorer.ExperienceWeight
       Scorer.EducationWeight Scorer.FormatWeight].
  pose proof (skillScore_range resume).
  pose proof (experienceScore_range now1 resume).
  pose proof (educationScore_range resume).
  pose proof (formatScore_range resume).
  generalize dependent (Scorer.calculateSkillScoreStandalone resume).
  generalize dependent (Scorer.calculateExperienceScoreStandalone now1 resume).
  generalize dependent (Scorer.calculateEducationScoreStandalone resume).
  generalize dependent (FormatResult.Score (Scorer.calculateFormatScore resume)).
  intros format Hformat education Heducation experience Hexperience skill Hskill.
  repeat split; Lqa.lra.
Qed.

(** What [CalculateSkillMatch] returns, given the test of its loop. *)
Lemma CalculateSkillMatch_filter (resumeSkills jobSkills : list string) :
  let found := NLP.skillFound (list_to_set (map ToLower resumeSkills)) in
  let matched := List.filter found jobSkills in
  ∃ percentage,
    NLP.CalculateSkillMatch resumeSkills jobSkills
    = (percentage, matched, List.filter (λ j, negb (found j)) jobSkills)
    ∧ (0 <= percentage <= 100)%Q
    ∧ (jobSkills = [] → percentage = 0%Q)
    ∧ (jobSkills ≠ [] →
       percentage
       = (Float.of_nat (length matched) / Float.of_nat (length jobSkills) * 100)%Q).
Proof.
  cbv zeta. unfold NLP.CalculateSkillMatch. rewrite matchLoop_filter. cbn [app].
  eexists. split; [reflexivity|].
  destruct jobSkills as [|j rest]; [by cbn|].
  cbn [length Nat.ltb Nat.leb]. split; [|split; [done|reflexivity]].
  apply Float_of_nat_ratio; [|cbn [length]; lia].
  apply (List.filter_length_le _ (j :: rest)).
Qed.

Lemma filter_partition_Permutation {A} (f : A → bool) (l : list A) :
  List.filter f l ++ List.filter (λ x, negb (f x)) l ≡ₚ l.
Proof.
  induction l as [|x l IH]; [done|]. cbn [List.filter].
  destruct (f x); cbn [negb app].
  - by constructor.
  - rewrite <- Permutation_middle. by constructor.
Qed.

(** X18: the scorer's skill match works on the required and preferred
    skills with duplicates removed: matched and missing skills together
    are a rearrangement of that list, so no skill is reported twice or on
    both sides; the totals count them, and the percentage is the matched
    share, between 0 and 100. *)
Theorem X18_scorer_skill_match (resume : Resume.t) (jobDesc : JobDescription.t) :
  let result := Scorer.calculateSkillMatch resume jobDesc in
  let allJobSkills :=
    Utils.RemoveDuplicates (JobDescription.RequiredSkills jobDesc
                            ++ JobDescription.PreferredSkills jobDesc) in
  SkillMatchResult.MatchedSkills result ++ SkillMatchResult.MissingSkills result
    ≡ₚ allJobSkills
  ∧ NoDup (SkillMatchResult.MatchedSkills result ++ SkillMatchResult.MissingSkills result)
  ∧ SkillMatchResult.TotalRequired result = length allJobSkills
  ∧ SkillMatchResult.TotalMatched result = length (SkillMatchResult.MatchedSkills result)
  ∧ SkillMatchResult.TotalMatched result + length (SkillMatchResult.MissingSkills result)
    = SkillMatchResult.TotalRequired result
  ∧ (0 <= SkillMatchResult.Percentage result <= 100)%Q
  ∧ (SkillMatchResult.TotalRequired result = 0 → SkillMatchResult.Percentage result = 0%Q)
  ∧ (0 < SkillMatchResult.TotalRequired result →
     SkillMatchResult.Percentage result
     = (Float.of_nat (SkillMatchResult.TotalMatched result)
        / Float.of_nat (SkillMatchResult.TotalRequired result) * 100)%Q).
Proof.
  cbv zeta. unfold Scorer.calculateSkillMatch.
  set (allJobSkills := Utils.RemoveDuplicates _).
  destruct (CalculateSkillMatch_filter (Resume.Skills resume) allJobSkills)
    as (percentage & -> & Hrange & Hzero & Hshare). cbv zeta in Hshare.
  cbn [SkillMatchResult.MatchedSkills SkillMatchResult.MissingSkills
       SkillMatchResult.TotalRequired SkillMatchResult.TotalMatched
       SkillMatchResult.Percentage].
  set (found := NLP.skillFound _) in *.
  pose proof (filter_partition_Permutation found allJobSkills) as Hperm.
  split; [exact Hperm|]. split.
  { rewrite Hperm. apply RemoveDuplicates_NoDup. }
  split; [reflexivity|]. split; [reflexivity|]. split.
  { rewrite <- length_app. by rewrite Hperm. }
  split; [exact Hrange|]. split.
  - intros Hlen. apply Hzero. by destruct allJobSkills.
  - intros Hlen. apply Hshare. destruct allJobSkills; [cbn in Hlen; lia|done].
Qed.

Lemma educationMatch_range (resume : Resume.t) (jobDesc : JobDescription.t) :
  (0 <= EducationResult.Score (Scorer.calculateEducationMatch resume jobDesc) <= 1)%Q.
Proof.
  unfold Scorer.calculateEducationMatch.
  destruct (length (JobDescription.Education jobDesc) =? 0)%nat; [split; by vm_compute|].
  cbn [EducationResult.Score].
  destruct (0 <? length _)%nat; [split; by vm_compute|].
  destruct (0 <? length _)%nat; split; by vm_compute.
Qed.

Lemma scorer_percentage_range (resume : Resume.t) (jobDesc : JobDescription.t) :
  (0 <= SkillMatchResult.Percentage (Scorer.calculateSkillMatch resume jobDesc) <= 100)%Q.
Proof.
  unfold Scorer.calculateSkillMatch.
  destruct (CalculateSkillMatch_filter (Resume.Skills resume)
              (Utils.RemoveDuplicates (JobDescription.RequiredSkills jobDesc
                                       ++ JobDescription.PreferredSkills jobDesc)))
    as (percentage & -> & Hrange & _). exact Hrange.
Qed.

(** Against a job description the overall score never exceeds 100 and is
    the weighted sum of the four components reported in the breakdown;
    it is at least 3 as soon as the candidate's years are not negative. *)
Lemma overall_score (now : Time.Time) (resume : Resume.t) (jobDesc : JobDescription.t) :
  let result := Scorer.AnalyzeResume now resume jobDesc in
  let b := AnalysisResult.ScoreBreakdown result in
  (AnalysisResult.Score result <= 100)%Q
  ∧ ((0 <= Resume.CalculateExperienceYears now resume)%Q →
     (3 <= AnalysisResult.Score result)%Q)
  ∧ (ScoreBreakdown.SkillWeight b + ScoreBreakdown.ExperienceWeight b
     + ScoreBreakdown.EducationWeight b + ScoreBreakdown.FormatWeight b == 1)%Q
  ∧ (AnalysisResult.Score result
     == ScoreBreakdown.SkillWeight b * ScoreBreakdown.SkillScore b
        + ScoreBreakdown.ExperienceWeight b * ScoreBreakdown.ExperienceScore b
        + ScoreBreakdown.EducationWeight b * ScoreBreakdown.EducationScore b
        + ScoreBreakdown.FormatWeight b * ScoreBreakdown.FormatScore b)%Q
  ∧ (0 <= ScoreBreakdown.SkillScore b <= 100)%Q
  ∧ (ScoreBreakdown.ExperienceScore b <= 100)%Q
  ∧ (0 <= ScoreBreakdown.EducationScore b <= 100)%Q
  ∧ (30 <= ScoreBreakdown.FormatScore b <= 100)%Q.
Proof.
  cbv zeta. unfold Scorer.AnalyzeResume. cbv zeta.
  cbn [AnalysisResult.Score AnalysisResult.ScoreBreakdown
       ScoreBreakdown.SkillWeight ScoreBreakdown.ExperienceWeight
       ScoreBreakdown.EducationWeight ScoreBreakdown.FormatWeight
       ScoreBreakdown.SkillScore ScoreBreakdown.ExperienceScore
       ScoreBreakdown.EducationScore ScoreBreakdown.FormatScore
       Scorer.DefaultWeights Scorer.SkillWeight Scorer.ExperienceWeight
       Scorer.EducationWeight Scorer.FormatWeight].
  pose proof (scorer_percentage_range resume jobDesc) as Hskill.
  destruct (calculateExperienceMatch_bounds now resume jobDesc) as [Hexp1 Hexp0].
  pose proof (educationMatch_range resume jobDesc) as Heducation.
  pose proof (formatScore_range resume) as Hformat.
  generalize dependent (SkillMatchResult.Percentage (Scorer.calculateSkillMatch resume jobDesc)).
  generalize dependent (ExperienceResult.Score
                          (Scorer.calculateExperienceMatch now resume jobDesc)).
  generalize dependent (EducationResult.Score (Scorer.calculateEducationMatch resume jobDesc)).
  generalize dependent (FormatResult.Score (Scorer.calculateFormatScore resume)).
  intros format Hformat education Heducation experience Hexp1 Hexp0 skill Hskill.
  assert (Hdiv : (skill / 100 == skill * (1 # 100))%Q) by reflexivity.
  split; [Lqa.lra|]. split; [intros Hyears%Hexp0; Lqa.lra|].
  repeat split; Lqa.lra.
Qed.

(** X19: the overall score, in exact arithmetic.  Against a job
    description it never exceeds 100 and is at least 3 as soon as the
    candidate's years of experience are not negative; without one it
    lies between 9 and 100.  Either way the weights reported in the
    breakdown add up to 1, the score is the weighted sum of the four
    component scores of the breakdown, and each component lies in its
    range. *)
Theorem X19_overall_scores
    (now now1 now2 now3 : Time.Time) (resume : Resume.t) (jobDesc : JobDescription.t) :
  (let result := Scorer.AnalyzeResume now resume jobDesc in
   let b := AnalysisResult.ScoreBreakdown result in
   (AnalysisResult.Score result <= 100)%Q
   ∧ ((0 <= Resume.CalculateExperienceYears now resume)%Q →
      (3 <= AnalysisResult.Score result)%Q)
   ∧ (ScoreBreakdown.SkillWeight b + ScoreBreakdown.ExperienceWeight b
      + ScoreBreakdown.EducationWeight b + ScoreBreakdown.FormatWeight b == 1)%Q
   ∧ (AnalysisResult.Score result
      == ScoreBreakdown.SkillWeight b * ScoreBreakdown.SkillScore b
         + ScoreBreakdown.ExperienceWeight b * ScoreBreakdown.ExperienceScore b
         + ScoreBreakdown.EducationWeight b * ScoreBreakdown.EducationScore b
         + ScoreBreakdown.FormatWeight b * ScoreBreakdown.FormatScore b)%Q
   ∧ (0 <= ScoreBreakdown.SkillScore b <= 100)%Q
   ∧ (ScoreBreakdown.ExperienceScore b <= 100)%Q
   ∧ (0 <= ScoreBreakdown.EducationScore b <= 100)%Q
   ∧ (30 <= ScoreBreakdown.FormatScore b <= 100)%Q)
  ∧ (let result := Scorer.AnalyzeResumeStandalone now1 now2 now3 resume in
     let b := AnalysisResult.ScoreBreakdown result in
     (9 <= AnalysisResult.Score result <= 100)%Q
     ∧ (ScoreBreakdown.SkillWeight b + ScoreBreakdown.ExperienceWeight b
        + ScoreBreakdown.EducationWeight b + ScoreBreakdown.FormatWeight b == 1)%Q
     ∧ (AnalysisResult.Score result
        == ScoreBreakdown.SkillWeight b * ScoreBreakdown.SkillScore b
           + ScoreBreakdown.ExperienceWeight b * ScoreBreakdown.ExperienceScore b
           + ScoreBreakdown.EducationWeight b * ScoreBreakdown.EducationScore b
           + ScoreBreakdown.FormatWeight b * ScoreBreakdown.FormatScore b)%Q
     ∧ (0 <= ScoreBreakdown.SkillScore b <= 100)%Q
     ∧ (0 <= ScoreBreakdown.ExperienceScore b <= 100)%Q
     ∧ (30 <= ScoreBreakdown.EducationScore b <= 100)%Q
     ∧ (30 <= ScoreBreakdown.FormatScore b <= 100)%Q).
Proof. split; [apply overall_score|apply standalone_overall_score]. Qed.

(** ** Skills read off a text, and their matching *)

Lemma skillKeywords_NoDup : NoDup Parser.skillKeywords.
Proof. apply (bool_decide_unpack (NoDup Parser.skillKeywords)). by vm_compute. Qed.

Lemma skillKeywords_nonempty (skill : string) : skill ∈ Parser.skillKeywords → skill ≠ "".
Proof.
  assert (Hall : forallb (λ k, negb (String.eqb k "")) Parser.skillKeywords = true)
    by (by vm_compute).
  intros Hin%list_elem_of_In. rewrite forallb_forall in Hall.
  specialize (Hall skill Hin). apply negb_true_iff in Hall. by apply String.eqb_neq.
Qed.

(** Both extractors store the dictionary terms the lower-cased text
    contains, in the order of the dictionary. *)
Lemma RemoveDuplicates_found (textLower : string) :
  Utils.RemoveDuplicates
    (List.filter (λ skill, Contains textLower (ToLower skill)) Parser.skillKeywords)
  = List.filter (λ skill, Contains textLower skill) Parser.skillKeywords.
Proof.
  assert (Hext : List.filter (λ skill, Contains textLower (ToLower skill)) Parser.skillKeywords
                 = List.filter (λ skill, Contains textLower skill) Parser.skillKeywords).
  { apply filter_ext_in. intros skill Hin%list_elem_of_In.
    by rewrite (proj2 (skillKeywords_canonical skill Hin)). }
  rewrite Hext. apply RemoveDuplicates_loop_id.
  - apply NoDup_ListNoDup, List.NoDup_filter, NoDup_ListNoDup, skillKeywords_NoDup.
  - intros skill [Hin _]%list_elem_of_In%filter_In. apply list_elem_of_In in Hin.
    split; [by apply skillKeywords_canonical|].
    split; [by apply skillKeywords_nonempty|apply not_elem_of_empty].
Qed.

Lemma List_filter_sublist {A} (f : A → bool) (l : list A) : List.filter f l `sublist_of` l.
Proof.
  induction l as [|x l IH]; [done|]. cbn [List.filter].
  destruct (f x); by constructor.
Qed.

(** X20: [extractSkills] and [extractJDSkills] store the same thing for
    the same text: the dictionary terms that occur in the lower-cased
    text, each once, in the order of the dictionary; the letter case of
    the text does not matter, and the other fields are left alone. *)
Theorem X20_skill_extractors (resume : Resume.t) (jd : JobDescription.t) (text : string) :
  let found := List.filter (λ skill, Contains (ToLower text) skill) Parser.skillKeywords in
  Resume.Skills (Parser.extractSkills resume text) = found
  ∧ JobDescription.RequiredSkills (Parser.extractJDSkills jd text) = found
  ∧ found `sublist_of` Parser.skillKeywords
  ∧ Parser.extractSkills resume (ToLower text) = Parser.extractSkills resume text
  ∧ Parser.extractJDSkills jd (ToLower text) = Parser.extractJDSkills jd text
  ∧ Parser.extractSkills resume text = Resume.set_Skills resume found
  ∧ Parser.extractJDSkills jd text = JobDescription.set_RequiredSkills jd found.
Proof.
  cbv zeta. unfold Parser.extractSkills, Parser.extractJDSkills. cbv zeta.
  rewrite !ToLower_idemp, !RemoveDuplicates_found.
  split_and!; try reflexivity.
  apply List_filter_sublist.
Qed.

Lemma found_elem_of (textLower skill : string) :
  skill ∈ List.filter (λ skill, Contains textLower skill) Parser.skillKeywords
  ↔ skill ∈ Parser.skillKeywords ∧ Contains textLower skill = true.
Proof. by rewrite list_elem_of_In, filter_In, <- list_elem_of_In. Qed.

Lemma RemoveDuplicates_found_id (textLower : string) :
  Utils.RemoveDuplicates
    (List.filter (λ skill, Contains textLower skill) Parser.skillKeywords ++ [])
  = List.filter (λ skill, Contains textLower skill) Parser.skillKeywords.
Proof.
  rewrite app_nil_r. apply RemoveDuplicates_loop_id.
  - apply NoDup_ListNoDup, List.NoDup_filter, NoDup_ListNoDup, skillKeywords_NoDup.
  - intros skill [Hin _]%found_elem_of.
    split; [by apply skillKeywords_canonical|].
    split; [by apply skillKeywords_nonempty|apply not_elem_of_empty].
Qed.

Lemma extractSkills_Skills (resume : Resume.t) (text : string) :
  Resume.Skills (Parser.extractSkills resume text)
  = List.filter (λ skill, Contains (ToLower text) skill) Parser.skillKeywords.
Proof. unfold Parser.extractSkills. cbn [Resume.set_Skills Resume.Skills].
  apply RemoveDuplicates_found. Qed.

Lemma extractJDSkills_RequiredSkills (jd : JobDescription.t) (text : string) :
  JobDescription.RequiredSkills (Parser.extractJDSkills jd text)
  = List.filter (λ skill, Contains (ToLower text) skill) Parser.skillKeywords.
Proof. unfold Parser.extractJDSkills.
  cbn [JobDescription.set_RequiredSkills JobDescription.RequiredSkills].
  apply RemoveDuplicates_found. Qed.

Lemma extractJDSkills_PreferredSkills (jd : JobDescription.t) (text : string) :
  JobDescription.PreferredSkills (Parser.extractJDSkills jd text)
  = JobDescription.PreferredSkills jd.
Proof. reflexivity. Qed.

(** X21: parser and scorer together.  For a job description without
    preferred skills (the parser never sets any), the skills required are
    the dictionary terms of the job text; each of them that the resume
    text contains as well, in whatever letter case, is reported matched,
    and a skill reported missing is a dictionary term of the job text
    that the resume text does not contain. *)
Theorem X21_parsed_skills_match
    (resume0 : Resume.t) (jd0 : JobDescription.t) (resumeText jdText : string) :
  JobDescription.PreferredSkills jd0 = [] →
  let resume := Parser.extractSkills resume0 resumeText in
  let jd := Parser.extractJDSkills jd0 jdText in
  let result := Scorer.calculateSkillMatch resume jd in
  SkillMatchResult.TotalRequired result = length (JobDescription.RequiredSkills jd)
  ∧ (∀ skill, skill ∈ JobDescription.RequiredSkills jd →
              Contains (ToLower resumeText) skill = true →
              skill ∈ SkillMatchResult.MatchedSkills result)
  ∧ (∀ skill, skill ∈ SkillMatchResult.MissingSkills result →
              skill ∈ Parser.skillKeywords
              ∧ Contains (ToLower jdText) skill = true
              ∧ Contains (ToLower resumeText) skill = false)
  ∧ ((∀ skill, skill ∈ JobDescription.RequiredSkills jd →
               Contains (ToLower resumeText) skill = true) →
     SkillMatchResult.MissingSkills result = []
     ∧ SkillMatchResult.MatchedSkills result = JobDescription.RequiredSkills jd).
Proof.
  intros Hpref. cbv zeta. unfold Scorer.calculateSkillMatch.
  rewrite extractJDSkills_PreferredSkills, Hpref.
  rewrite !extractJDSkills_RequiredSkills, RemoveDuplicates_found_id, extractSkills_Skills.
  generalize (found_elem_of (ToLower jdText)).
  generalize (found_elem_of (ToLower resumeText)).
  generalize (List.filter (λ skill, Contains (ToLower jdText) skill) Parser.skillKeywords).
  generalize (List.filter (λ skill, Contains (ToLower resumeText) skill) Parser.skillKeywords).
  intros skills required Hsk Hreq.
  destruct (CalculateSkillMatch_filter skills required)
    as (percentage & -> & _). cbv zeta.
  cbn [SkillMatchResult.MatchedSkills SkillMatchResult.MissingSkills
       SkillMatchResult.TotalRequired].
  set (found := NLP.skillFound _).
  assert (Hfound : ∀ skill, skill ∈ Parser.skillKeywords →
                     Contains (ToLower resumeText) skill = true → found skill = true).
  { intros skill Hkw Hc. unfold found, NLP.skillFound.
    rewrite bool_decide_eq_true_2; [reflexivity|].
    apply elem_of_list_to_set.
    rewrite (proj2 (skillKeywords_canonical skill Hkw)).
    change (map ToLower skills) with (ToLower <$> skills).
    apply list_elem_of_fmap. exists skill.
    split; [symmetry; apply (skillKeywords_canonical skill Hkw)|].
    apply Hsk. split; assumption. }
  clearbody found.
  split; [reflexivity|]. split; [|split].
  - intros skill Hin Hres. pose proof Hin as [Hkw Hjd]%Hreq.
    apply list_elem_of_In, filter_In. split; [by apply list_elem_of_In|].
    apply Hfound; assumption.
  - intros skill [Hin Hnot]%list_elem_of_In%filter_In.
    apply list_elem_of_In, Hreq in Hin as [Hkw Hjd].
    split; [assumption|]. split; [assumption|].
    destruct (Contains (ToLower resumeText) skill) eqn:Hres; [|reflexivity].
    rewrite (Hfound skill Hkw Hres) in Hnot. discriminate Hnot.
  - intros Hall.
    assert (Hevery : ∀ skill, skill ∈ required → found skill = true).
    { intros skill Hin. pose proof Hin as [Hkw _]%Hreq.
      apply Hfound; [assumption|]. apply Hall, Hin. }
    clear -Hevery.
    induction required as [|skill required IH]; [split; reflexivity|].
    cbn [List.filter]. rewrite (Hevery skill) by (by left). cbn [negb].
    destruct IH as [-> ->]; [|split; reflexivity].
    intros skill' Hin. apply Hevery. by right.
Qed.

Lemma X21_witness :
  let resume := Parser.extractSkills (Resume.fresh "Built services in Go and Docker")
                                     "Built services in Go and Docker" in
  let jd := Parser.extractJDSkills (JobDescription.fresh "We need go, docker and rust")
                                   "We need go, docker and rust" in
  let result := Scorer.calculateSkillMatch resume jd in
  SkillMatchResult.TotalRequired result = length (JobDescription.RequiredSkills jd)
  ∧ (∀ skill, skill ∈ JobDescription.RequiredSkills jd →
              Contains (ToLower "Built services in Go and Docker") skill = true →
              skill ∈ SkillMatchResult.MatchedSkills result)
  ∧ (∀ skill, skill ∈ SkillMatchResult.MissingSkills result →
              skill ∈ Parser.skillKeywords
              ∧ Contains (ToLower "We need go, docker and rust") skill = true
              ∧ Contains (ToLower "Built services in Go and Docker") skill = false)
  ∧ ((∀ skill, skill ∈ JobDescription.RequiredSkills jd →
               Contains (ToLower "Built services in Go and Docker") skill = true) →
     SkillMatchResult.MissingSkills result = []
     ∧ SkillMatchResult.MatchedSkills result = JobDescription.RequiredSkills jd).
Proof.
  apply (X21_parsed_skills_match (Resume.fresh "Built services in Go and Docker")
                                 (JobDescription.fresh "We need go, docker and rust")
                                 "Built services in Go and Docker"
                                 "We need go, docker and rust").
  reflexivity.
Defined.

(** ** [CleanText] and [CalculateWordCount] *)

(** A run of bytes none of which separates extends the field being read. *)
Lemma FieldsFunc_from_run (f : ascii → bool) (w cur : string) :
  allBytes (λ c, negb (f c)) w = true →
  FieldsFunc_from f w cur = match cur +:+ w with "" => [] | word => [word] end.
Proof.
  revert cur. induction w as [|c w IH]; intros cur Hw.
  - cbn [FieldsFunc_from]. rewrite append_nil_r. by destruct cur.
  - cbn [allBytes] in Hw. apply andb_true_iff in Hw as [Hc%negb_true_iff Hw].
    cbn [FieldsFunc_from]. rewrite Hc, (IH _ Hw), append_assoc. reflexivity.
Qed.

Lemma Fields_words (text : string) :
  Forall (λ word, allBytes (λ c, negb (isSpace c)) word = true ∧ word ≠ "") (Fields text).
Proof.
  apply FieldsFunc_from_Forall; [|reflexivity].
  induction text as [|c text IH]; [reflexivity|]. cbn [allBytes].
  rewrite IH. by destruct (isSpace c).
Qed.

Lemma append_nonempty_r (s t : string) : t ≠ "" → s +:+ t ≠ "".
Proof. destruct s; [done|]. by rewrite append_cons. Qed.

Lemma TrimRightSpace_app (s t : string) :
  TrimRightSpace t ≠ "" → TrimRightSpace (s +:+ t) = s +:+ TrimRightSpace t.
Proof.
  intros Ht. induction s as [|c s IH]; [reflexivity|].
  rewrite !append_cons. cbn [TrimRightSpace]. rewrite IH.
  pose proof (append_nonempty_r s _ Ht) as Hne.
  by destruct (s +:+ TrimRightSpace t).
Qed.

(** Joining words by single spaces and splitting again gives the words
    back, and leaves nothing to trim. *)
Lemma Join_words (words : list string) :
  Forall (λ word, allBytes (λ c, negb (isSpace c)) word = true ∧ word ≠ "") words →
  Fields (Join words " ") = words
  ∧ TrimRightSpace (Join words " ") = Join words " "
  ∧ headNotSpace (Join words " ")
  ∧ (words ≠ [] → Join words " " ≠ "").
Proof.
  induction 1 as [|w words [Hw Hne] Hall IH]; [by cbn|].
  destruct IH as (IHf & IHt & IHh & IHn).
  assert (Hhead : ∀ t, headNotSpace (w +:+ t)).
  { intros t. destruct w as [|c w]; [done|]. rewrite append_cons. cbn in *.
    by apply andb_true_iff in Hw as [Hc%negb_true_iff _]. }
  destruct words as [|w' words].
  - cbn [Join]. unfold Fields, FieldsFunc. rewrite (FieldsFunc_from_run _ _ _ Hw).
    change ("" +:+ w) with w. split_and!.
    + by destruct w.
    + by apply TrimRightSpace_id.
    + specialize (Hhead ""). by rewrite append_nil_r in Hhead.
    + done.
  - change (Join (w :: w' :: words) " ") with (w +:+ " " +:+ Join (w' :: words) " ").
    set (rest := Join (w' :: words) " ") in *.
    assert (Hrest : rest ≠ "") by (by apply IHn).
    split_and!.
    + unfold Fields, FieldsFunc.
      change (" " +:+ rest) with (String " " rest).
      rewrite FieldsFunc_from_sep by reflexivity.
      rewrite (FieldsFunc_from_run _ _ _ Hw). change ("" +:+ w) with w.
      fold (FieldsFunc rest isSpace). fold (Fields rest). rewrite IHf. by destruct w.
    + rewrite <- append_assoc, TrimRightSpace_app; rewrite IHt; done.
    + apply Hhead.
    + intros _. apply append_nonempty_r, append_nonempty_r, Hrest.
Qed.

(** X22: [CleanText] keeps the words of the text and puts single spaces
    between them: splitting the result into fields gives the fields of
    the text, so the word count is unchanged and cleaning twice is
    cleaning once; the final [TrimSpace] finds nothing to trim. *)
Theorem X22_CleanText_words (text : string) :
  Fields (Utils.CleanText text) = Fields text
  ∧ Utils.CleanText text = Join (Fields text) " "
  ∧ Utils.CleanText (Utils.CleanText text) = Utils.CleanText text
  ∧ Utils.CalculateWordCount (Utils.CleanText text) = Utils.CalculateWordCount text.
Proof.
  destruct (Join_words (Fields text) (Fields_words text)) as (Hf & Ht & Hh & _).
  assert (Hclean : Utils.CleanText text = Join (Fields text) " ").
  { unfold Utils.CleanText, TrimSpace. cbv zeta. by rewrite TrimLeftSpace_id, Ht. }
  assert (Hfields : Fields (Utils.CleanText text) = Fields text) by (by rewrite Hclean).
  split; [exact Hfields|]. split; [exact Hclean|]. split.
  - unfold Utils.CleanText at 1. cbv zeta. rewrite Hfields. reflexivity.
  - unfold Utils.CalculateWordCount. by rewrite Hfields.
Qed.

(** ** Email addresses *)

Lemma Split_nonempty (s : string) (sep : ascii) : Split s sep ≠ [].
Proof.
  destruct s as [|c s]; [done|]. cbn [Split].
  destruct (Ascii.eqb c sep); [done|]. by destruct (Split s sep).
Qed.

(** Joining the pieces with the separator gives the string back, and no
    piece holds the separator. *)
Lemma Split_Join (s : string) (sep : ascii) :
  Join (Split s sep) (String sep "") = s
  ∧ Forall (λ piece, allBytes (λ c, negb (Ascii.eqb c sep)) piece = true) (Split s sep).
Proof.
  induction s as [|c s [IHj IHp]]; [by repeat constructor|].
  cbn [Split]. destruct (Ascii.eqb_spec c sep) as [->|Hc].
  - split; [|by constructor].
    pose proof (Split_nonempty s sep).
    destruct (Split s sep) as [|piece rest] eqn:Hs; [done|].
    change (Join ("" :: piece :: rest) (String sep ""))
      with ("" +:+ String sep "" +:+ Join (piece :: rest) (String sep "")).
    by rewrite IHj.
  - destruct (Split s sep) as [|piece rest] eqn:Hs; [by apply Split_nonempty in Hs|].
    apply Forall_cons in IHp as [Hpiece Hrest]. split.
    + destruct rest as [|piece' rest].
      * cbn [Join] in *. by rewrite IHj.
      * change (Join (String c piece :: piece' :: rest) (String sep ""))
          with (String c piece +:+ String sep "" +:+ Join (piece' :: rest) (String sep "")).
        change (Join (piece :: piece' :: rest) (String sep ""))
          with (piece +:+ String sep "" +:+ Join (piece' :: rest) (String sep "")) in IHj.
        by rewrite append_cons, IHj.
    + constructor; [|done]. cbn [allBytes]. rewrite Hpiece.
      by destruct (Ascii.eqb_spec c sep).
Qed.

Lemma Split_app (a b : string) (sep : ascii) :
  allBytes (λ c, negb (Ascii.eqb c sep)) a = true →
  Split (a +:+ String sep b) sep = a :: Split b sep.
Proof.
  induction a as [|c a IH]; intros Ha.
  - change ("" +:+ String sep b) with (String sep b). cbn [Split].
    by rewrite Ascii.eqb_refl.
  - cbn [allBytes] in Ha. apply andb_true_iff in Ha as [Hc%negb_true_iff Ha].
    rewrite append_cons. cbn [Split]. by rewrite Hc, (IH Ha).
Qed.

Lemma Split_one (a : string) (sep : ascii) :
  allBytes (λ c, negb (Ascii.eqb c sep)) a = true → Split a sep = [a].
Proof.
  induction a as [|c a IH]; intros Ha; [done|].
  cbn [allBytes] in Ha. apply andb_true_iff in Ha as [Hc%negb_true_iff Ha].
  cbn [Split]. by rewrite Hc, (IH Ha).
Qed.

Lemma Contains_byte (a b : string) (c : ascii) :
  Contains (a +:+ String c b) (String c "") = true.
Proof.
  induction a as [|x a IH].
  - change ("" +:+ String c b) with (String c b). cbn.
    by rewrite Ascii.eqb_refl, HasPrefix_nil.
  - rewrite append_cons. cbn [Contains]. rewrite IH. apply orb_true_r.
Qed.

(** The strings [Split] cuts into exactly two pieces. *)
Lemma Split_two (s local domain : string) (sep : ascii) :
  Split s sep = [local; domain]
  ↔ s = local +:+ String sep domain
    ∧ allBytes (λ c, negb (Ascii.eqb c sep)) local = true
    ∧ allBytes (λ c, negb (Ascii.eqb c sep)) domain = true.
Proof.
  split.
  - intros Hs. destruct (Split_Join s sep) as [Hj Hp]. rewrite Hs in Hj, Hp.
    apply Forall_cons in Hp as [Hl Hp]. apply Forall_cons in Hp as [Hd _].
    split; [|done]. rewrite <- Hj. reflexivity.
  - intros (-> & Hl & Hd). by rewrite (Split_app _ _ _ Hl), (Split_one _ _ Hd).
Qed.

(** X23: [IsValidEmailFormat] accepts exactly the strings of the form
    local@domain with both parts non-empty and free of "@" and a "." in
    the domain; [ExtractEmailDomain] then returns that domain, and
    [ValidateEmail] reports no error exactly when the trimmed address is
    accepted. *)
Theorem X23_email_format (email : string) :
  (Utils.IsValidEmailFormat email = true
   ↔ ∃ local domain,
       email = local +:+ String "@" domain
       ∧ local ≠ "" ∧ domain ≠ ""
       ∧ allBytes (λ c, negb (Ascii.eqb c "@")) local = true
       ∧ allBytes (λ c, negb (Ascii.eqb c "@")) domain = true
       ∧ Contains domain "." = true)
  ∧ (∀ local domain,
       email = local +:+ String "@" domain →
       allBytes (λ c, negb (Ascii.eqb c "@")) local = true →
       allBytes (λ c, negb (Ascii.eqb c "@")) domain = true →
       Utils.ExtractEmailDomain email = domain)
  ∧ (Utils.IsValidEmailFormat email = true →
     Contains (Utils.ExtractEmailDomain email) "." = true)
  ∧ (Validation.ValidateEmail email = None
     ↔ Utils.IsValidEmailFormat (TrimSpace email) = true).
Proof.
  assert (Hvalid : ∀ email,
            Utils.IsValidEmailFormat email = true
            ↔ ∃ local domain,
                Split email "@" = [local; domain]
                ∧ local ≠ "" ∧ domain ≠ "" ∧ Contains domain "." = true).
  { intros e. unfold Utils.IsValidEmailFormat. split.
    - destruct (Contains e "@"); [|done]. cbn [negb].
      destruct (Split e "@") as [|local [|domain [|? ?]]]; try done.
      destruct local as [|c local]; [done|]. destruct domain as [|d domain]; [done|].
      cbn [String.length Nat.eqb orb].
      destruct (Contains (String d domain) ".") eqn:Hdot; [|done]. intros _.
      by exists (String c local), (String d domain).
    - intros (local & domain & Hs & Hl & Hd & Hdot).
      pose proof Hs as (-> & _)%Split_two. rewrite Contains_byte. cbn [negb].
      rewrite Hs.
      destruct local; [done|]. destruct domain; [done|].
      cbn [String.length Nat.eqb orb]. by rewrite Hdot. }
  split; [|split; [|split]].
  - rewrite Hvalid. split.
    + intros (local & domain & (-> & Hl & Hd)%Split_two & ? & ? & ?).
      by exists local, domain.
    + intros (local & domain & -> & ? & ? & Hl & Hd & ?).
      exists local, domain. split; [|done]. by apply Split_two.
  - intros local domain -> Hl Hd. unfold Utils.ExtractEmailDomain.
    by rewrite (proj2 (Split_two _ local domain "@")).
  - intros (local & domain & Hs & _ & _ & Hdot)%Hvalid.
    unfold Utils.ExtractEmailDomain. by rewrite Hs.
  - unfold Validation.ValidateEmail. cbv zeta.
    destruct (String.eqb_spec (TrimSpace email) "") as [->|Hne]; [done|].
    by destruct (Utils.IsValidEmailFormat (TrimSpace email)).
Qed.

(** ** [TruncateText] *)

Lemma prefix_length (n : nat) (s : string) :
  String.length (prefix n s) = Nat.min n (String.length s).
Proof.
  revert s. induction n as [|n IH]; intros [|c s]; cbn; try done. by rewrite IH.
Qed.

(** X24: [TruncateText] panics on a negative [maxLength] (the slice
    bound is negative, whatever the text); otherwise it returns a string
    of [min (len text) maxLength] bytes: the text itself when it fits,
    its first [maxLength] bytes when [maxLength] is at most 3, and its
    first [maxLength - 3] bytes followed by three dots beyond. *)
Theorem X24_TruncateText_length (text : string) (maxLength : Z) :
  ((maxLength < 0)%Z → Utils.TruncateText text maxLength = None)
  ∧ ((0 ≤ maxLength)%Z →
     ∃ out, Utils.TruncateText text maxLength = Some out
            ∧ Z.of_nat (String.length out)
              = Z.min (Z.of_nat (String.length text)) maxLength
            ∧ ((Z.of_nat (String.length text) ≤ maxLength)%Z → out = text)
            ∧ ((maxLength < Z.of_nat (String.length text))%Z → (maxLength ≤ 3)%Z →
               out = prefix (Z.to_nat maxLength) text)
            ∧ ((maxLength < Z.of_nat (String.length text))%Z → (3 < maxLength)%Z →
               out = prefix (Z.to_nat (maxLength - 3)) text +:+ "...")).
Proof.
  unfold Utils.TruncateText, SliceTo. split.
  - intros Hneg.
    destruct (Z.leb_spec (Z.of_nat (String.length text)) maxLength); [lia|].
    destruct (Z.leb_spec maxLength 3); [|lia].
    destruct (Z.ltb_spec maxLength 0); [done|lia].
  - intros Hpos.
    destruct (Z.leb_spec (Z.of_nat (String.length text)) maxLength) as [Hfit|Hlong].
    { exists text. split; [done|]. split; [lia|]. split; [done|]. split; lia. }
    destruct (Z.leb_spec maxLength 3) as [Hsmall|Hbig].
    + destruct (Z.ltb_spec maxLength 0); [lia|].
      destruct (Z.ltb_spec (Z.of_nat (String.length text)) maxLength); [lia|].
      cbn [orb]. eexists. split; [reflexivity|].
      rewrite prefix_length. split; [lia|]. split; [lia|]. split; [done|lia].
    + destruct (Z.ltb_spec (maxLength - 3) 0); [lia|].
      destruct (Z.ltb_spec (Z.of_nat (String.length text)) (maxLength - 3)); [lia|].
      cbn [orb option_map]. eexists. split; [reflexivity|].
      rewrite append_length, prefix_length. cbn [String.length].
      split; [lia|]. split; [lia|]. split; [lia|done].
Qed.

(** ** Resume files *)

Lemma Ext_scan_plain (e : string) :
  allBytes (λ c, negb (Ascii.eqb c ".") && negb (Ascii.eqb c "/")) e = true →
  Ext_scan e = None.
Proof.
  induction e as [|c e IH]; [done|]. cbn [allBytes Ext_scan].
  intros [[Hdot%negb_true_iff Hslash%negb_true_iff]%andb_true_iff He]%andb_true_iff.
  by rewrite (IH He), Hdot, Hslash.
Qed.

(** The extension of a name that ends in a dot followed by bytes that are
    neither dots nor slashes. *)
Lemma Ext_suffix (base e : string) :
  allBytes (λ c, negb (Ascii.eqb c ".") && negb (Ascii.eqb c "/")) e = true →
  Ext (base +:+ String "." e) = String "." e.
Proof.
  intros He. unfold Ext.
  assert (Hscan : Ext_scan (base +:+ String "." e) = Some (String "." e)).
  { induction base as [|c base IH].
    - change ("" +:+ String "." e) with (String "." e). cbn [Ext_scan].
      by rewrite (Ext_scan_plain e He).
    - rewrite append_cons. cbn [Ext_scan]. by rewrite IH. }
  by rewrite Hscan.
Qed.

(** X25: [IsValidResumeFile] accepts exactly the file names for which
    [ParseResume] finds a parser (it rejects those that end in the error
    "unsupported file format"); for a name ending in a dot and an
    extension without dots or slashes, these are the names whose
    extension is "pdf" or "docx" in any letter case. *)
Theorem X25_resume_file_formats (base e : string) :
  allBytes (λ c, negb (Ascii.eqb c ".") && negb (Ascii.eqb c "/")) e = true →
  (∀ filename, Validation.IsValidResumeFile filename = true
               ↔ is_Some (Parser.formatOf filename))
  ∧ (Validation.IsValidResumeFile (base +:+ String "." e) = true
     ↔ ToLower e = "pdf" ∨ ToLower e = "docx")
  ∧ (Parser.formatOf (base +:+ String "." e) = Some Parser.PDF ↔ ToLower e = "pdf")
  ∧ (Parser.formatOf (base +:+ String "." e) = Some Parser.DOCX ↔ ToLower e = "docx").
Proof.
  intros He.
  assert (Hagree : ∀ filename, Validation.IsValidResumeFile filename = true
                               ↔ is_Some (Parser.formatOf filename)).
  { intros filename. unfold Validation.IsValidResumeFile, Parser.formatOf. cbv zeta.
    cbn [existsb]. destruct (String.eqb _ ".pdf"); [by split; eauto|].
    destruct (String.eqb _ ".docx"); [by split; eauto|].
    cbn. split; [done|]. by intros [? ?]. }
  split; [exact Hagree|].
  unfold Validation.IsValidResumeFile, Parser.formatOf. cbv zeta.
  rewrite (Ext_suffix base e He). cbn [ToLower existsb].
  change (lower_byte ".") with "."%char.
  destruct (String.eqb_spec (String "." (ToLower e)) ".pdf") as [Hpdf|Hpdf];
    destruct (String.eqb_spec (String "." (ToLower e)) ".docx") as [Hdocx|Hdocx];
    try (injection Hpdf as Hpdf); try (injection Hdocx as Hdocx).
  - rewrite Hpdf in Hdocx. discriminate.
  - rewrite Hpdf. cbn. repeat split; intros; try done; eauto.
  - rewrite Hdocx. cbn. repeat split; intros; try done; eauto.
  - assert (ToLower e ≠ "pdf") by (intros Heq; apply Hpdf; by rewrite Heq).
    assert (ToLower e ≠ "docx") by (intros Heq; apply Hdocx; by rewrite Heq).
    cbn. repeat split; intros; try done. tauto.
Qed.

Lemma X25_witness :
  (∀ filename, Validation.IsValidResumeFile filename = true
               ↔ is_Some (Parser.formatOf filename))
  ∧ (Validation.IsValidResumeFile ("uploads/cv.final" +:+ String "." "PDF") = true
     ↔ ToLower "PDF" = "pdf" ∨ ToLower "PDF" = "docx")
  ∧ (Parser.formatOf ("uploads/cv.final" +:+ String "." "PDF") = Some Parser.PDF
     ↔ ToLower "PDF" = "pdf")
  ∧ (Parser.formatOf ("uploads/cv.final" +:+ String "." "PDF") = Some Parser.DOCX
     ↔ ToLower "PDF" = "docx").
Proof. apply (X25_resume_file_formats "uploads/cv.final" "PDF"). reflexivity. Defined.

(** ** Cosine similarity *)

Lemma cosineSums_sumOver (freq1 freq2 : gmap string nat) (ranged : list string) :
  NLP.cosineSums freq1 freq2 ranged
  = (NLP.sumOver (λ term, NLP.freqOf freq1 term * NLP.freqOf freq2 term)%R ranged,
     NLP.sumOver (λ term, NLP.freqOf freq1 term * NLP.freqOf freq1 term)%R ranged,
     NLP.sumOver (λ term, NLP.freqOf freq2 term * NLP.freqOf freq2 term)%R ranged).
Proof.
  unfold NLP.cosineSums.
  assert (Hfold : ∀ d a b : R,
            fold_left (λ '(dotProduct, norm1, norm2) term,
                         let f1 := NLP.freqOf freq1 term in
                         let f2 := NLP.freqOf freq2 term in
                         (dotProduct + f1 * f2, norm1 + f1 * f1, norm2 + f2 * f2)%R)
                      ranged (d, a, b)
            = ((d + NLP.sumOver (λ term, NLP.freqOf freq1 term * NLP.freqOf freq2 term)
                                ranged)%R,
               (a + NLP.sumOver (λ term, NLP.freqOf freq1 term * NLP.freqOf freq1 term)
                                ranged)%R,
               (b + NLP.sumOver (λ term, NLP.freqOf freq2 term * NLP.freqOf freq2 term)
                                ranged)%R)).
  { induction ranged as [|term ranged IH]; intros d a b.
    - cbn. by rewrite !Rplus_0_r.
    - cbn [fold_left NLP.sumOver foldr]. cbv zeta. rewrite IH.
      fold (NLP.sumOver (λ term, NLP.freqOf freq1 term * NLP.freqOf freq2 term)%R ranged).
      fold (NLP.sumOver (λ term, NLP.freqOf freq1 term * NLP.freqOf freq1 term)%R ranged).
      fold (NLP.sumOver (λ term, NLP.freqOf freq2 term * NLP.freqOf freq2 term)%R ranged).
      f_equal; [f_equal|]; lra. }
  rewrite Hfold. f_equal; [f_equal|]; lra.
Qed.

Lemma sumOver_Permutation (g : string → R) (l l' : list string) :
  l ≡ₚ l' → NLP.sumOver g l = NLP.sumOver g l'.
Proof.
  induction 1 as [|x l l' _ IH|x y l|l l' l'' _ IH1 _ IH2]; cbn.
  - done.
  - fold (NLP.sumOver g l). fold (NLP.sumOver g l'). by rewrite IH.
  - lra.
  - by rewrite IH1.
Qed.

Lemma sumOver_ext (g h : string → R) (l : list string) :
  (∀ term, term ∈ l → g term = h term) → NLP.sumOver g l = NLP.sumOver h l.
Proof.
  induction l as [|x l IH]; intros Hext; [done|]. cbn.
  fold (NLP.sumOver g l). fold (NLP.sumOver h l).
  rewrite (Hext x) by (by left). rewrite IH; [done|]. intros term Hin. apply Hext. by right.
Qed.

Lemma sumOver_nonneg (g : string → R) (l : list string) :
  (∀ term, 0 <= g term)%R → (0 <= NLP.sumOver g l)%R.
Proof.
  intros Hg. induction l as [|x l IH]; cbn; [lra|].
  fold (NLP.sumOver g l). specialize (Hg x). lra.
Qed.

Lemma sumOver_zero (g : string → R) (l : list string) :
  (∀ term, 0 <= g term)%R →
  NLP.sumOver g l = 0%R ↔ ∀ term, term ∈ l → g term = 0%R.
Proof.
  intros Hg. induction l as [|x l IH]; cbn.
  - split; [|done]. intros _ term Hin. by apply elem_of_nil in Hin.
  - fold (NLP.sumOver g l). pose proof (sumOver_nonneg g l Hg). pose proof (Hg x). split.
    + intros Hsum term [->|Hin]%elem_of_cons; [lra|]. apply IH; [lra|done].
    + intros Hall. rewrite (Hall x) by (by left).
      rewrite (proj2 IH); [lra|]. intros term Hin. apply Hall. by right.
Qed.

(** The Cauchy-Schwarz inequality for the three sums. *)
Lemma sumOver_Cauchy_Schwarz (f g : string → R) (l : list string) :
  (NLP.sumOver (λ term, f term * g term) l * NLP.sumOver (λ term, f term * g term) l
   <= NLP.sumOver (λ term, f term * f term) l * NLP.sumOver (λ term, g term * g term) l)%R.
Proof.
  induction l as [|x l IH]; cbn; [lra|].
  fold (NLP.sumOver (λ term, f term * g term)%R l).
  fold (NLP.sumOver (λ term, f term * f term)%R l).
  fold (NLP.sumOver (λ term, g term * g term)%R l).
  pose proof (sumOver_nonneg (λ term, f term * f term)%R l
                (λ term, Rle_0_sqr (f term))) as HA.
  pose proof (sumOver_nonneg (λ term, g term * g term)%R l
                (λ term, Rle_0_sqr (g term))) as HB.
  set (D := NLP.sumOver (λ term, f term * g term)%R l) in *.
  set (A := NLP.sumOver (λ term, f term * f term)%R l) in *.
  set (B := NLP.sumOver (λ term, g term * g term)%R l) in *.
  set (a := f x). set (b := g x).
  assert (Hcross : (2 * D * a * b <= A * (b * b) + B * (a * a))%R).
  { destruct (Rle_dec (2 * D * a * b) 0) as [Hneg|Hpos].
    - assert (0 <= A * (b * b))%R by (apply Rmult_le_pos; [done|apply Rle_0_sqr]).
      assert (0 <= B * (a * a))%R by (apply Rmult_le_pos; [done|apply Rle_0_sqr]).
      lra.
    - assert (Hsq : ((2 * D * a * b) * (2 * D * a * b)
                     <= (A * (b * b) + B * (a * a)) * (A * (b * b) + B * (a * a)))%R).
      { assert (H1 : ((D * D) * ((a * a) * (b * b)) <= (A * B) * ((a * a) * (b * b)))%R).
        { apply Rmult_le_compat_r; [|done].
          apply Rmult_le_pos; apply Rle_0_sqr. }
        pose proof (Rle_0_sqr (A * (b * b) - B * (a * a))) as H2. unfold Rsqr in H2.
        nra. }
      assert (0 <= A * (b * b) + B * (a * a))%R.
      { assert (0 <= A * (b * b))%R by (apply Rmult_le_pos; [done|apply Rle_0_sqr]).
        assert (0 <= B * (a * a))%R by (apply Rmult_le_pos; [done|apply Rle_0_sqr]).
        lra. }
      nra. }
  nra.
Qed.

Lemma insertTrue_lookup (tokens : list string) (m : gmap string bool) (term : string) :
  is_Some (fold_left (λ m token, <[token := true]> m) tokens m !! term)
  ↔ is_Some (m !! term) ∨ term ∈ tokens.
Proof.
  revert m. induction tokens as [|token tokens IH]; intros m; cbn [fold_left].
  - split; [by left|]. intros [?|Hin]; [done|]. by apply elem_of_nil in Hin.
  - rewrite IH, elem_of_cons. destruct (decide (token = term)) as [->|Hne].
    + rewrite lookup_insert_eq. split; [|eauto]. intros _. right. by left.
    + rewrite lookup_insert_ne by done. split; [tauto|].
      intros [?|[Heq|?]]; [tauto| |tauto]. by subst.
Qed.

(** The terms the loop ranges over: each token of either text, once. *)
Lemma cosineTerms_keys (tokens1 tokens2 : list string) :
  NoDup (map fst (map_to_list (NLP.cosineTerms tokens1 tokens2)))
  ∧ ∀ term, term ∈ map fst (map_to_list (NLP.cosineTerms tokens1 tokens2))
            ↔ term ∈ tokens1 ∨ term ∈ tokens2.
Proof.
  split; [apply NoDup_fst_map_to_list|]. intros term.
  change (map fst ?l) with (l.*1).
  rewrite list_elem_of_fmap. unfold NLP.cosineTerms. split.
  - intros ([term' v] & -> & Hin%elem_of_map_to_list). cbn.
    assert (Hsome : is_Some (fold_left (λ m token, <[token := true]> m) tokens2
                       (fold_left (λ m token, <[token := true]> m) tokens1 (∅ : gmap string bool)) !! term'))
      by eauto.
    apply insertTrue_lookup in Hsome as [Hsome|?]; [|tauto].
    apply insertTrue_lookup in Hsome as [Hsome|?]; [|tauto].
    rewrite lookup_empty in Hsome. by destruct Hsome.
  - intros Hin.
    assert (Hsome : is_Some (fold_left (λ m token, <[token := true]> m) tokens2
                       (fold_left (λ m token, <[token := true]> m) tokens1 (∅ : gmap string bool)) !! term)).
    { apply insertTrue_lookup. destruct Hin as [?|?]; [left|by right].
      apply insertTrue_lookup. by right. }
    destruct Hsome as [v Hv]. exists (term, v). split; [done|].
    by apply elem_of_map_to_list.
Qed.

Lemma freqOf_termFreq (tokens : list string) (term : string) :
  NLP.freqOf (NLP.termFreq tokens) term = INR (count_occ String.string_dec tokens term).
Proof.
  unfold NLP.freqOf, NLP.termFreq. rewrite countTerms_lookup, lookup_empty.
  destruct (count_occ _ _ _); cbn [default]; [done|]. f_equal. unfold Datatypes.id. lia.
Qed.

Lemma freqOf_nonneg (freq : gmap string nat) (term : string) : (0 <= NLP.freqOf freq term)%R.
Proof. apply pos_INR. Qed.

(** A squared norm is zero exactly when the text has no tokens. *)
Lemma norm_zero (tokens ranged : list string) :
  (∀ term, term ∈ tokens → term ∈ ranged) →
  NLP.sumOver (λ term, NLP.freqOf (NLP.termFreq tokens) term
                       * NLP.freqOf (NLP.termFreq tokens) term)%R ranged = 0%R
  ↔ tokens = [].
Proof.
  intros Hsub. rewrite sumOver_zero by (intros term; apply Rle_0_sqr). split.
  - intros Hall. destruct tokens as [|token tokens]; [done|]. exfalso.
    specialize (Hall token (Hsub token ltac:(by left))).
    rewrite freqOf_termFreq in Hall. cbn [count_occ] in Hall.
    destruct (String.string_dec token token); [|done].
    rewrite S_INR in Hall. pose proof (pos_INR (count_occ String.string_dec tokens token)).
    nra.
  - intros -> term _. rewrite freqOf_termFreq. cbn. lra.
Qed.

(** [CalculateCosineSimilarity] in terms of the three sums. *)
Lemma cosine_sums (text1 text2 : string) :
  let freq1 := NLP.termFreq (NLP.Tokenize text1) in
  let freq2 := NLP.termFreq (NLP.Tokenize text2) in
  let ranged := map fst (map_to_list (NLP.cosineTerms (NLP.Tokenize text1)
                                                      (NLP.Tokenize text2))) in
  let dotProduct := NLP.sumOver (λ term, NLP.freqOf freq1 term * NLP.freqOf freq2 term)%R
                                ranged in
  let norm1 := NLP.sumOver (λ term, NLP.freqOf freq1 term * NLP.freqOf freq1 term)%R
                           ranged in
  let norm2 := NLP.sumOver (λ term, NLP.freqOf freq2 term * NLP.freqOf freq2 term)%R
                           ranged in
  NLP.CalculateCosineSimilarity text1 text2
  = if Req_dec_T norm1 0 then 0%R
    else if Req_dec_T norm2 0 then 0%R
    else (dotProduct / (sqrt norm1 * sqrt norm2))%R.
Proof.
  cbv zeta. unfold NLP.CalculateCosineSimilarity. cbv zeta.
  by rewrite cosineSums_sumOver.
Qed.

(** X26: the cosine similarity of two texts is symmetric, is 0 when
    either text has no tokens (the division is guarded) or when the texts
    share no token, and in exact arithmetic lies between 0 and 1, with
    value 1 for a text with tokens compared with itself; the sums do not
    depend on the order in which the map of terms is ranged. *)
Theorem X26_cosine_similarity (text1 text2 : string) :
  NLP.CalculateCosineSimilarity text1 text2 = NLP.CalculateCosineSimilarity text2 text1
  ∧ (0 <= NLP.CalculateCosineSimilarity text1 text2 <= 1)%R
  ∧ (NLP.Tokenize text1 = [] ∨ NLP.Tokenize text2 = [] →
     NLP.CalculateCosineSimilarity text1 text2 = 0%R)
  ∧ ((∀ term, term ∈ NLP.Tokenize text1 → term ∉ NLP.Tokenize text2) →
     NLP.CalculateCosineSimilarity text1 text2 = 0%R)
  ∧ (NLP.Tokenize text1 ≠ [] → NLP.CalculateCosineSimilarity text1 text1 = 1%R)
  ∧ (∀ ranged,
       ranged ≡ₚ map fst (map_to_list (NLP.cosineTerms (NLP.Tokenize text1)
                                                       (NLP.Tokenize text2))) →
       NLP.cosineSums (NLP.termFreq (NLP.Tokenize text1)) (NLP.termFreq (NLP.Tokenize text2))
                      ranged
       = NLP.cosineSums (NLP.termFreq (NLP.Tokenize text1))
                        (NLP.termFreq (NLP.Tokenize text2))
                        (map fst (map_to_list (NLP.cosineTerms (NLP.Tokenize text1)
                                                               (NLP.Tokenize text2))))).
Proof.
  assert (Hnorm1 : ∀ t1 t2,
            NLP.sumOver (λ term, NLP.freqOf (NLP.termFreq t1) term
                                 * NLP.freqOf (NLP.termFreq t1) term)%R
                        (map fst (map_to_list (NLP.cosineTerms t1 t2))) = 0%R
            ↔ t1 = []).
  { intros t1 t2. apply norm_zero. intros term Hin.
    apply (proj2 (cosineTerms_keys t1 t2)). by left. }
  assert (Hnorm2 : ∀ t1 t2,
            NLP.sumOver (λ term, NLP.freqOf (NLP.termFreq t2) term
                                 * NLP.freqOf (NLP.termFreq t2) term)%R
                        (map fst (map_to_list (NLP.cosineTerms t1 t2))) = 0%R
            ↔ t2 = []).
  { intros t1 t2. apply norm_zero. intros term Hin.
    apply (proj2 (cosineTerms_keys t1 t2)). by right. }
  assert (Hswap : map fst (map_to_list (NLP.cosineTerms (NLP.Tokenize text2)
                                                        (NLP.Tokenize text1)))
                  ≡ₚ map fst (map_to_list (NLP.cosineTerms (NLP.Tokenize text1)
                                                           (NLP.Tokenize text2)))).
  { apply NoDup_Permutation; [apply cosineTerms_keys..|].
    intros term. rewrite !(proj2 (cosineTerms_keys _ _)). tauto. }
  rewrite !cosine_sums. cbv zeta.
  set (tokens1 := NLP.Tokenize text1) in *. set (tokens2 := NLP.Tokenize text2) in *.
  rewrite (sumOver_Permutation _ _ _ Hswap), (sumOver_Permutation _ _ _ Hswap),
    (sumOver_Permutation _ _ _ Hswap).
  specialize (Hnorm1 tokens1 tokens2) as H1. specialize (Hnorm2 tokens1 tokens2) as H2.
  pose proof (sumOver_Cauchy_Schwarz (NLP.freqOf (NLP.termFreq tokens1))
                (NLP.freqOf (NLP.termFreq tokens2))
                (map fst (map_to_list (NLP.cosineTerms tokens1 tokens2)))) as HCS.
  assert (HD : (0 <= NLP.sumOver (λ term, NLP.freqOf (NLP.termFreq tokens1) term
                                          * NLP.freqOf (NLP.termFreq tokens2) term)
                                 (map fst (map_to_list (NLP.cosineTerms tokens1 tokens2))))%R).
  { apply sumOver_nonneg. intros term. apply Rmult_le_pos; apply freqOf_nonneg. }
  assert (HA : (0 <= NLP.sumOver (λ term, NLP.freqOf (NLP.termFreq tokens1) term
                                          * NLP.freqOf (NLP.termFreq tokens1) term)
                                 (map fst (map_to_list (NLP.cosineTerms tokens1 tokens2))))%R)
    by (apply sumOver_nonneg; intros term; apply Rle_0_sqr).
  assert (HB : (0 <= NLP.sumOver (λ term, NLP.freqOf (NLP.termFreq tokens2) term
                                          * NLP.freqOf (NLP.termFreq tokens2) term)
                                 (map fst (map_to_list (NLP.cosineTerms tokens1 tokens2))))%R)
    by (apply sumOver_nonneg; intros term; apply Rle_0_sqr).
  assert (Hcomm : NLP.sumOver (λ term, NLP.freqOf (NLP.termFreq tokens2) term
                                       * NLP.freqOf (NLP.termFreq tokens1) term)%R
                              (map fst (map_to_list (NLP.cosineTerms tokens1 tokens2)))
                  = NLP.sumOver (λ term, NLP.freqOf (NLP.termFreq tokens1) term
                                         * NLP.freqOf (NLP.termFreq tokens2) term)%R
                                (map fst (map_to_list (NLP.cosineTerms tokens1 tokens2))))
    by (apply sumOver_ext; intros; apply Rmult_comm).
  rewrite Hcomm. clear Hcomm Hswap.
  assert (Hdisjoint : (∀ term, term ∈ tokens1 → term ∉ tokens2) →
            NLP.sumOver (λ term, NLP.freqOf (NLP.termFreq tokens1) term
                                 * NLP.freqOf (NLP.termFreq tokens2) term)%R
                        (map fst (map_to_list (NLP.cosineTerms tokens1 tokens2))) = 0%R).
  { intros Hdis. apply sumOver_zero.
    - intros term. apply Rmult_le_pos; apply freqOf_nonneg.
    - intros term _. rewrite !freqOf_termFreq.
      destruct (decide (term ∈ tokens1)) as [Hin|Hout].
      + apply Hdis in Hin.
        rewrite list_elem_of_In, (count_occ_not_In String.string_dec) in Hin.
        rewrite Hin. cbn. lra.
      + rewrite list_elem_of_In, (count_occ_not_In String.string_dec) in Hout.
        rewrite Hout. cbn. lra. }
  set (D := NLP.sumOver (λ term, NLP.freqOf (NLP.termFreq tokens1) term
                                 * NLP.freqOf (NLP.termFreq tokens2) term)%R _) in *.
  set (A := NLP.sumOver (λ term, NLP.freqOf (NLP.termFreq tokens1) term
                                 * NLP.freqOf (NLP.termFreq tokens1) term)%R _) in *.
  set (B := NLP.sumOver (λ term, NLP.freqOf (NLP.termFreq tokens2) term
                                 * NLP.freqOf (NLP.termFreq tokens2) term)%R _) in *.
  split; [|split; [|split; [|split; [|split]]]].
  - destruct (Req_dec_T A 0), (Req_dec_T B 0); try reflexivity.
    by rewrite (Rmult_comm (sqrt B)).
  - destruct (Req_dec_T A 0) as [|HA0]; [lra|]. destruct (Req_dec_T B 0) as [|HB0]; [lra|].
    rewrite <- sqrt_mult by done.
    assert (HAB : (0 < A * B)%R) by (apply Rmult_lt_0_compat; lra).
    assert (Hs : (0 < sqrt (A * B))%R) by (by apply sqrt_lt_R0).
    assert (HDle : (D <= sqrt (A * B))%R).
    { rewrite <- (sqrt_square D) by done. by apply sqrt_le_1_alt. }
    split.
    + apply Rmult_le_pos; [done|]. left. by apply Rinv_0_lt_compat.
    + by apply Rdiv_le_1.
  - intros [Hnil|Hnil].
    + apply H1 in Hnil. by destruct (Req_dec_T A 0).
    + apply H2 in Hnil. destruct (Req_dec_T A 0); [done|]. by destruct (Req_dec_T B 0).
  - intros Hdis%Hdisjoint. rewrite Hdis.
    destruct (Req_dec_T A 0); [done|]. destruct (Req_dec_T B 0); [done|].
    unfold Rdiv. apply Rmult_0_l.
  - intros Hne.
    set (S := NLP.sumOver _ _).
    assert (HS : S ≠ 0%R) by (intros Hz; by apply (Hnorm1 tokens1 tokens1) in Hz).
    assert (HS0 : (0 <= S)%R) by (apply sumOver_nonneg; intros term; apply Rle_0_sqr).
    destruct (Req_dec_T S 0); [done|]. rewrite sqrt_sqrt by done. by apply Rinv_r.
  - intros ranged Hperm. rewrite !cosineSums_sumOver.
    by rewrite !(sumOver_Permutation _ _ _ Hperm).
Qed.

(** ** Phone numbers *)

(** Replacing a byte by nothing filters it out. *)
Lemma ReplaceAll_byte_empty (s : string) (old : ascii) :
  ReplaceAll s (String old "") "" = filterBytes (λ c, negb (Ascii.eqb old c)) s.
Proof.
  unfold ReplaceAll. induction s as [|c s IH]; [reflexivity|].
  cbn [ReplaceAll_from HasPrefix String.length Nat.sub filterBytes].
  rewrite IH. destruct (Ascii.eqb old c); [|reflexivity].
  rewrite HasPrefix_nil. reflexivity.
Qed.

Lemma filterBytes_filterBytes (f g : ascii → bool) (s : string) :
  filterBytes g (filterBytes f s) = filterBytes (λ c, f c && g c) s.
Proof.
  induction s as [|c s IH]; [reflexivity|]. cbn [filterBytes].
  destruct (f c); cbn [filterBytes andb]; by rewrite IH.
Qed.

Lemma filterBytes_ext (f g : ascii → bool) (s : string) :
  (∀ c, f c = g c) → filterBytes f s = filterBytes g s.
Proof. intros Hfg. induction s as [|c s IH]; [reflexivity|]. cbn. by rewrite Hfg, IH. Qed.

Lemma allBytes_filterBytes (f g : ascii → bool) (s : string) :
  allBytes g (filterBytes f s) = allBytes (λ c, negb (f c) || g c) s.
Proof.
  induction s as [|c s IH]; [reflexivity|]. cbn [filterBytes allBytes].
  destruct (f c); cbn [allBytes negb orb]; by rewrite IH.
Qed.

Lemma filterBytes_agree (f g : ascii → bool) (s : string) :
  allBytes (λ c, Bool.eqb (f c) (g c)) s = true → filterBytes f s = filterBytes g s.
Proof.
  induction s as [|c s IH]; [reflexivity|]. cbn [allBytes filterBytes].
  intros [Hc%Bool.eqb_prop Hs]%andb_true_iff. by rewrite Hc, (IH Hs).
Qed.

(** What is left of a phone number once the formatting bytes are
    replaced by nothing. *)
Lemma cleanPhone_filterBytes (phone : string) :
  fold_left (λ p old, ReplaceAll p old "") Validation.phoneFormatting phone
  = filterBytes (λ c, negb (existsb (Ascii.eqb c) [" "; "-"; "("; ")"; "."; "+"]%char)) phone.
Proof.
  unfold Validation.phoneFormatting. cbn [fold_left].
  rewrite !ReplaceAll_byte_empty, !filterBytes_filterBytes.
  apply filterBytes_ext. intros c. cbn [existsb].
  rewrite !(Ascii.eqb_sym c). by repeat destruct (Ascii.eqb _ c).
Qed.

Lemma phone_byte_classes (c : ascii) :
  let formatting := existsb (Ascii.eqb c) [" "; "-"; "("; ")"; "."; "+"]%char in
  negb (negb formatting) || IsNumber c = IsNumber c || formatting
  ∧ (IsNumber c || formatting = true → Bool.eqb (negb formatting) (IsNumber c) = true).
Proof. destruct c as [[] [] [] [] [] [] [] []]; cbv; split; congruence. Qed.

Lemma allBytes_ext (f g : ascii → bool) (s : string) :
  (∀ c, f c = g c) → allBytes f s = allBytes g s.
Proof. intros Hfg. induction s as [|c s IH]; [reflexivity|]. cbn. by rewrite Hfg, IH. Qed.

(** X27: [ValidatePhone] reports no error exactly when the trimmed number
    consists of digits and the formatting bytes space, "-", "(", ")", "."
    and "+" only, wherever these stand, and holds 10 to 15 digits; the
    white space around the number does not matter. *)
Theorem X27_ValidatePhone_accepts (phone : string) :
  let trimmed := TrimSpace phone in
  let formatting := λ c, existsb (Ascii.eqb c) [" "; "-"; "("; ")"; "."; "+"]%char in
  (Validation.ValidatePhone phone = None
   ↔ allBytes (λ c, IsNumber c || formatting c) trimmed = true
     ∧ 10 ≤ String.length (filterBytes IsNumber trimmed) ≤ 15)
  ∧ Validation.ValidatePhone (TrimSpace phone) = Validation.ValidatePhone phone.
Proof.
  cbv zeta. split; [|unfold Validation.ValidatePhone; by rewrite TrimSpace_idemp].
  unfold Validation.ValidatePhone. cbv zeta.
  rewrite cleanPhone_filterBytes, allBytes_filterBytes.
  set (trimmed := TrimSpace phone).
  rewrite (allBytes_ext _ (λ c, IsNumber c
             || existsb (Ascii.eqb c) [" "; "-"; "("; ")"; "."; "+"]%char) trimmed)
    by (intros c; apply (phone_byte_classes c)).
  destruct (allBytes _ trimmed) eqn:Hall.
  - assert (Hdigits : filterBytes (λ c, negb (existsb (Ascii.eqb c)
                                    [" "; "-"; "("; ")"; "."; "+"]%char)) trimmed
                      = filterBytes IsNumber trimmed).
    { apply filterBytes_agree. eapply allBytes_impl; [|exact Hall].
      intros c. apply (phone_byte_classes c). }
    rewrite Hdigits. cbn [negb].
    destruct (String.eqb_spec trimmed "") as [->|Hne].
    { cbn. split; [done|]. intros [_ ?]. lia. }
    destruct (Nat.ltb_spec (String.length (filterBytes IsNumber trimmed)) 10);
      destruct (Nat.ltb_spec 15 (String.length (filterBytes IsNumber trimmed)));
      cbn [orb]; split;
      first [done | intros [_ ?]; lia | intros _; split; [done|lia]].
  - cbn [negb]. destruct (String.eqb trimmed ""); split; try done; by intros [? _].
Qed.

(** ** Sentences *)

(** Replacing a byte by a byte maps the bytes. *)
Lemma ReplaceAll_byte_byte (s : string) (old new : ascii) :
  ReplaceAll s (String old "") (String new "")
  = mapBytes (λ c, if Ascii.eqb old c then new else c) s.
Proof.
  unfold ReplaceAll. induction s as [|c s IH]; [reflexivity|].
  cbn [ReplaceAll_from HasPrefix String.length Nat.sub mapBytes].
  rewrite IH. destruct (Ascii.eqb old c); [|reflexivity].
  rewrite HasPrefix_nil. reflexivity.
Qed.

Lemma mapBytes_mapBytes (f g : ascii → ascii) (s : string) :
  mapBytes g (mapBytes f s) = mapBytes (λ c, g (f c)) s.
Proof. induction s as [|c s IH]; [reflexivity|]. cbn. by rewrite IH. Qed.

Lemma mapBytes_app (f : ascii → ascii) (s t : string) :
  mapBytes f (s +:+ t) = mapBytes f s +:+ mapBytes f t.
Proof.
  induction s as [|c s IH]; [reflexivity|].
  rewrite append_cons. cbn [mapBytes]. by rewrite IH, append_cons.
Qed.

Lemma allBytes_mapBytes (f : ascii → ascii) (g : ascii → bool) (s : string) :
  allBytes g (mapBytes f s) = allBytes (λ c, g (f c)) s.
Proof. induction s as [|c s IH]; [reflexivity|]. cbn. by rewrite IH. Qed.

Lemma allBytes_true (g : ascii → bool) (s : string) :
  (∀ c, g c = true) → allBytes g s = true.
Proof. intros Hg. induction s as [|c s IH]; [reflexivity|]. cbn. by rewrite Hg, IH. Qed.

Lemma allBytes_andb (f g : ascii → bool) (s : string) :
  allBytes (λ c, f c && g c) s = allBytes f s && allBytes g s.
Proof.
  induction s as [|c s IH]; [reflexivity|]. cbn [allBytes]. rewrite IH.
  by destruct (f c), (g c), (allBytes f s).
Qed.

(** The pieces before a separator, then the pieces after it. *)
Lemma Split_sep (a b : string) (sep : ascii) :
  Split (a +:+ String sep b) sep = Split a sep ++ Split b sep.
Proof.
  induction a as [|c a IH].
  - change ("" +:+ String sep b) with (String sep b). cbn [Split].
    by rewrite Ascii.eqb_refl.
  - rewrite append_cons. cbn [Split]. rewrite IH.
    destruct (Ascii.eqb c sep); [reflexivity|].
    pose proof (Split_nonempty a sep). by destruct (Split a sep).
Qed.

(** The pieces hold bytes of the string only. *)
Lemma Split_allBytes (g : ascii → bool) (s : string) (sep : ascii) :
  allBytes g s = true → Forall (λ piece, allBytes g piece = true) (Split s sep).
Proof.
  induction s as [|c s IH]; [by repeat constructor|].
  cbn [allBytes Split]. intros [Hc Hs]%andb_true_iff. specialize (IH Hs).
  destruct (Ascii.eqb c sep); [by constructor|].
  destruct (Split s sep) as [|piece rest]; [by repeat constructor; cbn; rewrite Hc|].
  apply Forall_cons in IH as [Hpiece Hrest]. constructor; [|done].
  cbn. by rewrite Hc, Hpiece.
Qed.

Lemma TrimLeftSpace_allBytes (g : ascii → bool) (s : string) :
  allBytes g s = true → allBytes g (TrimLeftSpace s) = true.
Proof.
  induction s as [|c s IH]; [done|]. cbn [TrimLeftSpace].
  destruct (isSpace c); [|done]. cbn [allBytes]. by intros [_ Hs%IH]%andb_true_iff.
Qed.

Lemma TrimRightSpace_allBytes (g : ascii → bool) (s : string) :
  allBytes g s = true → allBytes g (TrimRightSpace s) = true.
Proof.
  induction s as [|c s IH]; [done|]. cbn [allBytes TrimRightSpace].
  intros [Hc Hs%IH]%andb_true_iff.
  destruct (TrimRightSpace s).
  - destruct (isSpace c); [done|]. cbn. by rewrite Hc.
  - cbn [allBytes] in *. by rewrite Hc, Hs.
Qed.

(** X28: a full stop, exclamation mark or question mark ends a sentence:
    the sentences of two texts joined by one of them are the sentences of
    the first followed by those of the second; every sentence returned
    is trimmed, longer than five bytes, and holds none of the three
    marks. *)
Theorem X28_SplitIntoSentences_marks (a b : string) (mark : ascii) :
  mark = "."%char ∨ mark = "!"%char ∨ mark = "?"%char →
  Utils.SplitIntoSentences (a +:+ String mark b)
  = Utils.SplitIntoSentences a ++ Utils.SplitIntoSentences b
  ∧ Forall (λ sentence,
              (5 < String.length sentence)
              ∧ TrimSpace sentence = sentence
              ∧ allBytes (λ c, negb (Ascii.eqb c ".") && negb (Ascii.eqb c "!")
                               && negb (Ascii.eqb c "?")) sentence = true)
           (Utils.SplitIntoSentences (a +:+ String mark b)).
Proof.
  intros Hmark.
  assert (Hmap : ∀ text,
            ReplaceAll (ReplaceAll text "!" ".") "?" "."
            = mapBytes (λ c, if Ascii.eqb "?" (if Ascii.eqb "!" c then "." else c)
                             then "."%char else if Ascii.eqb "!" c then "."%char else c)
                       text).
  { intros text. by rewrite !ReplaceAll_byte_byte, mapBytes_mapBytes. }
  split.
  - unfold Utils.SplitIntoSentences. cbv zeta. rewrite !Hmap, mapBytes_app.
    cbn [mapBytes].
    assert (Hdot : (if Ascii.eqb "?" (if Ascii.eqb "!" mark then "." else mark)
                    then "."%char else if Ascii.eqb "!" mark then "."%char else mark)
                   = "."%char) by (by destruct Hmark as [->|[->| ->]]).
    rewrite Hdot, Split_sep, map_app. apply List.filter_app.
  - generalize (a +:+ String mark b). intros text.
    unfold Utils.SplitIntoSentences. cbv zeta. rewrite Hmap.
    apply Forall_forall. intros sentence [Hin Hlen]%list_elem_of_In%filter_In.
    apply Nat.ltb_lt in Hlen.
    apply in_map_iff in Hin as (piece & <- & Hpiece%list_elem_of_In).
    split; [exact Hlen|]. split; [apply TrimSpace_idemp|].
    apply TrimRightSpace_allBytes, TrimLeftSpace_allBytes.
    set (text' := mapBytes _ text) in *.
    assert (Hdot : allBytes (λ c, negb (Ascii.eqb c ".")) piece = true).
    { pose proof (proj2 (Split_Join text' ".")) as Hall.
      rewrite Forall_forall in Hall. by apply Hall. }
    assert (Hmarks : allBytes (λ c, negb (Ascii.eqb c "!") && negb (Ascii.eqb c "?")) piece
                     = true).
    { assert (Hall : Forall (λ piece, allBytes (λ c, negb (Ascii.eqb c "!")
                                                     && negb (Ascii.eqb c "?")) piece = true)
                            (Split text' ".")).
      { apply Split_allBytes. unfold text'. rewrite allBytes_mapBytes. apply allBytes_true.
        intros c. destruct c as [[] [] [] [] [] [] [] []]; reflexivity. }
      rewrite Forall_forall in Hall. by apply Hall. }
    rewrite (allBytes_ext _ (λ c, negb (Ascii.eqb c ".")
                                  && (negb (Ascii.eqb c "!") && negb (Ascii.eqb c "?"))))
      by (intros c; by rewrite andb_assoc).
    by rewrite allBytes_andb, Hdot, Hmarks.
Qed.

Lemma X28_witness :
  Utils.SplitIntoSentences ("Built services in Go" +:+ String "!" " Led a team of five.")
  = Utils.SplitIntoSentences "Built services in Go"
    ++ Utils.SplitIntoSentences " Led a team of five."
  ∧ Forall (λ sentence,
              (5 < String.length sentence)
              ∧ TrimSpace sentence = sentence
              ∧ allBytes (λ c, negb (Ascii.eqb c ".") && negb (Ascii.eqb c "!")
                               && negb (Ascii.eqb c "?")) sentence = true)
           (Utils.SplitIntoSentences
              ("Built services in Go" +:+ String "!" " Led a team of five.")).
Proof.
  apply (X28_SplitIntoSentences_marks "Built services in Go" " Led a team of five." "!").
  right. by left.
Defined.

(** ** Suggestions *)

Lemma skillAdvice_length (percentage : Q) (missingSkills : list string) :
  length
    (if Float.ltb percentage 50 then
       ["Your skill match is low. Consider adding more relevant skills from the job description."]
       ++ (if (0 <? length missingSkills)%nat
           then ["Key missing skills: " +:+ Join (take 5 missingSkills) ", "]
           else [])
     else if Float.ltb percentage 75 then
       let maxSkills := if (length missingSkills <? 3)%nat then length missingSkills
                        else 3%nat in
       ["Good skill match! Consider adding: " +:+ Join (take maxSkills missingSkills) ", "]
     else []) ≤ 2.
Proof.
  destruct (Float.ltb percentage 50).
  - destruct (0 <? length missingSkills)%nat; cbn; lia.
  - destruct (Float.ltb percentage 75); cbn; lia.
Qed.

(** X29: the suggestions of [AnalyzeResume] follow the results it
    reports.  After at most two lines on skills (none from 75 percent
    on), the advice on experience appears exactly when [MeetsRequirement]
    is false, the advice on education exactly when [HasRequiredEducation]
    is false, then the advice for the format issues, the advice to tailor
    the resume exactly when the reported score is below 60 (the
    suggestions recompute the score with the default weights), and the
    advice to quantify exactly when the text shows no quantified result. *)
Theorem X29_suggestions_follow_results
    (now : Time.Time) (resume : Resume.t) (jobDesc : JobDescription.t) :
  let result := Scorer.AnalyzeResume now resume jobDesc in
  let percentage := SkillMatchResult.Percentage (AnalysisResult.SkillMatch result) in
  ∃ skillAdvice,
    AnalysisResult.Suggestions result
    = skillAdvice
      ++ (if ExperienceResult.MeetsRequirement (AnalysisResult.ExperienceMatch result)
          then []
          else ["You may not meet the minimum experience requirement. Highlight relevant internships, projects, or transferable skills."])
      ++ (if EducationResult.HasRequiredEducation (AnalysisResult.EducationMatch result)
          then []
          else ["Consider highlighting relevant coursework, certifications, or continuing education if you don't have the preferred degree."])
      ++ flat_map Scorer.formatAdvice (FormatResult.Issues (AnalysisResult.FormatScore result))
      ++ (if Float.ltb (AnalysisResult.Score result) 60
          then ["Consider tailoring your resume more closely to this specific job description."]
          else [])
      ++ (if Scorer.hasQuantifiedResults (Resume.RawText resume) then []
          else [Scorer.quantifyAdvice])
    ∧ length skillAdvice ≤ 2
    ∧ (skillAdvice = [] ↔ (75 <= percentage)%Q)
    ∧ length (AnalysisResult.Suggestions result)
      ≤ 6 + length (FormatResult.Issues (AnalysisResult.FormatScore result)).
Proof.
  cbv zeta. unfold Scorer.AnalyzeResume. cbv zeta.
  cbn [AnalysisResult.Suggestions AnalysisResult.SkillMatch AnalysisResult.ExperienceMatch
       AnalysisResult.EducationMatch AnalysisResult.FormatScore AnalysisResult.Score].
  unfold Scorer.generateSuggestions. cbv zeta.
  set (skillMatch := Scorer.calculateSkillMatch resume jobDesc).
  set (experienceMatch := Scorer.calculateExperienceMatch now resume jobDesc).
  set (educationMatch := Scorer.calculateEducationMatch resume jobDesc).
  set (formatScore := Scorer.calculateFormatScore resume).
  set (skillAdvice := if Float.ltb (SkillMatchResult.Percentage skillMatch) 50 then _ else _).
  assert (Hexp : negb (ExperienceResult.MeetsRequirement experienceMatch)
                 && Float.ltb (ExperienceResult.YearsCandidate experienceMatch)
                      (Float.of_int (ExperienceResult.YearsRequired experienceMatch))
                 = negb (ExperienceResult.MeetsRequirement experienceMatch)).
  { unfold experienceMatch, Scorer.calculateExperienceMatch, Float.ltb, Float.leb.
    cbn [ExperienceResult.MeetsRequirement ExperienceResult.YearsCandidate
         ExperienceResult.YearsRequired].
    by destruct (Qle_bool _ _). }
  assert (Hedu : negb (EducationResult.HasRequiredEducation educationMatch)
                 && (0 <? length (JobDescription.Education jobDesc))%nat
                 = negb (EducationResult.HasRequiredEducation educationMatch)).
  { unfold educationMatch, Scorer.calculateEducationMatch.
    destruct (JobDescription.Education jobDesc); [reflexivity|].
    cbn [length Nat.eqb Nat.ltb Nat.leb]. apply andb_true_r. }
  rewrite Hexp, Hedu. clear Hexp Hedu.
  exists skillAdvice.
  assert (Hlen : length skillAdvice ≤ 2) by apply skillAdvice_length.
  split; [|split; [exact Hlen|split]].
  - f_equal. f_equal; [by destruct (ExperienceResult.MeetsRequirement experienceMatch)|].
    f_equal. { by destruct (EducationResult.HasRequiredEducation educationMatch). }
    f_equal. cbn [Scorer.DefaultWeights Scorer.SkillWeight Scorer.ExperienceWeight
                  Scorer.EducationWeight Scorer.FormatWeight].
    f_equal. by destruct (Scorer.hasQuantifiedResults (Resume.RawText resume)).
  - unfold skillAdvice.
    destruct (Float.ltb (SkillMatchResult.Percentage skillMatch) 50) eqn:H50.
    { apply Float_ltb_lt in H50. split; [discriminate|]. intros ?. Lqa.lra. }
    apply Float_ltb_ge in H50.
    destruct (Float.ltb (SkillMatchResult.Percentage skillMatch) 75) eqn:H75.
    { apply Float_ltb_lt in H75. split; [discriminate|]. intros ?. Lqa.lra. }
    apply Float_ltb_ge in H75. done.
  - rewrite !length_app.
    assert (Hformat : length (flat_map Scorer.formatAdvice (FormatResult.Issues formatScore))
                      ≤ length (FormatResult.Issues formatScore)).
    { induction (FormatResult.Issues formatScore) as [|issue issues IH]; [done|].
      cbn [flat_map]. rewrite length_app. cbn [length].
      assert (length (Scorer.formatAdvice issue) ≤ 1); [|lia].
      unfold Scorer.formatAdvice.
      repeat match goal with |- context [if ?b then _ else _] => destruct b end;
        cbn; lia. }
    destruct (negb (ExperienceResult.MeetsRequirement experienceMatch));
      destruct (negb (EducationResult.HasRequiredEducation educationMatch));
      destruct (Float.ltb _ 60);
      destruct (negb (Scorer.hasQuantifiedResults (Resume.RawText resume)));
      cbn [length]; lia.
Qed.

(** ** File names *)

(** [ReplaceAll s ".." "_"], by the first two bytes of [s]. *)
Lemma ReplaceAll_dots_cons (c : ascii) (s : string) :
  ReplaceAll (String c s) ".." "_"
  = if Ascii.eqb "." c && HasPrefix s "."
    then String "_" (ReplaceAll (dropBytes 1 s) ".." "_")
    else String c (ReplaceAll s ".." "_").
Proof.
  unfold ReplaceAll. cbn [ReplaceAll_from HasPrefix String.length Nat.sub].
  destruct (Ascii.eqb "." c); [|reflexivity]. cbn [andb].
  destruct s as [|d s]; [reflexivity|]. cbn [HasPrefix ReplaceAll_from dropBytes].
  destruct (Ascii.eqb "." d); [|reflexivity]. by rewrite HasPrefix_nil.
Qed.

(** After the replacement no two dots are adjacent; the result is no
    longer than the string and keeps to its bytes and "_". *)
Lemma ReplaceAll_dots (g : ascii → bool) (n : nat) (s : string) :
  String.length s ≤ n →
  Contains (ReplaceAll s ".." "_") ".." = false
  ∧ (HasPrefix (ReplaceAll s ".." "_") "." = true →
     HasPrefix s "." = true ∧ HasPrefix s ".." = false)
  ∧ String.length (ReplaceAll s ".." "_") ≤ String.length s
  ∧ (g "_"%char = true → allBytes g s = true →
     allBytes g (ReplaceAll s ".." "_") = true).
Proof.
  revert s. induction n as [|n IH]; intros s Hlen.
  { destruct s; [|cbn in Hlen; lia]. by cbn. }
  destruct s as [|c s]; [by cbn|]. cbn [String.length] in Hlen.
  rewrite ReplaceAll_dots_cons.
  destruct (Ascii.eqb "." c && HasPrefix s ".") eqn:Hdots.
  - apply andb_true_iff in Hdots as [Hc Hs].
    destruct s as [|d s]; [done|]. cbn [dropBytes String.length] in *.
    destruct (IH s ltac:(lia)) as (IHc & _ & IHl & IHg).
    split_and!.
    + cbn [Contains HasPrefix]. cbn. exact IHc.
    + cbn. done.
    + cbn [String.length]. lia.
    + intros Hu. cbn [allBytes]. rewrite Hu.
      intros [_ [_ Hall]%andb_true_iff]%andb_true_iff. by apply IHg.
  - destruct (IH s ltac:(lia)) as (IHc & IHh & IHl & IHg).
    split_and!.
    + cbn [Contains]. rewrite IHc, orb_false_r. cbn [HasPrefix].
      destruct (Ascii.eqb "." c) eqn:Hc; [|reflexivity]. cbn [andb] in Hdots.
      destruct (HasPrefix (ReplaceAll s ".." "_") ".") eqn:Hhead.
      * destruct (IHh eq_refl) as [Hs _]. congruence.
      * destruct (ReplaceAll s ".." "_") as [|d r]; [reflexivity|].
        cbn [HasPrefix] in *. destruct (Ascii.eqb "." d); [|reflexivity].
        by rewrite HasPrefix_nil in Hhead.
    + cbn [HasPrefix]. destruct (Ascii.eqb "." c) eqn:Hc; [|done]. cbn [andb] in Hdots.
      intros _. rewrite HasPrefix_nil. split; [done|].
      destruct s as [|d s]; [done|]. cbn [HasPrefix] in *.
      destruct (Ascii.eqb "." d); [|done]. by rewrite HasPrefix_nil in Hdots.
    + cbn [String.length]. lia.
    + intros Hu. cbn [allBytes]. intros [Hc Hall]%andb_true_iff.
      by rewrite Hc, (IHg Hu Hall).
Qed.

Lemma prefix_app (s t : string) : prefix (String.length s) (s +:+ t) = s.
Proof. induction s as [|c s IH]; [by destruct t|]. rewrite append_cons. cbn. by rewrite IH. Qed.

Lemma dropBytes_app (s t : string) : dropBytes (String.length s) (s +:+ t) = t.
Proof. induction s as [|c s IH]; [by destruct t|]. rewrite append_cons. cbn. exact IH. Qed.

Lemma TrimSuffix_app (s t : string) : TrimSuffix (s +:+ t) t = s.
Proof.
  unfold TrimSuffix, HasSuffix. rewrite append_length.
  replace (String.length s + String.length t - String.length t) with (String.length s)
    by lia.
  rewrite dropBytes_app, String.eqb_refl, prefix_app.
  by destruct (Nat.leb_spec (String.length t) (String.length s + String.length t)); [|lia].
Qed.

(** The extension is a suffix of the path. *)
Lemma Ext_is_suffix (path : string) : ∃ name, path = name +:+ Ext path.
Proof.
  unfold Ext.
  assert (Hscan : ∀ e, Ext_scan path = Some e → ∃ name, path = name +:+ e).
  { induction path as [|c path IH]; [done|]. cbn [Ext_scan]. intros e.
    destruct (Ext_scan path) as [e'|].
    - intros [= <-]. destruct (IH e' eq_refl) as [name ->].
      exists (String c name). by rewrite append_cons.
    - destruct (Ascii.eqb c ".").
      + intros [= <-]. by exists "".
      + destruct (Ascii.eqb c "/"); [|done]. intros [= <-].
        exists (String c path). by rewrite append_nil_r. }
  destruct (Ext_scan path) as [e|]; cbn [default].
  - by apply Hscan.
  - exists path. by rewrite append_nil_r.
Qed.

Lemma allBytes_prefix (g : ascii → bool) (n : nat) (s : string) :
  allBytes g s = true → allBytes g (prefix n s) = true.
Proof.
  revert s. induction n as [|n IH]; intros [|c s]; cbn; try done.
  intros [Hc Hs]%andb_true_iff. by rewrite Hc, (IH s Hs).
Qed.

Lemma mapBytes_length (f : ascii → ascii) (s : string) :
  String.length (mapBytes f s) = String.length s.
Proof. induction s as [|c s IH]; [done|]. cbn [mapBytes String.length]. by rewrite IH. Qed.

(** The nine single bytes are replaced byte by byte. *)
Lemma cleaned_bytes (filename : string) :
  fold_left (λ f char, ReplaceAll f char "_") Validation.dangerous filename
  = ReplaceAll
      (mapBytes (λ c, if existsb (Ascii.eqb c)
                           ["/"; "092"; ":"; "*"; "?"; "034"; "<"; ">"; "|"]%char
                      then "_"%char else c) filename)
      ".." "_".
Proof.
  unfold Validation.dangerous. cbn [fold_left].
  rewrite !ReplaceAll_byte_byte, !mapBytes_mapBytes. f_equal.
  induction filename as [|c filename IH]; [reflexivity|]. cbn [mapBytes].
  rewrite IH. f_equal. destruct c as [[] [] [] [] [] [] [] []]; reflexivity.
Qed.

(** X30: [SanitizeFilename] first replaces the nine dangerous bytes and
    every pair of dots by "_": the cleaned name holds none of the nine
    bytes and no two adjacent dots, and is no longer than the name.  A
    cleaned name of at most 255 bytes is returned as it is.  A longer one
    is cut to 255 bytes around its extension, still free of the nine
    bytes, unless the extension itself is longer than 255 bytes: then,
    and only then, the slice bound is negative and the call panics. *)
Theorem X30_SanitizeFilename_safe (filename : string) :
  let cleaned :=
    fold_left (λ f char, ReplaceAll f char "_") Validation.dangerous filename in
  let safe := λ c, negb (existsb (Ascii.eqb c)
                           ["/"; "092"; ":"; "*"; "?"; "034"; "<"; ">"; "|"]%char) in
  allBytes safe cleaned = true
  ∧ Contains cleaned ".." = false
  ∧ String.length cleaned ≤ String.length filename
  ∧ (String.length cleaned ≤ 255 → Validation.SanitizeFilename filename = Some cleaned)
  ∧ (Validation.SanitizeFilename filename = None
     ↔ 255 < String.length cleaned ∧ 255 < String.length (Ext cleaned))
  ∧ (∀ out, Validation.SanitizeFilename filename = Some out →
            String.length out ≤ 255 ∧ allBytes safe out = true).
Proof.
  cbv zeta. unfold Validation.SanitizeFilename. cbv zeta. rewrite cleaned_bytes.
  set (mapped := mapBytes _ filename).
  set (safe := λ c, negb (existsb (Ascii.eqb c)
                            ["/"; "092"; ":"; "*"; "?"; "034"; "<"; ">"; "|"]%char)).
  assert (Hmapped : allBytes safe mapped = true).
  { unfold mapped. rewrite allBytes_mapBytes. apply allBytes_true.
    intros c. destruct c as [[] [] [] [] [] [] [] []]; reflexivity. }
  assert (Hlen : String.length mapped = String.length filename).
  { apply mapBytes_length. }
  destruct (ReplaceAll_dots safe (String.length mapped) mapped (le_n _))
    as (Hdots & _ & Hshort & Hsafe).
  specialize (Hsafe eq_refl Hmapped). rewrite Hlen in Hshort.
  set (cleaned := ReplaceAll mapped ".." "_") in *. clearbody cleaned. clear mapped Hmapped Hlen.
  split; [exact Hsafe|]. split; [exact Hdots|]. split; [exact Hshort|].
  destruct (Nat.ltb_spec 255 (String.length cleaned)) as [Hlong|Hfits].
  2:{ split; [done|]. split; [|by intros out [= <-]]. split; [done|]. intros [? _]. lia. }
  destruct (Ext_is_suffix cleaned) as [name Hname].
  set (ext := Ext cleaned) in *. clearbody ext. subst cleaned.
  rewrite TrimSuffix_app. rewrite append_length in Hlong.
  rewrite allBytes_app in Hsafe. apply andb_true_iff in Hsafe as [Hn He].
  unfold SliceTo. rewrite !(append_length name ext).
  destruct (Z.ltb_spec (255 - Z.of_nat (String.length ext)) 0) as [Hneg|Hpos]; cbn [orb].
  - split; [lia|]. split; [|done]. split; [intros _; lia|done].
  - destruct (Z.ltb_spec (Z.of_nat (String.length name))
                         (255 - Z.of_nat (String.length ext))); [lia|].
    cbn [option_map]. split; [lia|]. split.
    + split; [done|]. intros [_ ?]. lia.
    + intros out [= <-]. rewrite append_length, prefix_length, allBytes_app, He.
      rewrite (allBytes_prefix _ _ _ Hn). split; [lia|done].
Qed.

(** The panic is reachable: a dot followed by 256 letters is its own
    extension. *)
Example SanitizeFilename_panics : Validation.SanitizeFilename (Inputs.hiddenName 256) = None.
Proof. by vm_compute. Qed.

(** The cut can bring two dots together again. *)
Example SanitizeFilename_cut_joins_dots :
  ∃ out, Validation.SanitizeFilename Inputs.dottedName = Some out
         ∧ String.length out = 255 ∧ Contains out ".." = true.
Proof. eexists. split; [by vm_compute|]. split; by vm_compute. Qed.
